(** * hps_accel, gateware generation 1: the 4x4 convolution offload engine

    A shallow embedding of

    - [conv_accel_gen_1.cc]: the eligibility classifier
      [CanAccelerateConv4x4] and the tiling and streaming engine
      [ConvPerChannel4x4];
    - [conv2d_call.cc]: the golden-output harness [test_conv2d].

    Conventions.  C++ [int] and [int32_t] values are integers of [Z]; the
    shapes and strides of a tensor are far below the range where [int]
    arithmetic overflows, and signed overflow is undefined in C++, so index
    arithmetic is plain arithmetic of [Z], with C++'s truncating [/] and [%]
    written [Z.quot] and [Z.rem].  Registers and accumulators that hold a
    32-bit or 8-bit value wrap explicitly ([to_int32], [to_int8]).  A
    [TFLITE_DCHECK] that fails aborts the call (the debug build's meaning);
    a division by zero and a store outside the output tensor are results of
    their own.  Buffers are lists of bytes and a pointer into a buffer is a
    byte offset. *)

From Stdlib Require Import ZArith Lia Bool String.
From stdpp Require Import base tactics option list list_numbers.

Local Open Scope Z_scope.

(* ================================================================= *)
(** * Part I: the model *)
(* ================================================================= *)

(** ** Machine integers *)

(** The value of a [bits]-wide two's complement register holding [z]. *)
Definition wrap_signed (bits z : Z) : Z :=
  (z + 2 ^ (bits - 1)) mod 2 ^ bits - 2 ^ (bits - 1).

Definition to_int32 (z : Z) : Z := wrap_signed 32 z.
Definition to_int8 (z : Z) : Z := wrap_signed 8 z.
Definition to_uint8 (z : Z) : Z := z mod 256.

(** ** Results of a call *)

(** The assertions of the two functions, one name per [TFLITE_DCHECK]. *)
Inductive dcheck : Type :=
  | ChkDimsIndex          (* RuntimeShape::Dims, index within the rank *)
  | ChkMatchingDim        (* MatchingDim, the two dimensions agree *)
  | ChkDilationWidth
  | ChkDilationHeight
  | ChkPaddingType
  | ChkPaddingWidth
  | ChkPaddingHeight
  | ChkActivationRange
  | ChkInputRank
  | ChkFilterRank
  | ChkOutputRank
  | ChkBatches
  | ChkInputDepth
  | ChkBiasData
  | ChkBiasSize
  | ChkFilterHeight
  | ChkFilterWidth
  | ChkInputRows          (* in_y_origin + filter_height <= input_height *)
  | ChkInputCols          (* in_x_origin + filter_width <= input_width *)
  | ChkInputWords.        (* the window fits MAX_INPUT_WORDS *)

Inductive fault : Type :=
  | DcheckFailed (c : dcheck)
  | DivisionByZero
  | StoreOutOfBounds
  | OutOfFuel.

Inductive result (A : Type) : Type :=
  | Ok (a : A)
  | Err (e : fault).
Arguments Ok {A} a.
Arguments Err {A} e.

Definition rbind {A B} (r : result A) (k : A → result B) : result B :=
  match r with
  | Ok a => k a
  | Err e => Err e
  end.

Definition rcheck (c : dcheck) (b : bool) : result unit :=
  if b then Ok tt else Err (DcheckFailed c).

(** C++ [a / b] on [int]. *)
Definition cdiv (a b : Z) : result Z :=
  if b =? 0 then Err DivisionByZero else Ok (Z.quot a b).

(** ** TensorFlow Lite types *)

Inductive PaddingType : Type := kNone | kSame | kValid.

Definition PaddingType_eqb (a b : PaddingType) : bool :=
  match a, b with
  | kNone, kNone | kSame, kSame | kValid, kValid => true
  | _, _ => false
  end.

Record PaddingValues : Type := {
  width : Z;
  height : Z
}.

(** The fields of [tflite::ConvParams] the two functions read. *)
Record ConvParams : Type := {
  padding_type : PaddingType;
  padding_values : PaddingValues;
  stride_width : Z;
  stride_height : Z;
  dilation_width_factor : Z;
  dilation_height_factor : Z;
  input_offset : Z;
  output_offset : Z;
  quantized_activation_min : Z;
  quantized_activation_max : Z
}.

(** Modelled from the spec: [tflite::RuntimeShape] (its header is not among
    the sources), the ordered dimensions of a dense row-major tensor. *)
Definition RuntimeShape : Type := list Z.

Definition DimensionsCount (shape : RuntimeShape) : Z := Z.of_nat (length shape).

(** Modelled from the spec: [RuntimeShape::Dims], which asserts that the index
    is within the rank. *)
Definition Dims (shape : RuntimeShape) (i : nat) : result Z :=
  match shape !! i with
  | Some d => Ok d
  | None => Err (DcheckFailed ChkDimsIndex)
  end.

Definition FlatSize (shape : RuntimeShape) : Z := foldr Z.mul 1 shape.

(** Modelled from the spec: [MatchingDim], "dimensions that are supposed to
    agree must agree exactly, else it is a caller contract violation". *)
Definition MatchingDim (shape1 : RuntimeShape) (index1 : nat)
    (shape2 : RuntimeShape) (index2 : nat) : result Z :=
  rbind (Dims shape1 index1) (λ d1,
  rbind (Dims shape2 index2) (λ d2,
  rbind (rcheck ChkMatchingDim (d1 =? d2)) (λ _,
  Ok (Z.min d1 d2)))).

(** Modelled from the spec: [Offset], the row-major position of an element of
    a four-dimensional tensor. *)
Definition Offset (shape : RuntimeShape) (i0 i1 i2 i3 : Z) : Z :=
  ((i0 * shape !!! 1%nat + i1) * shape !!! 2%nat + i2) * shape !!! 3%nat + i3.

(** ** Gateware constants *)

(** [gateware_constants.h] is generated with the gateware and is not among
    the sources: its two capacities are parameters of the model. *)
Class GatewareConstants : Type := {
  MAX_FILTER_WORDS : Z;
  MAX_INPUT_WORDS : Z
}.

(** ** The eligibility classifier *)

(** [bias_data] is [None] for a null pointer. *)
Definition CanAccelerateConv4x4 (params : ConvParams)
    (input_shape filter_shape output_shape : RuntimeShape)
    (bias_data : option (list Z)) : result bool :=
  rbind (MatchingDim input_shape 3 filter_shape 3) (λ input_depth,
  rbind (Dims filter_shape 1) (λ filter_height,
  rbind (Dims filter_shape 2) (λ filter_width,
  let dilation_width_factor := dilation_width_factor params in
  let dilation_height_factor := dilation_height_factor params in
  rbind (MatchingDim input_shape 0 output_shape 0) (λ batches,
  Ok (PaddingType_eqb (padding_type params) kValid &&
      ((input_depth =? 1) || (Z.rem input_depth 4 =? 0)) &&
      (filter_width =? 4) && (filter_height =? 4) &&
      (dilation_width_factor =? 1) && (dilation_height_factor =? 1) &&
      (batches =? 1) && bool_decide (bias_data ≠ None)))))).

(** ** The tile size *)

Definition filter_words_per_output_channel (input_depth filter_height filter_width : Z) : Z :=
  Z.quot (input_depth * filter_height * filter_width) 4.

Definition max_output_channels_per_load `{GatewareConstants}
    (filter_words_per_output_channel : Z) : result Z :=
  rbind (cdiv MAX_FILTER_WORDS filter_words_per_output_channel) (λ q,
  Ok (Z.quot q 4 * 4)).

(** ** The accelerator interface, [blocks.h] *)

(** The protocol of section 6 of the specification, over any state of the
    accelerator.  A pointer argument is the buffer and the offset into it;
    [LoadOutputParams] gets the three per-channel arrays. *)
Class Accelerator (S : Type) : Type := {
  LoadInputOffset : Z → S → S;
  SetOutputOffsets : Z → Z → Z → S → S;
  LoadFilter : Z → Z → list Z → Z → S → S;
  LoadOutputParams : Z → Z → list Z → list Z → list Z → S → S;
  LoadInput : Z → Z → list Z → Z → S → S;
  AdvanceFilterInput : Z → S → S;
  multiply_accumulate : S → Z * S;
  PostProcess : Z → S → S;
  GetOutputWord : S → Z * S
}.

(** What the engine does that is visible from outside: its calls of the
    accelerator, with the values they return, and its stores to the output
    tensor. *)
Inductive event : Type :=
  | EvLoadInputOffset (offset : Z)
  | EvSetOutputOffsets (output_offset activation_min activation_max : Z)
  | EvLoadFilter (input_depth output_channels filter_ptr : Z)
  | EvLoadOutputParams (channel_offset channel_count : Z)
  | EvLoadInput (input_width input_depth input_ptr : Z)
  | EvAdvanceFilterInput (iterations : Z)
  | EvMultiplyAccumulate (acc : Z)
  | EvPostProcess (acc : Z)
  | EvGetOutputWord (word : Z)
  | EvStoreWord (byte_offset word : Z).

(** ** The engine's state and its monad *)

Record machine (S : Type) : Type := Machine {
  cfu : S;
  output_data : list Z;
  trace : list event
}.
Arguments Machine {S} _ _ _.
Arguments cfu {S} _.
Arguments output_data {S} _.
Arguments trace {S} _.

(** How a call ends.  The machine survives a failure: an abort leaves the
    accelerator and the output tensor as they were at that point. *)
Inductive outcome (S A : Type) : Type :=
  | Done (a : A) (m : machine S)
  | Failed (e : fault) (m : machine S).
Arguments Done {S A} a m.
Arguments Failed {S A} e m.

Definition M (S A : Type) : Type := machine S → outcome S A.

Definition ret {S A} (a : A) : M S A := λ m, Done a m.

Definition bind {S A B} (x : M S A) (k : A → M S B) : M S B :=
  λ m, match x m with
       | Done a m' => k a m'
       | Failed e m' => Failed e m'
       end.

Definition fail {S A} (e : fault) : M S A := λ m, Failed e m.

Definition lift {S A} (r : result A) : M S A :=
  λ m, match r with
       | Ok a => Done a m
       | Err e => Failed e m
       end.

Declare Scope engine_scope.
Delimit Scope engine_scope with engine.
Notation "x ← y ; z" := (bind y (λ x, z))
  (at level 20, y at level 100, z at level 200, only parsing) : engine_scope.
Notation "y ;; z" := (bind y (λ _, z))
  (at level 100, z at level 200, only parsing, right associativity) : engine_scope.

Definition DCHECK {S} (c : dcheck) (b : bool) : M S unit :=
  if b then ret tt else fail (DcheckFailed c).

(** [TFLITE_DCHECK(p)] on a pointer, [None] for a null pointer. *)
Definition DCHECK_ptr {S A} (c : dcheck) (p : option A) : M S A :=
  match p with
  | Some x => ret x
  | None => fail (DcheckFailed c)
  end.

(** A call of the accelerator that returns nothing. *)
Definition command {S} (e : event) (f : S → S) : M S unit :=
  λ m, Done tt (Machine (f (cfu m)) (output_data m) (trace m ++ [e])).

(** A call of the accelerator that returns a word. *)
Definition query {S} (e : Z → event) (f : S → Z * S) : M S Z :=
  λ m, let r := f (cfu m) in
       Done r.1 (Machine r.2 (output_data m) (trace m ++ [e r.1])).

(** The four bytes of a 32-bit word in memory order (little-endian), each as
    the [int8_t] the output tensor holds. *)
Definition word_bytes (w : Z) : list Z :=
  (λ k, to_int8 (Z.land (Z.shiftr w (8 * k)) 255)) <$> [0; 1; 2; 3].

(** [*p = w] through a [uint32_t*] into the output tensor, [p] a byte
    offset. *)
Definition store32 {S} (p w : Z) : M S unit :=
  λ m, if (0 <=? p) && (p + 4 <=? Z.of_nat (length (output_data m)))
       then Done tt (Machine (cfu m)
                       (list_inserts (Z.to_nat p) (word_bytes w) (output_data m))
                       (trace m ++ [EvStoreWord p w]))
       else Failed StoreOutOfBounds m.

(** [for (i = lo; ...; i += step)] run [n] times, threading the variables the
    body updates. *)
Fixpoint for_count {S A} (n : nat) (i step : Z) (body : Z → A → M S A) (a : A) : M S A :=
  match n with
  | O => ret a
  | Datatypes.S n' => (a' ← body i a; for_count n' (i + step) step body a')%engine
  end.

(** [for (i = lo; i < hi; ++i)]. *)
Definition for_range {S A} (lo hi : Z) (body : Z → A → M S A) (a : A) : M S A :=
  for_count (Z.to_nat (hi - lo)) lo 1 body a.

(** [for (i = 0; i < hi; i += 4)]. *)
Definition for_words {S A} (hi : Z) (body : Z → A → M S A) (a : A) : M S A :=
  for_count (Z.to_nat ((hi + 3) `div` 4)) 0 4 body a.

(** [for (i = lo; i < hi; i += step)] where [step] is computed at run time
    and the loop may not end: [fuel] bounds the number of iterations. *)
Fixpoint for_fuel {S} (fuel : nat) (i hi step : Z) (body : Z → M S unit) : M S unit :=
  match fuel with
  | O => fail OutOfFuel
  | Datatypes.S fuel' =>
      if i <? hi
      then (body i;; for_fuel fuel' (i + step) hi step body)%engine
      else ret tt
  end.

(** ** The engine, [ConvPerChannel4x4] *)

Section Engine.
Context `{GatewareConstants} {S : Type} `{Accelerator S}.
Local Open Scope engine_scope.

(** Lines 140 to 147: all outputs of one output pixel. *)
Definition compute_pixel (input_depth filter_height filter_width : Z)
    (out_channel_offset output_channels : Z) : M S unit :=
  for_range out_channel_offset (out_channel_offset + output_channels)
    (λ out_channel _,
       let iterations := Z.quot (filter_height * filter_width * input_depth) 16 in
       command (EvAdvanceFilterInput iterations) (AdvanceFilterInput iterations);;
       acc ← query EvMultiplyAccumulate multiply_accumulate;
       command (EvPostProcess acc) (PostProcess acc))
    tt.

(** Lines 151 to 154: the result words of one pixel, from the output queue
    into memory. *)
Definition drain_pixel (output_channels output_data32_base : Z) : M S unit :=
  for_words output_channels
    (λ i output_data32,
       w ← query EvGetOutputWord GetOutputWord;
       store32 output_data32 w;;
       ret (output_data32 + 4))
    output_data32_base;;
  ret tt.

(** Lines 128 to 157: one output pixel of one tile.  The result is
    [output_data32_base] for the next pixel. *)
Definition process_pixel (stride_width : Z)
    (input_shape : RuntimeShape) (input_data : list Z)
    (input_width input_depth filter_height filter_width output_depth : Z)
    (out_channel_offset output_channels in_y_origin : Z)
    (out_x output_data32_base : Z) : M S Z :=
  let in_x_origin := out_x * stride_width in
  DCHECK ChkInputCols (in_x_origin + filter_width <=? input_width);;
  let current_input_data := Offset input_shape 0 in_y_origin in_x_origin 0 in
  DCHECK ChkInputWords
    (Z.quot (input_depth * filter_height * filter_width) 4 <=? MAX_INPUT_WORDS);;
  command (EvLoadInput input_width input_depth current_input_data)
    (LoadInput input_width input_depth input_data current_input_data);;
  compute_pixel input_depth filter_height filter_width
    out_channel_offset output_channels;;
  drain_pixel output_channels output_data32_base;;
  ret (output_data32_base + 4 * Z.quot output_depth 4).

(** Lines 124 to 158: one row of output pixels of one tile. *)
Definition process_row (stride_width stride_height : Z)
    (input_shape : RuntimeShape) (input_data : list Z)
    (input_height input_width input_depth filter_height filter_width : Z)
    (output_width output_depth out_channel_offset output_channels : Z)
    (out_y output_data32_base : Z) : M S Z :=
  let in_y_origin := out_y * stride_height in
  DCHECK ChkInputRows (in_y_origin + filter_height <=? input_height);;
  for_range 0 output_width
    (process_pixel stride_width input_shape input_data input_width input_depth
       filter_height filter_width output_depth out_channel_offset output_channels
       in_y_origin)
    output_data32_base.

(** Lines 113 to 158: one tile of output channels. *)
Definition process_tile (stride_width stride_height : Z)
    (output_multiplier output_shift : list Z)
    (input_shape : RuntimeShape) (input_data : list Z)
    (filter_shape : RuntimeShape) (filter_data bias_data : list Z)
    (output_shape : RuntimeShape)
    (input_height input_width input_depth filter_height filter_width : Z)
    (output_height output_width output_depth max_output_channels_per_load : Z)
    (out_channel_offset : Z) : M S unit :=
  let output_channels :=
    Z.min (output_depth - out_channel_offset) max_output_channels_per_load in
  command
    (EvLoadFilter input_depth output_channels
       (Offset filter_shape out_channel_offset 0 0 0))
    (LoadFilter input_depth output_channels filter_data
       (Offset filter_shape out_channel_offset 0 0 0));;
  command (EvLoadOutputParams out_channel_offset output_channels)
    (LoadOutputParams out_channel_offset output_channels bias_data
       output_multiplier output_shift);;
  let output_data32_base := Offset output_shape 0 0 0 out_channel_offset in
  for_range 0 output_height
    (process_row stride_width stride_height input_shape input_data
       input_height input_width input_depth filter_height filter_width
       output_width output_depth out_channel_offset output_channels)
    output_data32_base;;
  ret tt.

(** [bias_data] is [None] for a null pointer; the output tensor is the
    [output_data] of the machine the call runs on. *)
Definition ConvPerChannel4x4 (fuel : nat) (params : ConvParams)
    (output_multiplier output_shift : list Z)
    (input_shape : RuntimeShape) (input_data : list Z)
    (filter_shape : RuntimeShape) (filter_data : list Z)
    (bias_shape : RuntimeShape) (bias_data : option (list Z))
    (output_shape : RuntimeShape) : M S unit :=
  (* Get parameters. *)
  let input_offset := input_offset params in
  let stride_width := stride_width params in
  let stride_height := stride_height params in
  DCHECK ChkDilationWidth (dilation_width_factor params =? 1);;
  DCHECK ChkDilationHeight (dilation_height_factor params =? 1);;
  DCHECK ChkPaddingType (PaddingType_eqb (padding_type params) kValid);;
  DCHECK ChkPaddingWidth (width (padding_values params) =? 0);;
  DCHECK ChkPaddingHeight (height (padding_values params) =? 0);;
  let output_offset := output_offset params in
  (* Set min and max value of the output. *)
  let output_activation_min := quantized_activation_min params in
  let output_activation_max := quantized_activation_max params in
  (* Consistency check. *)
  DCHECK ChkActivationRange (output_activation_min <=? output_activation_max);;
  DCHECK ChkInputRank (DimensionsCount input_shape =? 4);;
  DCHECK ChkFilterRank (DimensionsCount filter_shape =? 4);;
  DCHECK ChkOutputRank (DimensionsCount output_shape =? 4);;
  batches ← lift (MatchingDim input_shape 0 output_shape 0);
  DCHECK ChkBatches (batches =? 1);;
  input_depth ← lift (MatchingDim input_shape 3 filter_shape 3);
  DCHECK ChkInputDepth ((input_depth =? 1) || (Z.rem input_depth 4 =? 0));;
  output_depth ← lift (MatchingDim filter_shape 0 output_shape 3);
  bias_data ← DCHECK_ptr ChkBiasData bias_data;
  DCHECK ChkBiasSize (FlatSize bias_shape =? output_depth);;
  (* Check dimensions of the tensors. *)
  input_height ← lift (Dims input_shape 1);
  input_width ← lift (Dims input_shape 2);
  filter_rows ← lift (Dims filter_shape 1);
  DCHECK ChkFilterHeight (filter_rows =? 4);;
  let filter_height := 4 in
  filter_cols ← lift (Dims filter_shape 2);
  DCHECK ChkFilterWidth (filter_cols =? 4);;
  let filter_width := 4 in
  output_height ← lift (Dims output_shape 1);
  output_width ← lift (Dims output_shape 2);
  command (EvLoadInputOffset input_offset) (LoadInputOffset input_offset);;
  command
    (EvSetOutputOffsets output_offset output_activation_min output_activation_max)
    (SetOutputOffsets output_offset output_activation_min output_activation_max);;
  (* Work out maximum output channels we can do per filter load. *)
  let filter_words_per_output_channel :=
    filter_words_per_output_channel input_depth filter_height filter_width in
  max_output_channels_per_load ←
    lift (max_output_channels_per_load filter_words_per_output_channel);
  for_fuel fuel 0 output_depth max_output_channels_per_load
    (process_tile stride_width stride_height output_multiplier output_shift
       input_shape input_data filter_shape filter_data bias_data output_shape
       input_height input_width input_depth filter_height filter_width
       output_height output_width output_depth max_output_channels_per_load).

End Engine.

(** ** The sequence of calls the engine makes *)

(** An event without the values the accelerator returned. *)
Inductive call : Type :=
  | CLoadInputOffset (offset : Z)
  | CSetOutputOffsets (output_offset activation_min activation_max : Z)
  | CLoadFilter (input_depth output_channels filter_ptr : Z)
  | CLoadOutputParams (channel_offset channel_count : Z)
  | CLoadInput (input_width input_depth input_ptr : Z)
  | CAdvanceFilterInput (iterations : Z)
  | CMultiplyAccumulate
  | CPostProcess
  | CGetOutputWord
  | CStoreWord (byte_offset : Z).

Definition call_of (e : event) : call :=
  match e with
  | EvLoadInputOffset o => CLoadInputOffset o
  | EvSetOutputOffsets o lo hi => CSetOutputOffsets o lo hi
  | EvLoadFilter d n p => CLoadFilter d n p
  | EvLoadOutputParams o n => CLoadOutputParams o n
  | EvLoadInput w d p => CLoadInput w d p
  | EvAdvanceFilterInput n => CAdvanceFilterInput n
  | EvMultiplyAccumulate _ => CMultiplyAccumulate
  | EvPostProcess _ => CPostProcess
  | EvGetOutputWord _ => CGetOutputWord
  | EvStoreWord p _ => CStoreWord p
  end.

(** The values the accelerator returned go where the source sends them:
    every raw accumulator read back is the argument of the [PostProcess] that
    follows at once, and every word popped from the output queue is the word
    stored at once. *)
Fixpoint values_passed_on (l : list event) : bool :=
  match l with
  | [] => true
  | EvMultiplyAccumulate acc :: rest =>
      match rest with
      | EvPostProcess acc' :: _ => (acc =? acc') && values_passed_on rest
      | _ => false
      end
  | EvGetOutputWord w :: rest =>
      match rest with
      | EvStoreWord _ w' :: _ => (w =? w') && values_passed_on rest
      | _ => false
      end
  | _ :: rest => values_passed_on rest
  end.

(** The tiles of a run, offset and width, as [LoadOutputParams] gets them. *)
Definition tiles_of (l : list call) : list (Z * Z) :=
  omap (λ c, match c with
             | CLoadOutputParams offset count => Some (offset, count)
             | _ => None
             end) l.

(** The output channels of a tile. *)
Definition tile_channels (tile : Z * Z) : list Z := seqZ tile.1 tile.2.

Section EngineCalls.
Variable params : ConvParams.
Variables input_height input_width input_depth : Z.
Variables output_height output_width output_depth : Z.
Variable max_output_channels_per_load : Z.

Definition input_shape4 : RuntimeShape := [1; input_height; input_width; input_depth].
Definition filter_shape4 : RuntimeShape := [output_depth; 4; 4; input_depth].
Definition output_shape4 : RuntimeShape := [1; output_height; output_width; output_depth].

(** Lines 143 to 146, for one output channel. *)
Definition channel_calls : list call :=
  [CAdvanceFilterInput (Z.quot (4 * 4 * input_depth) 16);
   CMultiplyAccumulate; CPostProcess].

Definition compute_calls (output_channels : Z) : list call :=
  _ ← seqZ 0 output_channels; channel_calls.

(** Lines 151 to 154 as the source has them: one word for every started
    group of four channels, from [output_data32_base] on. *)
Definition drain_calls (output_channels output_data32_base : Z) : list call :=
  i ← seqZ 0 ((output_channels + 3) `div` 4);
  [CGetOutputWord; CStoreWord (output_data32_base + 4 * i)].

(** [output_data32_base] at a pixel: line 121, then line 156 once for every
    pixel before this one. *)
Definition pixel_base (out_channel_offset out_y out_x : Z) : Z :=
  Offset output_shape4 0 0 0 out_channel_offset +
  (out_y * output_width + out_x) * (4 * Z.quot output_depth 4).

Definition pixel_calls (drain : Z → Z → list call)
    (output_channels out_y out_x : Z) : list call :=
  CLoadInput input_width input_depth
    (Offset input_shape4 0 (out_y * stride_height params)
       (out_x * stride_width params) 0) ::
  compute_calls output_channels ++ drain out_y out_x.

Definition tile_width (out_channel_offset : Z) : Z :=
  Z.min (output_depth - out_channel_offset) max_output_channels_per_load.

Definition tile_calls (drain : Z → Z → Z → Z → list call)
    (out_channel_offset : Z) : list call :=
  let output_channels := tile_width out_channel_offset in
  CLoadFilter input_depth output_channels
    (Offset filter_shape4 out_channel_offset 0 0 0) ::
  CLoadOutputParams out_channel_offset output_channels ::
  (out_y ← seqZ 0 output_height;
   out_x ← seqZ 0 output_width;
   pixel_calls (drain out_channel_offset output_channels)
     output_channels out_y out_x).

(** The offsets the outer loop visits when it ends. *)
Definition tile_count : Z :=
  if 0 <? max_output_channels_per_load
  then (output_depth + max_output_channels_per_load - 1)
         `div` max_output_channels_per_load
  else 0.

Definition tile_offsets : list Z :=
  (λ k, k * max_output_channels_per_load) <$> seqZ 0 tile_count.

Definition engine_calls (drain : Z → Z → Z → Z → list call) : list call :=
  CLoadInputOffset (input_offset params) ::
  CSetOutputOffsets (output_offset params) (quantized_activation_min params)
    (quantized_activation_max params) ::
  (out_channel_offset ← tile_offsets; tile_calls drain out_channel_offset).

(** The drain of the source. *)
Definition source_drain (out_channel_offset output_channels out_y out_x : Z) : list call :=
  drain_calls output_channels (pixel_base out_channel_offset out_y out_x).

(** The drain in the words of the specification: [output_channels / 4]
    words, stored at the position of the pixel and of the tile's channel
    offset in the output tensor. *)
Definition specified_drain (out_channel_offset output_channels out_y out_x : Z) : list call :=
  i ← seqZ 0 (Z.quot output_channels 4);
  [CGetOutputWord;
   CStoreWord (Offset output_shape4 0 out_y out_x out_channel_offset + 4 * i)].

End EngineCalls.

(** ** Quantized arithmetic shared by the accelerator and the reference *)

(** [buf[i]] of a read-only tensor. *)
Definition get (buf : list Z) (i : Z) : Z := buf !!! Z.to_nat i.

(** [n] consecutive elements of a tensor from offset [p]. *)
Definition read_bytes (buf : list Z) (p n : Z) : list Z :=
  (λ i, get buf (p + i)) <$> seqZ 0 n.

Definition sumZ (l : list Z) : Z := foldr Z.add 0 l.

(** The sum of [(input + input_offset) * filter] over two streams. *)
Definition dot (input_offset : Z) (inputs filters : list Z) : Z :=
  sumZ (zip_with (λ x f, (x + input_offset) * f) inputs filters).

(** Modelled from the spec: the post-processing of one raw accumulator, "add
    bias, per-channel multiply and shift, add output zero-point, clamp to
    activation min/max, narrow to 8-bit".  [rescale] is the multiply and
    shift, [MultiplyByQuantizedMultiplier] in TensorFlow Lite. *)
Definition requantize (rescale : Z → Z → Z → Z)
    (acc bias multiplier shift output_offset activation_min activation_max : Z) : Z :=
  let acc := to_int32 (acc + bias) in
  let acc := rescale acc multiplier shift in
  let acc := to_int32 (acc + output_offset) in
  let acc := Z.max acc activation_min in
  let acc := Z.min acc activation_max in
  to_int8 acc.

(** Modelled from the spec: the rescale of TensorFlow Lite (gemmlowp's
    fixed-point multiply and rounding shift), which is not among the sources.
    It instantiates [rescale] in the examples; no theorem depends on it. *)
Definition SaturatingRoundingDoublingHighMul (a b : Z) : Z :=
  if (a =? b) && (a =? - 2 ^ 31) then 2 ^ 31 - 1
  else
    let ab := a * b in
    let nudge := if 0 <=? ab then 2 ^ 30 else 1 - 2 ^ 30 in
    Z.quot (ab + nudge) (2 ^ 31).

Definition RoundingDivideByPOT (x exponent : Z) : Z :=
  let mask := 2 ^ exponent - 1 in
  let remainder := Z.land x mask in
  let threshold := Z.shiftr mask 1 + (if x <? 0 then 1 else 0) in
  Z.shiftr x exponent + (if threshold <? remainder then 1 else 0).

Definition MultiplyByQuantizedMultiplier (x quantized_multiplier shift : Z) : Z :=
  let left_shift := if 0 <? shift then shift else 0 in
  let right_shift := if 0 <? shift then 0 else - shift in
  RoundingDivideByPOT
    (SaturatingRoundingDoublingHighMul (to_int32 (x * 2 ^ left_shift))
       quantized_multiplier)
    right_shift.

(** ** The accelerator, as the specification gives its protocol *)

(** Modelled from the spec: the gateware behind [blocks.h] is not among the
    sources.  The state is what section 6 of the specification names: the two
    offsets registers, the filter memory and the input-window memory with
    their streaming cursors, the post-processing registers of the loaded
    channels, the raw accumulator and the output queue of 8-bit results.  The
    two memories hold 8-bit values, four to a storage word. *)
Record accel : Type := Accel {
  reg_input_offset : Z;
  reg_output_offset : Z;
  reg_activation_min : Z;
  reg_activation_max : Z;
  filter_store : list Z;
  filter_cursor : nat;
  input_store : list Z;
  input_cursor : nat;
  param_store : list (Z * Z * Z);
  param_cursor : nat;
  accumulator : Z;
  output_queue : list Z
}.

Definition accel_reset : accel :=
  Accel 0 0 0 0 [] 0 [] 0 [] 0 0 [].

(** A cursor that streams [step] elements of a memory of [size] elements and
    starts over at the end. *)
Definition next_cursor (cursor step size : nat) : nat :=
  if decide (cursor + step < size)%nat then (cursor + step)%nat else 0%nat.

(** Four bytes, first byte lowest, as one 32-bit word. *)
Definition pack_word (bytes : list Z) : Z :=
  foldr (λ b w, Z.lor (to_uint8 b) (Z.shiftl w 8)) 0 bytes.

(** The offsets of the input tensor that one input window occupies: four
    rows of four pixels of [input_depth] channels, [input_row_stride] pixels
    from one row to the next. *)
Definition window_offsets (input_row_stride input_depth window_origin : Z) : list Z :=
  row ← seqZ 0 4;
  (λ i, window_origin + row * input_row_stride * input_depth + i) <$>
    seqZ 0 (4 * input_depth).

Section SpecAccelerator.
Variable rescale : Z → Z → Z → Z.

Definition spec_LoadInputOffset (offset : Z) (a : accel) : accel :=
  Accel offset (reg_output_offset a) (reg_activation_min a) (reg_activation_max a)
    (filter_store a) (filter_cursor a) (input_store a) (input_cursor a)
    (param_store a) (param_cursor a) (accumulator a) (output_queue a).

Definition spec_SetOutputOffsets (output_offset activation_min activation_max : Z)
    (a : accel) : accel :=
  Accel (reg_input_offset a) output_offset activation_min activation_max
    (filter_store a) (filter_cursor a) (input_store a) (input_cursor a)
    (param_store a) (param_cursor a) (accumulator a) (output_queue a).

(** "Load the filter weights for exactly this tile's output channels into
    accelerator filter memory": [4 * 4 * input_depth] values for each
    channel, in the order of the filter tensor. *)
Definition spec_LoadFilter (input_depth output_channels : Z)
    (filter_data : list Z) (filter_ptr : Z) (a : accel) : accel :=
  Accel (reg_input_offset a) (reg_output_offset a) (reg_activation_min a)
    (reg_activation_max a)
    (read_bytes filter_data filter_ptr (output_channels * (4 * 4 * input_depth))) 0
    (input_store a) (input_cursor a)
    (param_store a) (param_cursor a) (accumulator a) (output_queue a).

(** "Load this tile's bias values and per-channel multiplier/shift into
    accelerator post-processing registers, positioned by the tile's channel
    offset". *)
Definition spec_LoadOutputParams (channel_offset channel_count : Z)
    (bias multiplier shift : list Z) (a : accel) : accel :=
  Accel (reg_input_offset a) (reg_output_offset a) (reg_activation_min a)
    (reg_activation_max a)
    (filter_store a) (filter_cursor a) (input_store a) (input_cursor a)
    ((λ c, (get bias c, get multiplier c, get shift c)) <$>
       seqZ channel_offset channel_count) 0
    (accumulator a) (output_queue a).

(** "Load the input window into accelerator input memory": the elements
    at [window_offsets]. *)
Definition spec_LoadInput (input_row_stride input_depth : Z)
    (input_data : list Z) (window_origin : Z) (a : accel) : accel :=
  Accel (reg_input_offset a) (reg_output_offset a) (reg_activation_min a)
    (reg_activation_max a)
    (filter_store a) (filter_cursor a)
    (get input_data <$> window_offsets input_row_stride input_depth window_origin) 0
    (param_store a) (param_cursor a) (accumulator a) (output_queue a).

(** One accumulation step: sixteen multiply-accumulates on the next four
    words of each stream, both cursors advancing in lockstep. *)
Definition accumulate_step (a : accel) : accel :=
  let inputs := take 16 (drop (input_cursor a) (input_store a)) in
  let filters := take 16 (drop (filter_cursor a) (filter_store a)) in
  Accel (reg_input_offset a) (reg_output_offset a) (reg_activation_min a)
    (reg_activation_max a)
    (filter_store a) (next_cursor (filter_cursor a) 16 (length (filter_store a)))
    (input_store a) (next_cursor (input_cursor a) 16 (length (input_store a)))
    (param_store a) (param_cursor a)
    (to_int32 (accumulator a + dot (reg_input_offset a) inputs filters))
    (output_queue a).

Definition spec_AdvanceFilterInput (iterations : Z) (a : accel) : accel :=
  Nat.iter (Z.to_nat iterations) accumulate_step a.

(** "Returns raw accumulator", which starts again from zero. *)
Definition spec_multiply_accumulate (a : accel) : Z * accel :=
  (accumulator a,
   Accel (reg_input_offset a) (reg_output_offset a) (reg_activation_min a)
     (reg_activation_max a)
     (filter_store a) (filter_cursor a) (input_store a) (input_cursor a)
     (param_store a) (param_cursor a) 0 (output_queue a)).

(** "Applies clamp/rescale, pushes one 8-bit result into the output queue",
    with the registers of the next channel in turn. *)
Definition spec_PostProcess (acc : Z) (a : accel) : accel :=
  let '(bias, multiplier, shift) := default (0, 0, 0) (param_store a !! param_cursor a) in
  Accel (reg_input_offset a) (reg_output_offset a) (reg_activation_min a)
    (reg_activation_max a)
    (filter_store a) (filter_cursor a) (input_store a) (input_cursor a)
    (param_store a) (next_cursor (param_cursor a) 1 (length (param_store a)))
    (accumulator a)
    (output_queue a ++
       [requantize rescale acc bias multiplier shift (reg_output_offset a)
          (reg_activation_min a) (reg_activation_max a)]).

(** "Pops one packed 4-channel result word".  The specification says
    nothing of a queue that holds fewer than four results; here the word is
    packed from what the queue holds. *)
Definition spec_GetOutputWord (a : accel) : Z * accel :=
  (pack_word (take 4 (output_queue a)),
   Accel (reg_input_offset a) (reg_output_offset a) (reg_activation_min a)
     (reg_activation_max a)
     (filter_store a) (filter_cursor a) (input_store a) (input_cursor a)
     (param_store a) (param_cursor a) (accumulator a)
     (drop 4 (output_queue a))).

Instance spec_accelerator : Accelerator accel := {|
  LoadInputOffset := spec_LoadInputOffset;
  SetOutputOffsets := spec_SetOutputOffsets;
  LoadFilter := spec_LoadFilter;
  LoadOutputParams := spec_LoadOutputParams;
  LoadInput := spec_LoadInput;
  AdvanceFilterInput := spec_AdvanceFilterInput;
  multiply_accumulate := spec_multiply_accumulate;
  PostProcess := spec_PostProcess;
  GetOutputWord := spec_GetOutputWord
|}.

(** ** The reference kernel, in the words of the specification *)

(** Modelled from the spec: the reference kernel
    [reference_integer_ops::ConvPerChannel] is not among the sources.  The
    raw accumulator of one output element: "subtracting input zero-point,
    multiplying by filter weight, summing" over the 4x4 window and the input
    channels.  [input_offset] is the negated zero point, as
    in the source's [r = s(q - Z)]. *)
Definition reference_accumulator (params : ConvParams)
    (input_shape : RuntimeShape) (input_data : list Z)
    (filter_shape : RuntimeShape) (filter_data : list Z)
    (out_y out_x out_channel : Z) : Z :=
  let input_depth := input_shape !!! 3%nat in
  to_int32 (sumZ (
    filter_y ← seqZ 0 4;
    filter_x ← seqZ 0 4;
    in_channel ← seqZ 0 input_depth;
    let in_y := out_y * stride_height params + filter_y in
    let in_x := out_x * stride_width params + filter_x in
    let input_val := get input_data (Offset input_shape 0 in_y in_x in_channel) in
    let filter_val :=
      get filter_data (Offset filter_shape out_channel filter_y filter_x in_channel) in
    [(input_val + input_offset params) * filter_val])).

(** Modelled from the spec: one element of the reference output, the raw
    accumulator post-processed with the parameters of its channel. *)
Definition reference_output_value (params : ConvParams)
    (output_multiplier output_shift : list Z)
    (input_shape : RuntimeShape) (input_data : list Z)
    (filter_shape : RuntimeShape) (filter_data bias_data : list Z)
    (out_y out_x out_channel : Z) : Z :=
  requantize rescale
    (reference_accumulator params input_shape input_data filter_shape filter_data
       out_y out_x out_channel)
    (get bias_data out_channel)
    (get output_multiplier out_channel) (get output_shift out_channel)
    (output_offset params)
    (quantized_activation_min params) (quantized_activation_max params).

(** Modelled from the spec: the output tensor of the pure-software
    per-channel convolution, in row-major order: rows, columns, channels. *)
Definition reference_ConvPerChannel (params : ConvParams)
    (output_multiplier output_shift : list Z)
    (input_shape : RuntimeShape) (input_data : list Z)
    (filter_shape : RuntimeShape) (filter_data bias_data : list Z)
    (output_shape : RuntimeShape) : list Z :=
  out_y ← seqZ 0 (output_shape !!! 1%nat);
  out_x ← seqZ 0 (output_shape !!! 2%nat);
  out_channel ← seqZ 0 (output_shape !!! 3%nat);
  [reference_output_value params output_multiplier output_shift
     input_shape input_data filter_shape filter_data bias_data
     out_y out_x out_channel].

End SpecAccelerator.

(** ** States of the specified accelerator during a call *)

Section AcceleratorStates.
Variable rescale : Z → Z → Z → Z.
Variable params : ConvParams.
Variables input_height input_width input_depth : Z.
Variables output_height output_width output_depth : Z.
Variables (input_data filter_data bias output_multiplier output_shift : list Z).

(** The accelerator between two steps of the protocol: the offsets of the
    call in its registers and the accumulator at zero. *)
Definition accel_state (filters : list Z) (filter_pos : nat)
    (inputs : list Z) (input_pos : nat)
    (registers : list (Z * Z * Z)) (register_pos : nat)
    (queue : list Z) : accel :=
  Accel (input_offset params) (output_offset params)
    (quantized_activation_min params) (quantized_activation_max params)
    filters filter_pos inputs input_pos registers register_pos 0 queue.

(** What [LoadFilter] and [LoadOutputParams] store for the tile of
    [output_channels] channels at [out_channel_offset], and what
    [LoadInput] stores for the pixel at [out_y], [out_x]. *)
Definition tile_filter (out_channel_offset output_channels : Z) : list Z :=
  read_bytes filter_data
    (Offset (filter_shape4 input_depth output_depth) out_channel_offset 0 0 0)
    (output_channels * (4 * 4 * input_depth)).

Definition tile_registers (out_channel_offset output_channels : Z) : list (Z * Z * Z) :=
  (λ c, (get bias c, get output_multiplier c, get output_shift c)) <$>
    seqZ out_channel_offset output_channels.

Definition pixel_window (out_y out_x : Z) : list Z :=
  get input_data <$>
    window_offsets input_width input_depth
      (Offset (input_shape4 input_height input_width input_depth) 0
         (out_y * stride_height params) (out_x * stride_width params) 0).

(** The reference values of [output_channels] channels of one pixel. *)
Definition pixel_values (out_y out_x out_channel_offset output_channels : Z) : list Z :=
  (λ c, reference_output_value rescale params output_multiplier output_shift
          (input_shape4 input_height input_width input_depth) input_data
          (filter_shape4 input_depth output_depth) filter_data bias
          out_y out_x c) <$>
    seqZ out_channel_offset output_channels.

(** The output tensor agrees with the reference output wherever [done]
    holds of the flat index. *)
Definition agrees (done : Z → Prop) (out : list Z) : Prop :=
  let reference :=
    reference_ConvPerChannel rescale params output_multiplier output_shift
      (input_shape4 input_height input_width input_depth) input_data
      (filter_shape4 input_depth output_depth) filter_data bias
      (output_shape4 output_height output_width output_depth) in
  length out = length reference ∧
  ∀ u : nat, (u < length reference)%nat → done (Z.of_nat u) →
             out !! u = reference !! u.

(** The elements the engine has written when it is at pixel number [pixel]
    of the tile of [output_channels] channels at [out_channel_offset]: all
    channels below the tile, and the channels of the tile at the pixels
    before. *)
Definition written (out_channel_offset output_channels pixel : Z) (u : Z) : Prop :=
  u `mod` output_depth < out_channel_offset ∨
  (u `mod` output_depth < out_channel_offset + output_channels ∧
   u `div` output_depth < pixel).

End AcceleratorStates.

(** A cursor that has streamed to position [c] of a memory of [len]
    elements. *)
Definition wrap_cursor (c len : nat) : nat :=
  if decide (c < len)%nat then c else 0%nat.

(** ** Judgements about runs *)

(** [c], whenever it completes, returns [a] after the calls [cs], with the
    values the accelerator returned passed on as in the source. *)
Definition runs_as {S A} (c : M S A) (a : A) (cs : list call) : Prop :=
  ∀ m a' m', c m = Done a' m' →
    a' = a ∧
    ∃ l, trace m' = trace m ++ l ∧ values_passed_on l = true ∧ call_of <$> l = cs.

(** [c] never fails with the fault [e]. *)
Definition never {S A} (c : M S A) (e : fault) : Prop :=
  ∀ m m', c m ≠ Failed e m'.

(** [c] completes on every machine. *)
Definition completes {S A} (c : M S A) : Prop :=
  ∀ m, ∃ a m', c m = Done a m'.

(** From every machine that satisfies [P], [c] completes in a machine that
    satisfies [Q]. *)
Definition total {S A} (P : machine S → Prop) (c : M S A)
    (Q : A → machine S → Prop) : Prop :=
  ∀ m, P m → ∃ a m', c m = Done a m' ∧ Q a m'.

(** ** The caller's contract *)

(** What the engine asserts of a call on tensors of the shapes
    [input_shape4], [filter_shape4] and [output_shape4], beyond the ranks and
    the matching dimensions those shapes have by construction: the call is
    eligible, the padding values are zero, the activation range is ordered,
    there is one bias for each output channel, the output extents are the
    ones of "valid" padding for positive strides (which is what puts every
    input window inside the input), and one input window fits the
    accelerator's input memory. *)
Record engine_contract `{GatewareConstants} (params : ConvParams)
    (bias_shape : RuntimeShape) (bias_data : option (list Z))
    (input_height input_width input_depth : Z)
    (output_height output_width output_depth : Z) : Prop := {
  contract_eligible :
    CanAccelerateConv4x4 params
      (input_shape4 input_height input_width input_depth)
      (filter_shape4 input_depth output_depth)
      (output_shape4 output_height output_width output_depth)
      bias_data = Ok true;
  contract_padding_width : width (padding_values params) = 0;
  contract_padding_height : height (padding_values params) = 0;
  contract_activation_range :
    quantized_activation_min params ≤ quantized_activation_max params;
  contract_bias_size : FlatSize bias_shape = output_depth;
  contract_stride_height : 0 < stride_height params;
  contract_stride_width : 0 < stride_width params;
  contract_output_height :
    output_height = (input_height - 4) `div` stride_height params + 1;
  contract_output_width :
    output_width = (input_width - 4) `div` stride_width params + 1;
  contract_input_words :
    filter_words_per_output_channel input_depth 4 4 ≤ MAX_INPUT_WORDS
}.

(** ** The golden-output harness, [conv2d_call.cc] *)

Module Conv2dCall.

(** [conv2d_call.h] is not among the sources: the fields are the ones
    [test_conv2d] reads.  [output_data] is the expected output, an array of
    [unsigned char]. *)
Record Conv2DData : Type := {
  name : string;
  params : ConvParams;
  output_multiplier : list Z;
  output_shift : list Z;
  input_shape : RuntimeShape;
  input_data : list Z;
  filter_shape : RuntimeShape;
  filter_data : list Z;
  bias_shape : RuntimeShape;
  bias_data : list Z;
  output_shape : RuntimeShape;
  output_data : list Z
}.

(** The kernel under test: [reference_integer_ops::ConvPerChannel] in the
    source, any function of that signature here.  Its last argument is the
    arena from [arena_output] on and its result is that region after the
    call. *)
Definition kernel : Type :=
  ConvParams → list Z → list Z → RuntimeShape → list Z → RuntimeShape →
  list Z → RuntimeShape → list Z → RuntimeShape → list Z → list Z.

(** [buf[i]]; [None] when [i] is outside the buffer. *)
Definition read (buf : list Z) (i : Z) : option Z :=
  if 0 <=? i then buf !! Z.to_nat i else None.

(** [buf[i]] in the comparison loop, whose indices stay inside
    [output_shape.FlatSize()]. *)
Definition load (buf : list Z) (i : Z) : Z := default 0 (read buf i).

(** [reinterpret_cast<const uint32_t*>(buf)[i]] on the little-endian
    target. *)
Definition word_at (buf : list Z) (i : Z) : option Z :=
  b0 ← read buf (4 * i);
  b1 ← read buf (4 * i + 1);
  b2 ← read buf (4 * i + 2);
  b3 ← read buf (4 * i + 3);
  Some (Z.lor (to_uint8 b0)
       (Z.lor (Z.shiftl (to_uint8 b1) 8)
       (Z.lor (Z.shiftl (to_uint8 b2) 16) (Z.shiftl (to_uint8 b3) 24)))).

(** [a == b] on two words read from memory. *)
Definition words_equal (a b : option Z) : option bool :=
  x ← a; y ← b; Some (x =? y).

Inductive buffer : Type := OutputWords | ExpectedWords.

(** One [uint32_t] read of the table loop: the array and the index. *)
Record word_read : Type := WordRead { array : buffer; index : Z }.

Inductive line : Type :=
  | Testing (name : string)
  | TableHeader
  | TableRow (i : Z) (output_word expected_word : option Z)
             (star bang : option bool)
  | PrintOk
  | PrintFail (diff_count : Z).

Record report : Type := {
  printed : list line;
  word_reads : list word_read
}.

(** The comparison loop, lines 51 to 56. *)
Definition count_diffs (arena_output expected : list Z) (flat_size : Z) : Z :=
  fold_left
    (λ diff_count i,
       if load arena_output i =? to_int8 (load expected i)
       then diff_count else diff_count + 1)
    (seqZ 0 flat_size) 0.

(** A step of the table loop: its value and the words it has read from
    memory, in the order it read them. *)
Definition reading (A : Type) : Type := A * list word_read.

Definition ret_reading {A} (a : A) : reading A := (a, []).

Definition bind_reading {A B} (c : reading A) (k : A → reading B) : reading B :=
  let r := k c.1 in (r.1, c.2 ++ r.2).

Declare Scope reading_scope.
Delimit Scope reading_scope with reading.
Notation "x ← y ; z" := (bind_reading y (λ x, z))
  (at level 20, y at level 100, z at level 200, only parsing) : reading_scope.

(** [output_words[i]] or [expected_words[i]]: the word, [None] when it is
    not inside the array, and the read. *)
Definition read_word (output_words expected_words : list Z) (a : buffer) (i : Z)
    : reading (option Z) :=
  (word_at match a with
           | OutputWords => output_words
           | ExpectedWords => expected_words
           end i,
   [WordRead a i]).

(** One iteration of the table loop, lines 62 to 66: the arguments of
    [printf] in the order of the source, and the row printed from them. *)
Definition table_row (output_words expected_words : list Z) (i : Z) : reading line :=
  (output_word ← read_word output_words expected_words OutputWords i;
   expected_word ← read_word output_words expected_words ExpectedWords i;
   expected_i ← read_word output_words expected_words ExpectedWords i;
   output_i ← read_word output_words expected_words OutputWords i;
   expected_before ← read_word output_words expected_words ExpectedWords (i - 4);
   output_i' ← read_word output_words expected_words OutputWords i;
   ret_reading
     (TableRow i output_word expected_word
        (negb <$> words_equal expected_i output_i)
        (words_equal expected_before output_i')))%reading.

(** [for (int i = 0; i < 32; i++)] over the indices [l]. *)
Fixpoint for_rows {A} (body : Z → reading A) (l : list Z) : reading (list A) :=
  match l with
  | [] => ret_reading []
  | i :: l =>
      (row ← body i;
       rows ← for_rows body l;
       ret_reading (row :: rows))%reading
  end.

(** Lines 28 to 33: the input copied into the arena. *)
Definition arena_input (data : Conv2DData) : list Z :=
  (λ i, load (input_data data) i) <$> seqZ 0 (FlatSize (input_shape data)).

(** Lines 39 to 48: the arena from [arena_output] on, after the call. *)
Definition kernel_output (ConvPerChannel : kernel) (data : Conv2DData)
    (arena_output0 : list Z) : list Z :=
  ConvPerChannel (params data) (output_multiplier data) (output_shift data)
    (input_shape data) (arena_input data) (filter_shape data) (filter_data data)
    (bias_shape data) (bias_data data) (output_shape data) arena_output0.

Definition test_conv2d (ConvPerChannel : kernel) (data : Conv2DData)
    (arena_output0 : list Z) : report :=
  let arena_output := kernel_output ConvPerChannel data arena_output0 in
  let diff_count :=
    count_diffs arena_output (output_data data) (FlatSize (output_shape data)) in
  let table :=
    if diff_count =? 0 then ret_reading []
    else (rows ← for_rows (table_row arena_output (output_data data)) (seqZ 0 32);
          ret_reading (TableHeader :: rows))%reading in
  {| printed :=
       [Testing (name data)] ++ table.1 ++
       [if diff_count =? 0 then PrintOk else PrintFail diff_count];
     word_reads := table.2 |}.

(** The number of 32-bit words of the output that differ from the expected
    word, the "per-word diff count" of the specification. *)
Definition word_diff_count (arena_output expected : list Z) (flat_size : Z) : Z :=
  Z.of_nat (length (filter
    (λ i, words_equal (word_at arena_output i) (word_at expected i) ≠ Some true)
    (seqZ 0 (flat_size / 4)))).

(** A word index is inside a buffer of bytes. *)
Definition word_in_bounds (buf : list Z) (i : Z) : Prop :=
  0 ≤ i ∧ 4 * i + 4 ≤ Z.of_nat (length buf).

End Conv2dCall.

(** ** Concrete calls *)

Section HarnessExamples.
Import Conv2dCall.

(** A test case whose expected output differs from the bias in the first two
    bytes. *)
Definition two_bytes_data : Conv2DData :=
  {| name := "two bytes of one word";
     params := {| padding_type := kValid;
                  padding_values := {| width := 0; height := 0 |};
                  stride_width := 1; stride_height := 1;
                  dilation_width_factor := 1; dilation_height_factor := 1;
                  input_offset := 0; output_offset := 0;
                  quantized_activation_min := -128;
                  quantized_activation_max := 127 |};
     output_multiplier := [0; 0; 0; 0]; output_shift := [0; 0; 0; 0];
     input_shape := [1; 4; 4; 1]; input_data := replicate 16 0;
     filter_shape := [4; 4; 4; 1]; filter_data := replicate 64 0;
     bias_shape := [4]; bias_data := [1; 2; 3; 4];
     output_shape := [1; 1; 1; 4]; output_data := [0; 0; 3; 4] |}.

(** A kernel that stores the bias, which is what the convolution of an
    all-zero input gives before rescaling. *)
Definition bias_kernel : kernel :=
  λ _ _ _ _ _ _ _ _ bias _ arena_output,
    bias ++ drop (length bias) arena_output.

End HarnessExamples.

(** The machine a run ends in. *)
Definition final {S A} (o : outcome S A) : machine S :=
  match o with
  | Done _ m => m
  | Failed _ m => m
  end.

(** The byte offsets a run stored words at, in order. *)
Definition stores_of (l : list event) : list Z :=
  omap (λ e, match e with
             | EvStoreWord p _ => Some p
             | _ => None
             end) l.

(** A gateware with a filter memory and an input memory of 16 words each:
    with an input of depth 1 a tile has 4 output channels, and with an input
    of depth 4 the filter of one output channel fills the filter memory. *)
Definition small_gateware : GatewareConstants :=
  {| MAX_FILTER_WORDS := 16; MAX_INPUT_WORDS := 16 |}.

Definition sample_params : ConvParams :=
  {| padding_type := kValid;
     padding_values := {| width := 0; height := 0 |};
     stride_width := 1; stride_height := 1;
     dilation_width_factor := 1; dilation_height_factor := 1;
     input_offset := 3; output_offset := -1;
     quantized_activation_min := -128;
     quantized_activation_max := 127 |}.

Definition sample_input (size : Z) : list Z :=
  (λ i, (i * 7) `mod` 11 - 5) <$> seqZ 0 size.

Definition sample_filter (size : Z) : list Z :=
  (λ i, (i * 5) `mod` 7 - 3) <$> seqZ 0 size.

Definition sample_multiplier (output_depth : Z) : list Z :=
  replicate (Z.to_nat output_depth) (2 ^ 30).

Definition sample_shift (output_depth : Z) : list Z :=
  replicate (Z.to_nat output_depth) 0.

(** The accelerator after reset and an output tensor of zeros. *)
Definition sample_machine (output_bytes : Z) : machine accel :=
  Machine accel_reset (replicate (Z.to_nat output_bytes) 0) [].

(** A 4x5 input of depth 1 and [output_depth] filters: two output pixels of
    [output_depth] channels. *)
Definition sample_call (output_depth : Z) (fuel : nat) : outcome accel unit :=
  ConvPerChannel4x4 (H := small_gateware)
    (H0 := spec_accelerator MultiplyByQuantizedMultiplier) fuel sample_params
    (sample_multiplier output_depth) (sample_shift output_depth)
    (input_shape4 4 5 1) (sample_input 20)
    (filter_shape4 1 output_depth) (sample_filter (16 * output_depth))
    [output_depth] (Some (seqZ 1 output_depth))
    (output_shape4 1 2 output_depth)
    (sample_machine (2 * output_depth)).

Definition sample_reference (output_depth : Z) : list Z :=
  reference_ConvPerChannel MultiplyByQuantizedMultiplier sample_params
    (sample_multiplier output_depth) (sample_shift output_depth)
    (input_shape4 4 5 1) (sample_input 20)
    (filter_shape4 1 output_depth) (sample_filter (16 * output_depth))
    (seqZ 1 output_depth) (output_shape4 1 2 output_depth).

(** A 4x4 input of depth 4 and four filters: one output pixel of four
    channels. *)
Definition deep_call (fuel : nat) : outcome accel unit :=
  ConvPerChannel4x4 (H := small_gateware)
    (H0 := spec_accelerator MultiplyByQuantizedMultiplier) fuel sample_params
    (sample_multiplier 4) (sample_shift 4)
    (input_shape4 4 4 4) (sample_input 64)
    (filter_shape4 4 4) (sample_filter 256)
    [4] (Some (seqZ 1 4))
    (output_shape4 1 1 4)
    (sample_machine 4).

(** An accelerator without state whose two queries return zero. *)
Definition silent_accelerator : Accelerator unit :=
  {| LoadInputOffset := λ _ s, s;
     SetOutputOffsets := λ _ _ _ s, s;
     LoadFilter := λ _ _ _ _ s, s;
     LoadOutputParams := λ _ _ _ _ _ s, s;
     LoadInput := λ _ _ _ _ s, s;
     AdvanceFilterInput := λ _ s, s;
     multiply_accumulate := λ s, (0, s);
     PostProcess := λ _ s, s;
     GetOutputWord := λ s, (0, s) |}.

(** The sample parameters with a dilation of 2, which the classifier
    rejects, and with a padding value of 1, which the classifier does not
    look at. *)
Definition dilated_params : ConvParams :=
  {| padding_type := kValid;
     padding_values := {| width := 0; height := 0 |};
     stride_width := 1; stride_height := 1;
     dilation_width_factor := 2; dilation_height_factor := 1;
     input_offset := 3; output_offset := -1;
     quantized_activation_min := -128;
     quantized_activation_max := 127 |}.

Definition padded_params : ConvParams :=
  {| padding_type := kValid;
     padding_values := {| width := 1; height := 0 |};
     stride_width := 1; stride_height := 1;
     dilation_width_factor := 1; dilation_height_factor := 1;
     input_offset := 3; output_offset := -1;
     quantized_activation_min := -128;
     quantized_activation_max := 127 |}.

(** The sample call with other parameters. *)
Definition sample_call_with (params : ConvParams) (fuel : nat) : outcome accel unit :=
  ConvPerChannel4x4 (H := small_gateware)
    (H0 := spec_accelerator MultiplyByQuantizedMultiplier) fuel params
    (sample_multiplier 8) (sample_shift 8)
    (input_shape4 4 5 1) (sample_input 20)
    (filter_shape4 1 8) (sample_filter (16 * 8))
    [8] (Some (seqZ 1 8))
    (output_shape4 1 2 8)
    (sample_machine (2 * 8)).

(** The sample call of output depth 8 on the silent accelerator, into a
    buffer that holds sevens. *)
Definition silent_call (fuel : nat) : outcome unit unit :=
  ConvPerChannel4x4 (H := small_gateware) (H0 := silent_accelerator) fuel
    sample_params (sample_multiplier 8) (sample_shift 8)
    (input_shape4 4 5 1) (sample_input 20)
    (filter_shape4 1 8) (sample_filter (16 * 8))
    [8] (Some (seqZ 1 8))
    (output_shape4 1 2 8)
    (Machine tt (replicate 16 7) []).

(** The sample shapes with an input of depth 0. *)
Definition empty_depth_call (fuel : nat) : outcome accel unit :=
  ConvPerChannel4x4 (H := small_gateware)
    (H0 := spec_accelerator MultiplyByQuantizedMultiplier) fuel sample_params
    (sample_multiplier 8) (sample_shift 8)
    (input_shape4 4 5 0) []
    (filter_shape4 0 8) []
    [8] (Some (seqZ 1 8))
    (output_shape4 1 2 8)
    (sample_machine (2 * 8)).

(** ** Judgements about every run *)

(** From any machine, and whether it completes or fails, [c] appends only
    events that satisfy [Q] to the trace; the value it returns when it
    completes satisfies [R]. *)
Definition emits {S A} (c : M S A) (Q : event → Prop) (R : A → Prop) : Prop :=
  ∀ m, ∃ l,
    trace (final (c m)) = trace m ++ l ∧
    Forall Q l ∧
    ∀ a m', c m = Done a m' → R a.

(** The three assertions inside the loops of [ConvPerChannel4x4]; the others
    stand before the first call of the accelerator. *)
Definition loop_check (c : dcheck) : bool :=
  match c with
  | ChkInputRows | ChkInputCols | ChkInputWords => true
  | _ => false
  end.

(** The assertions of [ConvPerChannel4x4] on the conditions that
    [CanAccelerateConv4x4] tests. *)
Definition classifier_check (c : dcheck) : bool :=
  match c with
  | ChkDilationWidth | ChkDilationHeight | ChkPaddingType | ChkBatches
  | ChkInputDepth | ChkBiasData | ChkFilterHeight | ChkFilterWidth => true
  | _ => false
  end.

(** The byte offsets of the stores among the calls of a run, in order. *)
Definition store_calls (l : list call) : list Z :=
  omap (λ c, match c with
             | CStoreWord p => Some p
             | _ => None
             end) l.

(* ================================================================= *)
(** * Part II: properties *)
(* ================================================================= *)

Lemma PaddingType_eqb_eq a b : PaddingType_eqb a b = true ↔ a = b.
Proof. destruct a, b; simpl; split; congruence. Qed.

Lemma rem4_divide (d : Z) : Z.rem d 4 = 0 ↔ (4 | d).
Proof. apply Z.rem_divide. lia. Qed.

Lemma Dims_lookup (shape : RuntimeShape) (i : nat) (d : Z) :
  shape !! i = Some d → Dims shape i = Ok d.
Proof. unfold Dims. by intros ->. Qed.

Lemma MatchingDim_same (shape1 shape2 : RuntimeShape) (i1 i2 : nat) (d : Z) :
  shape1 !! i1 = Some d → shape2 !! i2 = Some d →
  MatchingDim shape1 i1 shape2 i2 = Ok d.
Proof.
  intros H1 H2. unfold MatchingDim.
  rewrite (Dims_lookup _ _ _ H1), (Dims_lookup _ _ _ H2). simpl.
  by rewrite Z.eqb_refl, Z.min_id.
Qed.

Lemma CanAccelerateConv4x4_spec
    (params : ConvParams)
    (batches input_height input_width input_depth : Z)
    (filter_count filter_height filter_width : Z)
    (output_height output_width output_depth : Z)
    (bias_data : option (list Z)) :
  CanAccelerateConv4x4 params
    [batches; input_height; input_width; input_depth]
    [filter_count; filter_height; filter_width; input_depth]
    [batches; output_height; output_width; output_depth] bias_data =
  Ok (PaddingType_eqb (padding_type params) kValid &&
      ((input_depth =? 1) || (Z.rem input_depth 4 =? 0)) &&
      (filter_width =? 4) && (filter_height =? 4) &&
      (dilation_width_factor params =? 1) && (dilation_height_factor params =? 1) &&
      (batches =? 1) && bool_decide (bias_data ≠ None)).
Proof.
  unfold CanAccelerateConv4x4.
  by rewrite (MatchingDim_same _ _ _ _ input_depth),
    (MatchingDim_same _ _ _ _ batches) by reflexivity.
Qed.

Lemma CanAccelerateConv4x4_eligible
    (params : ConvParams)
    (batches input_height input_width input_depth : Z)
    (filter_count filter_height filter_width : Z)
    (output_height output_width output_depth : Z)
    (bias_data : option (list Z)) :
  CanAccelerateConv4x4 params
    [batches; input_height; input_width; input_depth]
    [filter_count; filter_height; filter_width; input_depth]
    [batches; output_height; output_width; output_depth] bias_data = Ok true
  ↔ padding_type params = kValid ∧
    (input_depth = 1 ∨ (4 | input_depth)) ∧
    (filter_height = 4 ∧ filter_width = 4) ∧
    (dilation_height_factor params = 1 ∧ dilation_width_factor params = 1) ∧
    batches = 1 ∧
    bias_data ≠ None.
Proof.
  rewrite CanAccelerateConv4x4_spec.
  split.
  - intros [= Hb]. revert Hb.
    rewrite !andb_true_iff, orb_true_iff.
    rewrite PaddingType_eqb_eq, !Z.eqb_eq, rem4_divide, bool_decide_eq_true.
    tauto.
  - intros Hall. f_equal.
    rewrite !andb_true_iff, orb_true_iff.
    rewrite PaddingType_eqb_eq, !Z.eqb_eq, rem4_divide, bool_decide_eq_true.
    tauto.
Qed.

(** On shapes that obey the dimension-matching contract (the input and the
    filter share the channel depth, the input and the output share the
    batch), the classifier returns. *)
Lemma CanAccelerateConv4x4_returns
    (params : ConvParams)
    (batches input_height input_width input_depth : Z)
    (filter_count filter_height filter_width : Z)
    (output_height output_width output_depth : Z)
    (bias_data : option (list Z)) :
  ∃ b,
    CanAccelerateConv4x4 params
      [batches; input_height; input_width; input_depth]
      [filter_count; filter_height; filter_width; input_depth]
      [batches; output_height; output_width; output_depth] bias_data = Ok b.
Proof. rewrite CanAccelerateConv4x4_spec. eauto. Qed.

(** C2.  For all parameters, shapes and bias pointer, the classifier returns
    [true] exactly when the padding is "valid", the channel depth (the
    matching dimension 3 of the input and the filter) is 1 or a multiple of
    4, the filter (its dimensions 1 and 2) is 4x4, both dilations are 1, the
    batch (the matching dimension 0 of the input and the output) is 1 and
    the bias is not null. *)
Theorem CanAccelerateConv4x4_true_iff
    (params : ConvParams) (input_shape filter_shape output_shape : RuntimeShape)
    (bias_data : option (list Z)) :
  CanAccelerateConv4x4 params input_shape filter_shape output_shape bias_data = Ok true
  ↔ padding_type params = kValid ∧
    (∃ input_depth,
       MatchingDim input_shape 3 filter_shape 3 = Ok input_depth ∧
       (input_depth = 1 ∨ (4 | input_depth))) ∧
    (Dims filter_shape 1 = Ok 4 ∧ Dims filter_shape 2 = Ok 4) ∧
    (dilation_height_factor params = 1 ∧ dilation_width_factor params = 1) ∧
    MatchingDim input_shape 0 output_shape 0 = Ok 1 ∧
    bias_data ≠ None.
Proof.
  unfold CanAccelerateConv4x4.
  destruct (MatchingDim input_shape 3 filter_shape 3) as [input_depth|e];
    [|split; [done|by intros (_ & (? & ? & _) & _)]].
  destruct (Dims filter_shape 1) as [filter_height|e];
    [|split; [done|by intros (_ & _ & (? & _) & _)]].
  destruct (Dims filter_shape 2) as [filter_width|e];
    [|split; [done|by intros (_ & _ & (_ & ?) & _)]].
  destruct (MatchingDim input_shape 0 output_shape 0) as [batches|e];
    [|split; [done|by intros (_ & _ & _ & _ & ? & _)]].
  cbn [rbind]. cbv zeta.
  split.
  - intros [= Hb]. revert Hb.
    rewrite !andb_true_iff, orb_true_iff.
    rewrite PaddingType_eqb_eq, !Z.eqb_eq, rem4_divide, bool_decide_eq_true.
    intros (((((((? & ?) & ?) & ?) & ?) & ?) & ?) & ?). subst.
    split; [done|]. split; [by exists input_depth|]. done.
  - intros (Hpad & (d & [= <-] & Hd) & ([= ->] & [= ->]) & (Hdh & Hdw) & [= ->] & Hbias).
    f_equal.
    rewrite !andb_true_iff, orb_true_iff.
    rewrite PaddingType_eqb_eq, !Z.eqb_eq, rem4_divide, bool_decide_eq_true.
    tauto.
Qed.

Section TileSize.
Context `{GatewareConstants}.

Lemma max_output_channels_per_load_spec (fw : Z) :
  0 < fw →
  max_output_channels_per_load fw = Ok (Z.quot (Z.quot MAX_FILTER_WORDS fw) 4 * 4).
Proof.
  intros Hfw. unfold max_output_channels_per_load, cdiv.
  destruct (Z.eqb_spec fw 0); [lia|done].
Qed.

(** C3.  For a tensor of positive depth and a positive filter capacity the
    engine's two derived quantities are [input_depth * 4 * 4 / 4] and
    [floor (floor (MAX_FILTER_WORDS / words) / 4) * 4]; the tile size is a
    multiple of 4 and the filter words of one tile fit the capacity. *)
Theorem tile_size_multiple_of_4_and_fits (input_depth : Z) :
  0 < MAX_FILTER_WORDS →
  0 < input_depth →
  let words := filter_words_per_output_channel input_depth 4 4 in
  words = input_depth * 4 * 4 / 4 ∧
  ∃ tile,
    max_output_channels_per_load words = Ok tile ∧
    tile = MAX_FILTER_WORDS / words / 4 * 4 ∧
    (4 | tile) ∧
    0 ≤ tile ∧
    words * tile ≤ MAX_FILTER_WORDS.
Proof.
  intros Hcap Hd words.
  assert (Hw : words = input_depth * 4 * 4 / 4).
  { unfold words, filter_words_per_output_channel. rewrite Z.quot_div_nonneg; lia. }
  split; [done|].
  assert (Hw4 : words = 4 * input_depth).
  { rewrite Hw. replace (input_depth * 4 * 4) with (4 * input_depth * 4) by lia.
    by rewrite Z.div_mul. }
  clearbody words. clear Hw.
  exists (MAX_FILTER_WORDS / words / 4 * 4).
  assert (0 ≤ MAX_FILTER_WORDS / words) by (apply Z.div_pos; lia).
  split.
  { rewrite max_output_channels_per_load_spec by lia.
    rewrite (Z.quot_div_nonneg MAX_FILTER_WORDS words) by lia.
    by rewrite Z.quot_div_nonneg by lia. }
  split; [done|].
  split; [apply Z.divide_factor_r|].
  assert (0 ≤ MAX_FILTER_WORDS / words / 4) by (apply Z.div_pos; lia).
  split; [lia|].
  assert (MAX_FILTER_WORDS / words / 4 * 4 ≤ MAX_FILTER_WORDS / words).
  { rewrite Z.mul_comm. apply Z.mul_div_le. lia. }
  assert (words * (MAX_FILTER_WORDS / words) ≤ MAX_FILTER_WORDS).
  { apply Z.mul_div_le. lia. }
  nia.
Qed.
End TileSize.

(** ** The harness *)

Section HarnessProperties.
Import Conv2dCall.

Lemma count_diffs_fold (same : Z → bool) (l : list Z) (a : Z) :
  fold_left (λ d i, if same i then d else d + 1) l a =
  a + Z.of_nat (length (filter (λ i, same i ≠ true) l)).
Proof.
  revert a. induction l as [|i l IH]; intros a; simpl; [lia|].
  rewrite IH, filter_cons.
  destruct (decide (same i ≠ true)) as [Hne|He]; destruct (same i) eqn:Hs;
    simpl; try congruence; try lia.
Qed.

Lemma count_diffs_count (out expected : list Z) (n : Z) :
  count_diffs out expected n =
  Z.of_nat (length (filter (λ i, load out i ≠ to_int8 (load expected i)) (seqZ 0 n))).
Proof.
  unfold count_diffs.
  rewrite (count_diffs_fold (λ i, load out i =? to_int8 (load expected i))).
  rewrite Z.add_0_l. f_equal. f_equal. apply list_filter_iff. intros i.
  rewrite <- Z.eqb_eq. done.
Qed.

Lemma filter_nil_Forall {A} (P : A → Prop) `{∀ x, Decision (P x)} (l : list A) :
  Forall (λ x, ¬ P x) l → filter P l = [].
Proof.
  induction 1 as [|x l Hx _ IH]; [done|].
  rewrite filter_cons. by destruct (decide (P x)).
Qed.

Lemma count_diffs_zero (out expected : list Z) (n : Z) :
  count_diffs out expected n = 0 ↔
  ∀ i, 0 ≤ i < n → load out i = to_int8 (load expected i).
Proof.
  rewrite count_diffs_count.
  rewrite <- Nat2Z.inj_0, Nat2Z.inj_iff, length_zero_iff_nil.
  split.
  - intros Hnil i Hi.
    destruct (decide (load out i = to_int8 (load expected i))) as [|Hne]; [done|].
    exfalso. eapply filter_nil_not_elem_of; [exact Hnil|exact Hne|].
    apply elem_of_seqZ. lia.
  - intros Hall. apply filter_nil_Forall, Forall_seqZ.
    intros i Hi Hne. apply Hne, Hall. lia.
Qed.

Lemma test_conv2d_identical (K : kernel) (data : Conv2DData) (arena0 : list Z) :
  count_diffs (kernel_output K data arena0) (output_data data)
    (FlatSize (output_shape data)) = 0 →
  test_conv2d K data arena0 =
    {| printed := [Testing (name data); PrintOk]; word_reads := [] |}.
Proof. intros Hz. unfold test_conv2d. rewrite Hz. reflexivity. Qed.

Lemma for_rows_values {A} (body : Z → reading A) (l : list Z) :
  (for_rows body l).1 = (λ i, (body i).1) <$> l.
Proof. induction l as [|i l IH]; [done|]. cbn. by rewrite IH. Qed.

Lemma for_rows_reads {A} (body : Z → reading A) (l : list Z) :
  (for_rows body l).2 = l ≫= λ i, (body i).2.
Proof.
  induction l as [|i l IH]; [done|]. cbn. by rewrite IH, app_nil_r.
Qed.

Lemma test_conv2d_differs (K : kernel) (data : Conv2DData) (arena0 : list Z) :
  let out := kernel_output K data arena0 in
  let diff_count := count_diffs out (output_data data) (FlatSize (output_shape data)) in
  diff_count ≠ 0 →
  test_conv2d K data arena0 =
    {| printed :=
         Testing (name data) :: TableHeader ::
         ((λ i, (table_row out (output_data data) i).1) <$> seqZ 0 32)
         ++ [PrintFail diff_count];
       word_reads := seqZ 0 32 ≫= λ i, (table_row out (output_data data) i).2 |}.
Proof.
  intros out diff_count Hnz. unfold test_conv2d. fold out. fold diff_count.
  destruct (Z.eqb_spec diff_count 0) as [|_]; [done|].
  unfold bind_reading. cbn [fst snd ret_reading].
  by rewrite for_rows_values, for_rows_reads, app_nil_r.
Qed.

(** C8, as amended.  The count the harness reports is the number of bytes
    (not words) of the output tensor that differ from the expected byte; it
    prints OK exactly when that count is zero, which is exactly when every
    byte of the produced output equals the expected byte; otherwise it
    prints FAIL with the count. *)
Theorem test_conv2d_ok_iff_every_byte_equal
    (ConvPerChannel : kernel) (data : Conv2DData) (arena_output0 : list Z) :
  let arena_output := kernel_output ConvPerChannel data arena_output0 in
  let expected := output_data data in
  let flat_size := FlatSize (output_shape data) in
  let diff_count := count_diffs arena_output expected flat_size in
  let report := test_conv2d ConvPerChannel data arena_output0 in
  diff_count =
    Z.of_nat (length (filter
      (λ i, load arena_output i ≠ to_int8 (load expected i)) (seqZ 0 flat_size))) ∧
  (PrintOk ∈ printed report ↔ diff_count = 0) ∧
  (diff_count = 0 ↔
     ∀ i, 0 ≤ i < flat_size → load arena_output i = to_int8 (load expected i)) ∧
  (PrintFail diff_count ∈ printed report ↔ diff_count ≠ 0).
Proof.
  intros arena_output expected flat_size diff_count report.
  split; [apply count_diffs_count|].
  split; [|split; [apply count_diffs_zero|]].
  - destruct (decide (diff_count = 0)) as [Hz|Hnz].
    + unfold report. rewrite test_conv2d_identical by done.
      split; [done|]. intros _. cbn [printed]. rewrite !elem_of_cons. auto.
    + unfold report. rewrite test_conv2d_differs by done. cbn [printed word_reads].
      split; [|done].
      rewrite !elem_of_cons, elem_of_app, list_elem_of_fmap, list_elem_of_singleton.
      intros [|[|[(? & ? & ?)|]]]; done.
  - destruct (decide (diff_count = 0)) as [Hz|Hnz].
    + unfold report. rewrite test_conv2d_identical by done. cbn [printed word_reads].
      split; [|done]. rewrite !elem_of_cons, elem_of_nil. intros [|[|]]; done.
    + unfold report. rewrite test_conv2d_differs by done. cbn [printed word_reads].
      split; [done|]. intros _.
      rewrite !elem_of_cons, elem_of_app, list_elem_of_singleton. auto.
Qed.

(** C8 does not hold as the specification states it: an output that
    differs from the expected one in two bytes of the same word is reported
    with the count 2, while one word differs. *)
Lemma test_conv2d_count_is_not_per_word :
  let out := kernel_output bias_kernel two_bytes_data (replicate 128 0) in
  last (printed (test_conv2d bias_kernel two_bytes_data (replicate 128 0))) =
    Some (PrintFail 2) ∧
  word_diff_count out (output_data two_bytes_data)
    (FlatSize (output_shape two_bytes_data)) = 1.
Proof.
  split; vm_compute; reflexivity.
Qed.

Lemma word_at_negative (buf : list Z) (i : Z) : i < 0 → word_at buf i = None.
Proof.
  intros Hi. unfold word_at, read.
  destruct (Z.leb_spec 0 (4 * i)); [lia|done].
Qed.

(** C9.  When the output differs from the expected one, the table loop runs
    [i] from 0 to 31 and iteration [i] reads [expected_words[i - 4]] to
    compare it with [output_words[i]].  In each of the first four
    iterations the index [i - 4] is negative, a read of [expected_words]
    outside the buffer: the row printed has the two words of index [i] and
    their comparison, and a comparison with [expected_words[i - 4]] that no
    word of the buffer decides. *)
Theorem diff_table_reads_expected_words_out_of_bounds
    (ConvPerChannel : kernel) (data : Conv2DData) (arena_output0 : list Z) :
  let arena_output := kernel_output ConvPerChannel data arena_output0 in
  let expected := output_data data in
  let report := test_conv2d ConvPerChannel data arena_output0 in
  count_diffs arena_output expected (FlatSize (output_shape data)) ≠ 0 →
  word_reads report = seqZ 0 32 ≫= (λ i, (table_row arena_output expected i).2) ∧
  ∀ i, 0 ≤ i < 4 →
    (table_row arena_output expected i).1 ∈ printed report ∧
    (table_row arena_output expected i).1 =
      TableRow i (word_at arena_output i) (word_at expected i)
        (negb <$> words_equal (word_at expected i) (word_at arena_output i))
        None ∧
    read_word arena_output expected ExpectedWords (i - 4)
      = (None, [WordRead ExpectedWords (i - 4)]) ∧
    WordRead ExpectedWords (i - 4) ∈ (table_row arena_output expected i).2 ∧
    WordRead ExpectedWords (i - 4) ∈ word_reads report ∧
    i - 4 < 0 ∧
    ¬ word_in_bounds expected (i - 4) ∧
    word_at expected (i - 4) = None.
Proof.
  intros arena_output expected report Hdiff.
  unfold report. rewrite test_conv2d_differs by done. cbn [printed word_reads].
  split; [done|]. intros i Hi.
  assert (Hnone : word_at expected (i - 4) = None)
    by (apply word_at_negative; lia).
  assert (Hrow : WordRead ExpectedWords (i - 4)
                 ∈ (table_row arena_output expected i).2).
  { cbn. rewrite !elem_of_cons. auto 10. }
  split; [|split; [|split; [|split; [done|split; [|split; [lia|split]]]]]].
  - rewrite !elem_of_cons, elem_of_app, list_elem_of_fmap.
    right. right. left. exists i. split; [done|]. apply elem_of_seqZ. lia.
  - unfold table_row, bind_reading, read_word. cbn [fst snd ret_reading].
    by rewrite Hnone.
  - unfold read_word. by rewrite Hnone.
  - apply list_elem_of_bind. exists i. split; [done|]. apply elem_of_seqZ. lia.
  - unfold word_in_bounds. lia.
  - done.
Qed.

End HarnessProperties.

(** ** Call sequences of completed runs *)

Lemma values_passed_on_app (l1 l2 : list event) :
  values_passed_on l1 = true → values_passed_on l2 = true →
  values_passed_on (l1 ++ l2) = true.
Proof.
  intros H1 H2. induction l1 as [|e l1 IH]; [done|].
  destruct e; simpl in *; try (by apply IH).
  - destruct l1 as [|[] l1]; try discriminate. simpl in *.
    apply andb_prop in H1 as [-> H1]. by apply IH.
  - destruct l1 as [|[] l1]; try discriminate. simpl in *.
    apply andb_prop in H1 as [-> H1]. by apply IH.
Qed.

Section CallSequence.
Context {S : Type}.

Lemma runs_as_ret {A} (a : A) : runs_as (S := S) (ret a) a [].
Proof.
  intros m a' m' [= <- <-]. split; [done|]. exists []. by rewrite app_nil_r.
Qed.

Lemma runs_as_bind {A B} (c : M S A) (k : A → M S B) a b cs1 cs2 :
  runs_as c a cs1 → runs_as (k a) b cs2 → runs_as (bind c k) b (cs1 ++ cs2).
Proof.
  intros Hc Hk m b' m''. unfold bind.
  destruct (c m) as [a' m'|] eqn:Hcm; [|done]. intros Hkm.
  apply Hc in Hcm as (-> & l1 & Ht1 & Hv1 & <-).
  apply Hk in Hkm as (-> & l2 & Ht2 & Hv2 & <-).
  split; [done|]. exists (l1 ++ l2).
  rewrite Ht2, Ht1, app_assoc, fmap_app. auto using values_passed_on_app.
Qed.

Lemma runs_as_DCHECK {B} c b (k : M S B) r cs :
  (b = true → runs_as k r cs) → runs_as (bind (DCHECK c b) (λ _, k)) r cs.
Proof.
  intros Hk m r' m'. unfold bind, DCHECK. destruct b; [|done]. by apply Hk.
Qed.

Lemma runs_as_lift {A B} (x : result A) (k : A → M S B) r cs :
  (∀ a, x = Ok a → runs_as (k a) r cs) → runs_as (bind (lift x) k) r cs.
Proof.
  intros Hk m r' m'. unfold bind, lift. destruct x; [|done]. by apply Hk.
Qed.

Lemma runs_as_command (e : event) (f : S → S) :
  match e with EvMultiplyAccumulate _ | EvGetOutputWord _ => False | _ => True end →
  runs_as (command e f) tt [call_of e].
Proof.
  intros He m a' m' [= <- <-]. split; [done|]. exists [e]. by destruct e.
Qed.

Lemma runs_as_read_back (f : S → Z * S) (g : Z → S → S) :
  runs_as (bind (query EvMultiplyAccumulate f)
             (λ acc, command (EvPostProcess acc) (g acc)))
    tt [CMultiplyAccumulate; CPostProcess].
Proof.
  intros m a' m' [= <- <-]. split; [done|]. simpl.
  eexists [_; _]. rewrite <- app_assoc. split; [done|]. simpl.
  by rewrite Z.eqb_refl.
Qed.

Lemma runs_as_pop_store (f : S → Z * S) (p : Z) :
  runs_as (bind (query EvGetOutputWord f)
             (λ w, bind (store32 p w) (λ _, ret (p + 4))))
    (p + 4) [CGetOutputWord; CStoreWord p].
Proof.
  intros m a' m'. unfold bind, query, store32, ret. cbn [output_data].
  destruct (_ && _); [|done]. intros [= <- <-]. split; [done|]. simpl.
  eexists [_; _]. rewrite <- app_assoc. split; [done|]. simpl.
  by rewrite Z.eqb_refl.
Qed.

Lemma runs_as_for_count {A} (body : Z → A → M S A) (accf : nat → A)
    (block : nat → list call) (n : nat) (i step : Z) :
  (∀ k, (k < n)%nat →
     runs_as (body (i + Z.of_nat k * step) (accf k)) (accf (Datatypes.S k)) (block k)) →
  runs_as (for_count n i step body (accf 0%nat)) (accf n) (k ← seq 0 n; block k).
Proof.
  revert i accf block.
  induction n as [|n IH]; intros i accf block Hbody; [apply runs_as_ret|].
  cbn [for_count seq]. rewrite bind_cons.
  eapply runs_as_bind.
  - specialize (Hbody 0%nat ltac:(lia)).
    by replace (i + Z.of_nat 0 * step) with i in Hbody by lia.
  - rewrite <- fmap_S_seq, list_fmap_bind.
    apply (IH (i + step) (λ k, accf (Datatypes.S k)) (λ k, block (Datatypes.S k))).
    intros k Hk. specialize (Hbody (Datatypes.S k) ltac:(lia)).
    by replace (i + step + Z.of_nat k * step)
      with (i + Z.of_nat (Datatypes.S k) * step) by lia.
Qed.

Lemma bind_seqZ {B} (lo len : Z) (f : Z → list B) :
  (i ← seqZ lo len; f i) = (k ← seq 0 (Z.to_nat len); f (lo + Z.of_nat k)).
Proof.
  unfold seqZ. rewrite list_fmap_bind. apply list_bind_ext; [|done].
  intros k. simpl. f_equal. lia.
Qed.

Lemma runs_as_for_range {A} (body : Z → A → M S A) (accf : Z → A)
    (block : Z → list call) (lo hi : Z) :
  lo ≤ hi →
  (∀ i, lo ≤ i < hi → runs_as (body i (accf i)) (accf (i + 1)) (block i)) →
  runs_as (for_range lo hi body (accf lo)) (accf hi)
    (i ← seqZ lo (hi - lo); block i).
Proof.
  intros Hle Hbody. unfold for_range. rewrite bind_seqZ.
  pose proof (runs_as_for_count body (λ k, accf (lo + Z.of_nat k))
                (λ k, block (lo + Z.of_nat k)) (Z.to_nat (hi - lo)) lo 1) as Hloop.
  cbn beta in Hloop.
  replace (lo + Z.of_nat 0) with lo in Hloop by lia.
  replace (lo + Z.of_nat (Z.to_nat (hi - lo))) with hi in Hloop by lia.
  apply Hloop. intros k Hk.
  replace (lo + Z.of_nat k * 1) with (lo + Z.of_nat k) by lia.
  replace (lo + Z.of_nat (Datatypes.S k)) with (lo + Z.of_nat k + 1) by lia.
  apply Hbody. lia.
Qed.

Lemma runs_as_for_fuel (body : Z → M S unit) (block : Z → list call)
    (hi step : Z) :
  (∀ i, i < hi → runs_as (body i) tt (block i)) →
  ∀ fuel i m m',
    for_fuel fuel i hi step body m = Done tt m' →
    ∃ k : nat,
      hi ≤ i + Z.of_nat k * step ∧
      (∀ j, (j < k)%nat → i + Z.of_nat j * step < hi) ∧
      ∃ l, trace m' = trace m ++ l ∧ values_passed_on l = true ∧
           call_of <$> l = (j ← seq 0 k; block (i + Z.of_nat j * step)).
Proof.
  intros Hbody. induction fuel as [|fuel IH]; intros i m m'; [done|].
  cbn [for_fuel]. destruct (Z.ltb_spec i hi) as [Hlt|Hge].
  - unfold bind. destruct (body i m) as [[] m1|] eqn:Hb; [|done].
    intros Hrest. apply Hbody in Hb as (_ & l1 & Ht1 & Hv1 & Hc1); [|done].
    apply IH in Hrest as (k & Hend & Hin & l2 & Ht2 & Hv2 & Hc2).
    exists (Datatypes.S k). split; [lia|]. split.
    { intros [|j] Hj; [lia|]. specialize (Hin j ltac:(lia)). lia. }
    exists (l1 ++ l2). rewrite Ht2, Ht1, app_assoc, fmap_app, Hc1, Hc2.
    split; [done|]. split; [auto using values_passed_on_app|].
    cbn [seq]. rewrite bind_cons, <- fmap_S_seq, list_fmap_bind.
    f_equal; [f_equal; lia|]. apply list_bind_ext; [|done].
    intros j. simpl. f_equal. lia.
  - intros [= <-]. exists 0%nat. split; [lia|]. split; [lia|].
    exists []. by rewrite app_nil_r.
Qed.

Lemma bind_DCHECK_Done {B} c b (k : unit → M S B) m r m' :
  bind (DCHECK c b) k m = Done r m' → b = true ∧ k tt m = Done r m'.
Proof. unfold bind, DCHECK. by destruct b. Qed.

Lemma bind_lift_Done {A B} (x : result A) (k : A → M S B) m r m' :
  bind (lift x) k m = Done r m' → ∃ a, x = Ok a ∧ k a m = Done r m'.
Proof. unfold bind, lift. destruct x; [eauto|done]. Qed.

Lemma bind_DCHECK_ptr_Done {A B} c (p : option A) (k : A → M S B) m r m' :
  bind (DCHECK_ptr c p) k m = Done r m' → ∃ a, p = Some a ∧ k a m = Done r m'.
Proof. unfold bind, DCHECK_ptr. destruct p; [eauto|done]. Qed.

Lemma bind_command_Done {B} e f (k : unit → M S B) m r m' :
  bind (command e f) k m = Done r m' →
  k tt (Machine (f (cfu m)) (output_data m) (trace m ++ [e])) = Done r m'.
Proof. done. Qed.

End CallSequence.

Ltac invert_done H :=
  repeat first
    [ apply bind_DCHECK_Done in H as [? H]
    | apply bind_command_Done in H
    | let x := fresh "x" in
      let Hx := fresh "Hx" in
      apply bind_DCHECK_ptr_Done in H as (x & Hx & H)
    | let x := fresh "x" in
      let Hx := fresh "Hx" in
      apply bind_lift_Done in H as (x & Hx & H);
      first [ erewrite MatchingDim_same in Hx by reflexivity
            | erewrite Dims_lookup in Hx by reflexivity
            | idtac ];
      try (injection Hx as <-) ].

(** ** Runs that complete *)

Section CompletesRules.
Context {S : Type}.

Lemma completes_ret {A} (a : A) : completes (S := S) (ret a).
Proof. intros m. by eexists _, _. Qed.

Lemma completes_bind {A B} (c : M S A) (k : A → M S B) :
  completes c → (∀ a, completes (k a)) → completes (bind c k).
Proof.
  intros Hc Hk m. unfold bind. destruct (Hc m) as (a & m1 & ->). apply Hk.
Qed.

Lemma completes_DCHECK c b : b = true → completes (S := S) (DCHECK c b).
Proof. intros -> m. by eexists _, _. Qed.

Lemma completes_command ev (f : S → S) : completes (command ev f).
Proof. intros m. by eexists _, _. Qed.

Lemma completes_for_count {A} (body : Z → A → M S A) (n : nat) (i step : Z) (a : A) :
  (∀ k a, (k < n)%nat → completes (body (i + Z.of_nat k * step) a)) →
  completes (for_count n i step body a).
Proof.
  revert i a. induction n as [|n IH]; intros i a Hbody; [apply completes_ret|].
  cbn [for_count]. apply completes_bind.
  - specialize (Hbody 0%nat a ltac:(lia)).
    by replace (i + Z.of_nat 0 * step) with i in Hbody by lia.
  - intros a'. apply IH. intros k a'' Hk.
    specialize (Hbody (Datatypes.S k) a'' ltac:(lia)).
    by replace (i + step + Z.of_nat k * step)
      with (i + Z.of_nat (Datatypes.S k) * step) by lia.
Qed.

Lemma completes_for_range {A} (body : Z → A → M S A) (lo hi : Z) (a : A) :
  (∀ i a, lo ≤ i < hi → completes (body i a)) →
  completes (for_range lo hi body a).
Proof.
  intros Hbody. apply completes_for_count. intros k a' Hk. apply Hbody. lia.
Qed.

Lemma completes_query ev (f : S → Z * S) : completes (query ev f).
Proof. intros m. by eexists _, _. Qed.

End CompletesRules.

Section EngineCallSequence.
Context `{GatewareConstants} {S : Type} `{Accelerator S}.
Variable params : ConvParams.
Variables input_height input_width input_depth : Z.
Variables output_height output_width output_depth : Z.
Variables (input_data filter_data output_multiplier output_shift : list Z).

Local Abbreviation input_shape := (input_shape4 input_height input_width input_depth).
Local Abbreviation filter_shape := (filter_shape4 input_depth output_depth).
Local Abbreviation output_shape := (output_shape4 output_height output_width output_depth).
Local Abbreviation base_at := (pixel_base output_height output_width output_depth).

Lemma compute_pixel_calls (out_channel_offset output_channels : Z) :
  runs_as (compute_pixel input_depth 4 4 out_channel_offset output_channels)
    tt (compute_calls input_depth output_channels).
Proof.
  unfold compute_pixel, for_range, compute_calls. rewrite bind_seqZ.
  replace (out_channel_offset + output_channels - out_channel_offset)
    with output_channels by lia.
  apply (runs_as_for_count _ (λ _, tt) (λ _, channel_calls input_depth)).
  intros k _. unfold channel_calls.
  apply (runs_as_bind _ _ tt tt [_] [_; _]).
  - by apply runs_as_command.
  - apply runs_as_read_back.
Qed.

Lemma drain_pixel_calls (output_channels output_data32_base : Z) :
  runs_as (drain_pixel output_channels output_data32_base)
    tt (drain_calls output_channels output_data32_base).
Proof.
  unfold drain_pixel, for_words, drain_calls. rewrite bind_seqZ.
  rewrite <- (app_nil_r (_ ≫= _)).
  eapply runs_as_bind; [|apply runs_as_ret].
  replace output_data32_base with (output_data32_base + 4 * Z.of_nat 0) at 1 by lia.
  apply (runs_as_for_count _ (λ k, output_data32_base + 4 * Z.of_nat k)
           (λ k, [CGetOutputWord; CStoreWord (output_data32_base + 4 * (0 + Z.of_nat k))])).
  intros k _.
  replace (output_data32_base + 4 * Z.of_nat (Datatypes.S k))
    with (output_data32_base + 4 * Z.of_nat k + 4) by lia.
  replace (output_data32_base + 4 * (0 + Z.of_nat k))
    with (output_data32_base + 4 * Z.of_nat k) by lia.
  apply runs_as_pop_store.
Qed.

Lemma process_pixel_calls (out_channel_offset output_channels : Z)
    (out_y out_x output_data32_base : Z) :
  runs_as
    (process_pixel (stride_width params) input_shape input_data
       input_width input_depth 4 4 output_depth out_channel_offset output_channels
       (out_y * stride_height params) out_x output_data32_base)
    (output_data32_base + 4 * Z.quot output_depth 4)
    (pixel_calls params input_height input_width input_depth
       (λ _ _, drain_calls output_channels output_data32_base)
       output_channels out_y out_x).
Proof.
  unfold process_pixel, pixel_calls.
  apply runs_as_DCHECK; intros _. apply runs_as_DCHECK; intros _.
  apply (runs_as_bind _ _ tt _ [_]); [by apply runs_as_command|].
  eapply runs_as_bind; [apply compute_pixel_calls|].
  rewrite <- (app_nil_r (drain_calls _ _)).
  eapply runs_as_bind; [apply drain_pixel_calls|apply runs_as_ret].
Qed.

Lemma process_row_calls (out_channel_offset output_channels : Z)
    (out_y : Z) :
  0 ≤ output_width →
  runs_as
    (process_row (stride_width params) (stride_height params) input_shape input_data
       input_height input_width input_depth 4 4 output_width output_depth
       out_channel_offset output_channels out_y
       (base_at out_channel_offset out_y 0))
    (base_at out_channel_offset (out_y + 1) 0)
    (out_x ← seqZ 0 output_width;
     pixel_calls params input_height input_width input_depth
       (source_drain output_height output_width output_depth
          out_channel_offset output_channels)
       output_channels out_y out_x).
Proof.
  intros Hw. unfold process_row. apply runs_as_DCHECK; intros _.
  replace (base_at out_channel_offset (out_y + 1) 0)
    with (base_at out_channel_offset out_y output_width)
    by (unfold pixel_base; lia).
  replace (seqZ 0 output_width) with (seqZ 0 (output_width - 0)) by (f_equal; lia).
  apply (runs_as_for_range _ (λ x, base_at out_channel_offset out_y x)
           (λ x, pixel_calls params input_height input_width input_depth
                   (source_drain output_height output_width output_depth
                      out_channel_offset output_channels)
                   output_channels out_y x)); [done|].
  intros x Hx.
  replace (base_at out_channel_offset out_y (x + 1))
    with (base_at out_channel_offset out_y x + 4 * Z.quot output_depth 4)
    by (unfold pixel_base; lia).
  apply process_pixel_calls.
Qed.

Lemma process_tile_calls (bias_data : list Z)
    (max_output_channels_per_load out_channel_offset : Z) :
  0 ≤ output_height → 0 ≤ output_width →
  runs_as
    (process_tile (stride_width params) (stride_height params)
       output_multiplier output_shift input_shape input_data
       filter_shape filter_data bias_data output_shape
       input_height input_width input_depth 4 4
       output_height output_width output_depth max_output_channels_per_load
       out_channel_offset)
    tt
    (tile_calls params input_height input_width input_depth
       output_height output_width output_depth max_output_channels_per_load
       (source_drain output_height output_width output_depth)
       out_channel_offset).
Proof.
  intros Hh Hw. unfold process_tile, tile_calls.
  apply (runs_as_bind _ _ tt _ [_]); [by apply runs_as_command|].
  apply (runs_as_bind _ _ tt _ [_]); [by apply runs_as_command|].
  rewrite <- (app_nil_r (_ ≫= _)).
  eapply runs_as_bind; [|apply runs_as_ret].
  replace (seqZ 0 output_height) with (seqZ 0 (output_height - 0)) by (f_equal; lia).
  replace (Offset output_shape 0 0 0 out_channel_offset)
    with (base_at out_channel_offset 0 0)
    by (unfold pixel_base; lia).
  apply (runs_as_for_range _ (λ y, base_at out_channel_offset y 0)); [done|].
  intros y Hy. by apply process_row_calls.
Qed.

Lemma tile_offsets_of_count (max_output_channels_per_load : Z) (k : nat)
    {B} (block : Z → list B) :
  output_depth ≤ 0 + Z.of_nat k * max_output_channels_per_load →
  (∀ j, (j < k)%nat → 0 + Z.of_nat j * max_output_channels_per_load < output_depth) →
  (j ← seq 0 k; block (0 + Z.of_nat j * max_output_channels_per_load)) =
  (off ← tile_offsets output_depth max_output_channels_per_load; block off).
Proof.
  intros Hend Hin. unfold tile_offsets. rewrite list_fmap_bind.
  assert (Hk : tile_count output_depth max_output_channels_per_load ≤ 0 ∧ k = 0%nat ∨
               tile_count output_depth max_output_channels_per_load = Z.of_nat k).
  { unfold tile_count. destruct k as [|k].
    - left. split; [|done]. destruct (Z.ltb_spec 0 max_output_channels_per_load); [|done].
      apply Z.lt_succ_r. apply Z.div_lt_upper_bound; lia.
    - right. pose proof (Hin k ltac:(lia)).
      assert (0 < max_output_channels_per_load) by nia.
      destruct (Z.ltb_spec 0 max_output_channels_per_load); [|lia].
      symmetry. apply Z.div_unique with
        (output_depth + max_output_channels_per_load - 1
         - max_output_channels_per_load * Z.of_nat (Datatypes.S k)); nia. }
  destruct Hk as [[Hle ->]|Hk].
  - by rewrite seqZ_nil.
  - rewrite Hk, bind_seqZ, Nat2Z.id. apply list_bind_ext; [|done].
    intros j; simpl; f_equal; lia.
Qed.

(** Every completed call makes the calls of [engine_calls], with the drain
    of the source, and passes the returned values on. *)
Lemma ConvPerChannel4x4_calls (fuel : nat) (bias_shape : RuntimeShape)
    (bias : option (list Z)) (m m' : machine S) :
  0 ≤ output_height → 0 ≤ output_width →
  ConvPerChannel4x4 fuel params output_multiplier output_shift
    input_shape input_data filter_shape filter_data bias_shape bias
    output_shape m = Done tt m' →
  ∃ tile l,
    max_output_channels_per_load (filter_words_per_output_channel input_depth 4 4)
      = Ok tile ∧
    trace m' = trace m ++ l ∧
    values_passed_on l = true ∧
    call_of <$> l =
      engine_calls params input_height input_width input_depth
        output_height output_width output_depth tile
        (source_drain output_height output_width output_depth) ∧
    (0 < output_depth → 0 < tile).
Proof.
  intros Hh Hw Hrun. unfold ConvPerChannel4x4 in Hrun. cbv zeta in Hrun.
  invert_done Hrun. subst bias.
  match goal with
  | Hmax : max_output_channels_per_load _ = Ok ?t |- _ => exists t
  end.
  eapply runs_as_for_fuel in Hrun as (k & Hend & Hin & l & Ht & Hv & Hc);
    [|intros off _; by apply process_tile_calls].
  cbn [trace] in Ht.
  eexists (_ :: _ :: l). split; [done|]. split.
  { rewrite Ht, <- !app_assoc. done. }
  split; [done|]. split.
  - unfold engine_calls. cbn [fmap list_fmap call_of]. do 2 f_equal.
    change (list_fmap event call call_of l) with (call_of <$> l).
    rewrite Hc. by apply tile_offsets_of_count.
  - intros Hd. destruct k as [|k]; [lia|].
    pose proof (Hin k ltac:(lia)). nia.
Qed.

(** C7.  In every call that completes, the calls of the accelerator are
    these, in this order: the two offsets; then for every tile the filter
    and the output parameters; then for every output pixel of the tile the
    input window, and for every output channel of the tile one
    [AdvanceFilterInput] of [4 * 4 * input_depth / 16] steps, one
    [multiply_accumulate] and one [PostProcess] of the accumulator just
    read back; then the drain.  The channel loop of a pixel, on any
    accelerator and from any state, completes with exactly these three calls
    for each channel.  On the accelerator of the specification one
    [PostProcess] pushes one 8-bit result. *)
Theorem channel_protocol_of_every_pixel (fuel : nat) (bias_shape : RuntimeShape)
    (bias : option (list Z)) (m m' : machine S) :
  0 ≤ output_height → 0 ≤ output_width →
  ConvPerChannel4x4 fuel params output_multiplier output_shift
    input_shape input_data filter_shape filter_data bias_shape bias
    output_shape m = Done tt m' →
  (∃ tile l,
    max_output_channels_per_load (filter_words_per_output_channel input_depth 4 4)
      = Ok tile ∧
    trace m' = trace m ++ l ∧
    values_passed_on l = true ∧
    call_of <$> l =
      CLoadInputOffset (input_offset params) ::
      CSetOutputOffsets (output_offset params) (quantized_activation_min params)
        (quantized_activation_max params) ::
      (out_channel_offset ← tile_offsets output_depth tile;
       let output_channels := Z.min (output_depth - out_channel_offset) tile in
       CLoadFilter input_depth output_channels
         (Offset filter_shape out_channel_offset 0 0 0) ::
       CLoadOutputParams out_channel_offset output_channels ::
       (out_y ← seqZ 0 output_height;
        out_x ← seqZ 0 output_width;
        CLoadInput input_width input_depth
          (Offset input_shape 0 (out_y * stride_height params)
             (out_x * stride_width params) 0) ::
        (out_channel ← seqZ out_channel_offset output_channels;
         [CAdvanceFilterInput (Z.quot (4 * 4 * input_depth) 16);
          CMultiplyAccumulate; CPostProcess]) ++
        drain_calls output_channels (base_at out_channel_offset out_y out_x)))) ∧
  (∀ out_channel_offset output_channels (m0 : machine S),
     ∃ m1 l,
       compute_pixel input_depth 4 4 out_channel_offset output_channels m0
         = Done tt m1 ∧
       trace m1 = trace m0 ++ l ∧
       values_passed_on l = true ∧
       call_of <$> l =
         (out_channel ← seqZ out_channel_offset output_channels;
          [CAdvanceFilterInput (Z.quot (4 * 4 * input_depth) 16);
           CMultiplyAccumulate; CPostProcess])) ∧
  (∀ rescale acc a,
     ∃ result, -128 ≤ result ≤ 127 ∧
       output_queue (spec_PostProcess rescale acc a) = output_queue a ++ [result]).
Proof.
  intros Hh Hw Hrun. split; [|split].
  - apply ConvPerChannel4x4_calls in Hrun as (tile & l & Htile & Ht & Hv & Hc & _);
      [|done..].
    exists tile, l. repeat (split; [done|]). rewrite Hc.
    unfold engine_calls, tile_calls, pixel_calls, source_drain, tile_width,
      compute_calls, channel_calls.
    do 2 f_equal. apply list_bind_ext; [|done]. intros off. cbv zeta.
    do 2 f_equal. apply list_bind_ext; [|done]. intros y.
    apply list_bind_ext; [|done]. intros x. do 2 f_equal.
    by rewrite !bind_seqZ.
  - intros off n m0.
    assert (Hc : completes (S := S) (compute_pixel input_depth 4 4 off n)).
    { unfold compute_pixel. apply completes_for_range. intros i [] _.
      apply completes_bind; [apply completes_command|intros _].
      apply completes_bind; [apply completes_query|intros acc].
      apply completes_command. }
    destruct (Hc m0) as ([] & m1 & Hrun1).
    destruct (compute_pixel_calls off n m0 tt m1 Hrun1) as (_ & l & Ht & Hv & Hcs).
    exists m1, l. repeat (split; [done|]).
    rewrite Hcs. unfold compute_calls, channel_calls. by rewrite !bind_seqZ.
  - intros rescale acc a. unfold spec_PostProcess.
    destruct (default _ _) as [[bias' multiplier] shift]. cbn [output_queue].
    eexists. split; [|done]. unfold requantize, to_int8, wrap_signed.
    change (2 ^ (8 - 1)) with 128. change (2 ^ 8) with 256.
    match goal with |- context [ ?x `mod` 256 ] =>
      pose proof (Z.mod_pos_bound x 256 ltac:(lia)) end.
    lia.
Qed.

Lemma bind_nil_all {A B} (l : list A) (f : A → list B) :
  (∀ x, f x = []) → l ≫= f = [].
Proof. intros Hf. induction l as [|x l IH]; [done|]. by rewrite bind_cons, Hf, IH. Qed.

Lemma bind_singleton_fmap {A B} (l : list A) (g : A → B) :
  (x ← l; [g x]) = g <$> l.
Proof. induction l as [|x l IH]; [done|]. by rewrite bind_cons, IH. Qed.

Lemma tiles_of_bind {A} (l : list A) (f : A → list call) :
  tiles_of (l ≫= f) = l ≫= (λ x, tiles_of (f x)).
Proof.
  induction l as [|x l IH]; [done|].
  rewrite !bind_cons. unfold tiles_of in *. by rewrite omap_app, IH.
Qed.

Lemma tiles_of_app (l1 l2 : list call) :
  tiles_of (l1 ++ l2) = tiles_of l1 ++ tiles_of l2.
Proof. apply omap_app. Qed.

Lemma tiles_of_tile_calls (tile off : Z) :
  tiles_of (tile_calls params input_height input_width input_depth
              output_height output_width output_depth tile
              (source_drain output_height output_width output_depth) off) =
  [(off, Z.min (output_depth - off) tile)].
Proof.
  unfold tile_calls, tile_width. cbv zeta.
  change (tiles_of (?c1 :: CLoadOutputParams ?o ?n :: ?l)) with ((o, n) :: tiles_of l).
  f_equal.
  rewrite tiles_of_bind. apply bind_nil_all; intros y.
  rewrite tiles_of_bind. apply bind_nil_all; intros x.
  unfold pixel_calls, source_drain, compute_calls, drain_calls, channel_calls.
  change (tiles_of (?c1 :: ?l)) with (tiles_of l).
  rewrite tiles_of_app, !tiles_of_bind, !bind_nil_all; done.
Qed.

Lemma tiles_of_engine_calls (tile : Z) :
  tiles_of (engine_calls params input_height input_width input_depth
              output_height output_width output_depth tile
              (source_drain output_height output_width output_depth)) =
  (λ off, (off, Z.min (output_depth - off) tile)) <$> tile_offsets output_depth tile.
Proof.
  unfold engine_calls.
  change (tiles_of (?c1 :: ?c2 :: ?l)) with (tiles_of l).
  rewrite tiles_of_bind, <- bind_singleton_fmap.
  apply list_bind_ext; [|done]. intros off. apply tiles_of_tile_calls.
Qed.

Lemma full_tiles_cover (tile : Z) (k : nat) :
  0 ≤ tile →
  (j ← seq 0 k; seqZ (Z.of_nat j * tile) tile) = seqZ 0 (Z.of_nat k * tile).
Proof.
  intros Ht. induction k as [|k IH]; [done|].
  rewrite seq_S, bind_app, IH, bind_singleton.
  replace (Z.of_nat (Datatypes.S k) * tile) with (Z.of_nat k * tile + tile) by lia.
  rewrite seqZ_app by lia. done.
Qed.

Lemma bind_ext_elem_of {A B} (l : list A) (f g : A → list B) :
  (∀ x, x ∈ l → f x = g x) → l ≫= f = l ≫= g.
Proof.
  induction l as [|x l IH]; intros Hfg; [done|].
  rewrite !bind_cons, Hfg, IH; [done| |left].
  intros y Hy. apply Hfg. by right.
Qed.

Lemma tiles_partition (tile : Z) :
  (0 < output_depth → 0 < tile) →
  (off ← tile_offsets output_depth tile;
   seqZ off (Z.min (output_depth - off) tile)) = seqZ 0 output_depth.
Proof.
  intros Hpos. unfold tile_offsets, tile_count. rewrite list_fmap_bind.
  destruct (Z.ltb_spec 0 tile) as [Ht|Ht];
    [|rewrite seqZ_nil by lia; rewrite seqZ_nil by lia; done].
  destruct (Z.le_gt_cases output_depth 0) as [Hd|Hd].
  { rewrite (seqZ_nil 0 output_depth) by done. rewrite seqZ_nil; [done|].
    apply Z.lt_succ_r, Z.div_lt_upper_bound; lia. }
  set (count := (output_depth + tile - 1) `div` tile).
  assert (Hcount : (count - 1) * tile < output_depth ≤ count * tile).
  { pose proof (Z.div_mod (output_depth + tile - 1) tile ltac:(lia)) as Hdm.
    pose proof (Z.mod_pos_bound (output_depth + tile - 1) tile ltac:(lia)).
    fold count in Hdm. nia. }
  assert (1 ≤ count) by nia.
  rewrite bind_seqZ.
  replace (Z.to_nat count) with (Datatypes.S (Z.to_nat (count - 1))) by lia.
  rewrite seq_S, bind_app, bind_singleton. cbn [compose].
  rewrite (bind_ext_elem_of _ _ (λ j, seqZ (Z.of_nat j * tile) tile)).
  2:{ intros j [_ Hj]%elem_of_seq. rewrite Z.min_r by nia. f_equal; lia. }
  rewrite full_tiles_cover by lia.
  rewrite Nat.add_0_l, Z2Nat.id by lia.
  replace ((0 + (count - 1)) * tile) with (0 + (count - 1) * tile) by lia.
  rewrite Z.min_l by nia.
  rewrite <- seqZ_app by nia. f_equal. lia.
Qed.

(** C4, as amended.  In every call that completes, the outer loop visits
    the offsets 0, [tile], [2 * tile], ... below [output_depth], the width
    of the tile at an offset is [min (output_depth - offset) tile], and the
    channels of the tiles, in order, are the output channels
    0 .. [output_depth - 1], each once.  A call with output channels
    completes only when the tile size is positive. *)
Theorem tiles_cover_every_output_channel_once (fuel : nat)
    (bias_shape : RuntimeShape) (bias : option (list Z)) (m m' : machine S) :
  0 ≤ output_height → 0 ≤ output_width →
  ConvPerChannel4x4 fuel params output_multiplier output_shift
    input_shape input_data filter_shape filter_data bias_shape bias
    output_shape m = Done tt m' →
  ∃ tile l,
    max_output_channels_per_load (filter_words_per_output_channel input_depth 4 4)
      = Ok tile ∧
    trace m' = trace m ++ l ∧
    (0 < output_depth → 0 < tile) ∧
    tiles_of (call_of <$> l) =
      (λ k, (k * tile, Z.min (output_depth - k * tile) tile)) <$>
        seqZ 0 (tile_count output_depth tile) ∧
    (t ← tiles_of (call_of <$> l); tile_channels t) = seqZ 0 output_depth.
Proof.
  intros Hh Hw Hrun.
  apply ConvPerChannel4x4_calls in Hrun as (tile & l & Htile & Ht & Hv & Hc & Hpos);
    [|done..].
  exists tile, l. repeat (split; [done|]).
  rewrite Hc, tiles_of_engine_calls. split.
  - unfold tile_offsets. by rewrite <- list_fmap_compose.
  - rewrite list_fmap_bind. by apply tiles_partition.
Qed.

Lemma max_output_channels_per_load_divide (words tile : Z) :
  max_output_channels_per_load words = Ok tile → (4 | tile).
Proof.
  unfold max_output_channels_per_load, cdiv. destruct (words =? 0); [done|].
  intros [= <-]. apply Z.divide_factor_r.
Qed.

Lemma pixel_base_Offset (out_channel_offset out_y out_x : Z) :
  (4 | output_depth) →
  base_at out_channel_offset out_y out_x =
  Offset output_shape 0 out_y out_x out_channel_offset.
Proof.
  intros [r ->]. unfold pixel_base, Offset, output_shape4. simpl.
  rewrite Z.quot_mul by lia. lia.
Qed.

Lemma source_drain_specified (tile k out_y out_x : Z) :
  (4 | output_depth) → (4 | tile) →
  let off := k * tile in
  source_drain output_height output_width output_depth
    off (tile_width output_depth tile off) out_y out_x =
  specified_drain output_height output_width output_depth
    off (tile_width output_depth tile off) out_y out_x.
Proof.
  intros Hd Ht off. unfold source_drain, specified_drain, drain_calls.
  rewrite pixel_base_Offset by done.
  assert (Hn : (4 | tile_width output_depth tile off)).
  { unfold tile_width, off.
    destruct (Z.min_spec (output_depth - k * tile) tile) as [[_ ->]|[_ ->]]; [|done].
    apply Z.divide_sub_r; [done|]. by apply Z.divide_mul_r. }
  destruct Hn as [q ->].
  rewrite Z.quot_mul by lia.
  replace ((q * 4 + 3) `div` 4) with q; [done|].
  apply Z.div_unique with 3; lia.
Qed.

(** C5, as amended.  When the output depth is a multiple of 4, every call
    that completes drains, for each output pixel of a tile, exactly
    [output_channels / 4] words from the output queue and stores them, one
    after the other, from the position of that pixel and of the tile's
    channel offset in the output tensor; the running pointer advances by
    [output_depth / 4] words from one pixel to the next. *)
Theorem drain_places_words_at_pixel_and_tile (fuel : nat)
    (bias_shape : RuntimeShape) (bias : option (list Z)) (m m' : machine S) :
  (4 | output_depth) →
  0 ≤ output_height → 0 ≤ output_width →
  ConvPerChannel4x4 fuel params output_multiplier output_shift
    input_shape input_data filter_shape filter_data bias_shape bias
    output_shape m = Done tt m' →
  (∃ tile l,
    max_output_channels_per_load (filter_words_per_output_channel input_depth 4 4)
      = Ok tile ∧
    trace m' = trace m ++ l ∧
    values_passed_on l = true ∧
    call_of <$> l =
      engine_calls params input_height input_width input_depth
        output_height output_width output_depth tile
        (specified_drain output_height output_width output_depth)) ∧
  (∀ out_channel_offset out_y out_x,
     base_at out_channel_offset out_y out_x =
       Offset output_shape 0 out_y out_x out_channel_offset ∧
     base_at out_channel_offset out_y (out_x + 1) =
       base_at out_channel_offset out_y out_x + 4 * Z.quot output_depth 4 ∧
     base_at out_channel_offset (out_y + 1) 0 =
       base_at out_channel_offset out_y output_width).
Proof.
  intros Hd Hh Hw Hrun. split.
  - apply ConvPerChannel4x4_calls in Hrun as (tile & l & Htile & Ht & Hv & Hc & _);
      [|done..].
    exists tile, l. repeat (split; [done|]). rewrite Hc.
    apply max_output_channels_per_load_divide in Htile.
    unfold engine_calls, tile_offsets. do 2 f_equal.
    rewrite !list_fmap_bind. apply list_bind_ext; [|done]. intros k.
    unfold compose, tile_calls. cbv zeta. do 2 f_equal.
    apply list_bind_ext; [|done]. intros y.
    apply list_bind_ext; [|done]. intros x.
    unfold pixel_calls. do 2 f_equal. by apply source_drain_specified.
  - intros off y x. split; [by apply pixel_base_Offset|].
    unfold pixel_base. lia.
Qed.

End EngineCallSequence.

(** ** Assertions that never fire *)

Section Never.
Context {S : Type}.

Lemma never_ret {A} (a : A) e : never (S := S) (ret a) e.
Proof. done. Qed.

Lemma never_bind {A B} (c : M S A) (k : A → M S B) e :
  never c e → (∀ a, never (k a) e) → never (bind c k) e.
Proof.
  intros Hc Hk m m'. unfold bind.
  destruct (c m) as [a m1|e1 m1] eqn:Hcm; [apply Hk|].
  intros [= -> ->]. by apply Hc in Hcm.
Qed.

Lemma never_DCHECK c b e :
  (b = false → e ≠ DcheckFailed c) → never (S := S) (DCHECK c b) e.
Proof. intros Hb m m'. unfold DCHECK. destruct b; [done|]. intros [= <- _]. by apply Hb. Qed.


Lemma never_lift {A} (r : result A) e :
  r ≠ Err e → never (S := S) (lift r) e.
Proof. intros Hr m m'. unfold lift. destruct r; [done|]. intros [= -> _]. done. Qed.

Lemma never_bind_lift {A B} (x : result A) (k : A → M S B) e :
  x ≠ Err e → (∀ a, x = Ok a → never (k a) e) → never (bind (lift x) k) e.
Proof.
  intros Hx Hk m m'. unfold bind, lift. destruct x as [a|e1]; [by apply Hk|].
  intros [= -> _]. done.
Qed.

Lemma never_bind_DCHECK {B} c b (k : unit → M S B) e :
  (b = false → e ≠ DcheckFailed c) → (b = true → never (k tt) e) →
  never (bind (DCHECK c b) k) e.
Proof.
  intros Hb Hk m m'. unfold bind, DCHECK. destruct b; [by apply Hk|].
  intros [= <- _]. by apply Hb.
Qed.

Lemma never_command ev (f : S → S) e : never (command ev f) e.
Proof. done. Qed.

Lemma never_query ev (f : S → Z * S) e : never (query ev f) e.
Proof. done. Qed.

Lemma never_store32 p w e : e ≠ StoreOutOfBounds → never (S := S) (store32 p w) e.
Proof. intros He m m'. unfold store32. destruct (_ && _); [done|]. intros [= <- _]. done. Qed.

Lemma never_for_count {A} (body : Z → A → M S A) e (n : nat) (i step : Z) (a : A) :
  (∀ k a, (k < n)%nat → never (body (i + Z.of_nat k * step) a) e) →
  never (for_count n i step body a) e.
Proof.
  revert i a. induction n as [|n IH]; intros i a Hbody; [done|].
  cbn [for_count]. apply never_bind.
  - specialize (Hbody 0%nat a ltac:(lia)).
    by replace (i + Z.of_nat 0 * step) with i in Hbody by lia.
  - intros a'. apply IH. intros k a'' Hk.
    specialize (Hbody (Datatypes.S k) a'' ltac:(lia)).
    by replace (i + step + Z.of_nat k * step)
      with (i + Z.of_nat (Datatypes.S k) * step) by lia.
Qed.

Lemma never_for_range {A} (body : Z → A → M S A) e (lo hi : Z) (a : A) :
  (∀ i a, lo ≤ i < hi → never (body i a) e) →
  never (for_range lo hi body a) e.
Proof.
  intros Hbody. apply never_for_count. intros k a' Hk. apply Hbody. lia.
Qed.

Lemma never_for_fuel (body : Z → M S unit) e (fuel : nat) (i hi step : Z) :
  e ≠ OutOfFuel →
  (∀ i, i < hi → never (body i) e) →
  never (for_fuel fuel i hi step body) e.
Proof.
  intros He Hbody. revert i. induction fuel as [|fuel IH]; intros i.
  - intros m m' [= <- _]. done.
  - cbn [for_fuel]. destruct (Z.ltb_spec i hi); [|done].
    apply never_bind; [by apply Hbody|]. intros _. apply IH.
Qed.

End Never.

Lemma valid_padding_window (extent stride out : Z) :
  0 < stride → 0 ≤ out < (extent - 4) `div` stride + 1 →
  out * stride + 4 ≤ extent.
Proof.
  intros Hs Ho.
  pose proof (Z.mul_div_le (extent - 4) stride Hs). nia.
Qed.

Section InputBounds.
Context `{GatewareConstants} {S : Type} `{Accelerator S}.
Variable params : ConvParams.
Variables input_height input_width input_depth : Z.
Variables output_height output_width output_depth : Z.

Local Abbreviation input_shape := (input_shape4 input_height input_width input_depth).
Local Abbreviation filter_shape := (filter_shape4 input_depth output_depth).
Local Abbreviation output_shape := (output_shape4 output_height output_width output_depth).

Hypothesis stride_height_pos : 0 < stride_height params.
Hypothesis stride_width_pos : 0 < stride_width params.
Hypothesis valid_height :
  output_height = (input_height - 4) `div` stride_height params + 1.
Hypothesis valid_width :
  output_width = (input_width - 4) `div` stride_width params + 1.






End InputBounds.

(** ** A tile size of zero *)

Section Completes.
Context {S : Type}.


(** A loop whose step is zero runs until the fuel is gone. *)
Lemma for_fuel_stuck (body : Z → M S unit) (block : list call) (hi : Z) :
  0 < hi → completes (body 0) → runs_as (body 0) tt block →
  ∀ fuel m, ∃ m' l,
    for_fuel fuel 0 hi 0 body m = Failed OutOfFuel m' ∧
    trace m' = trace m ++ l ∧
    call_of <$> l = (_ ← seq 0 fuel; block).
Proof.
  intros Hhi Hdone Hcalls. induction fuel as [|fuel IH]; intros m.
  - exists m, []. by rewrite app_nil_r.
  - cbn [for_fuel]. destruct (Z.ltb_spec 0 hi); [|lia].
    unfold bind. destruct (Hdone m) as ([] & m1 & Hb). rewrite Hb.
    apply Hcalls in Hb as (_ & l1 & Ht1 & _ & Hc1).
    destruct (IH m1) as (m' & l2 & Hrun & Ht2 & Hc2).
    exists m', (l1 ++ l2). rewrite Z.add_0_r, Hrun, Ht2, Ht1, app_assoc.
    repeat split. rewrite fmap_app, Hc1, Hc2.
    cbn [seq]. by rewrite bind_cons, <- fmap_S_seq, list_fmap_bind.
Qed.

End Completes.

Section ZeroTile.
Context `{GatewareConstants} {S : Type} `{Accelerator S}.
Variable params : ConvParams.
Variables input_height input_width input_depth : Z.
Variables output_height output_width output_depth : Z.
Variables (input_data filter_data output_multiplier output_shift : list Z).
Variable bias_shape : RuntimeShape.
Variable bias_data : option (list Z).

Local Abbreviation input_shape := (input_shape4 input_height input_width input_depth).
Local Abbreviation filter_shape := (filter_shape4 input_depth output_depth).
Local Abbreviation output_shape := (output_shape4 output_height output_width output_depth).

Lemma bind_DCHECK_true {B} c b (k : unit → M S B) m :
  b = true → bind (DCHECK c b) k m = k tt m.
Proof. by intros ->. Qed.

Lemma bind_lift_Ok {A B} (x : result A) a (k : A → M S B) m :
  x = Ok a → bind (lift x) k m = k a m.
Proof. by intros ->. Qed.

(** Under the contract the assertions before the main loop hold, and the
    call is the main loop on the machine with the two offsets loaded. *)
Lemma ConvPerChannel4x4_main_loop (fuel : nat) (tile : Z) (m : machine S) :
  engine_contract params bias_shape bias_data input_height input_width input_depth
    output_height output_width output_depth →
  max_output_channels_per_load (filter_words_per_output_channel input_depth 4 4)
    = Ok tile →
  ∃ bias,
    bias_data = Some bias ∧
    ConvPerChannel4x4 fuel params output_multiplier output_shift
      input_shape input_data filter_shape filter_data bias_shape bias_data
      output_shape m =
    for_fuel fuel 0 output_depth tile
      (process_tile (stride_width params) (stride_height params)
         output_multiplier output_shift input_shape input_data
         filter_shape filter_data bias output_shape
         input_height input_width input_depth 4 4
         output_height output_width output_depth tile)
      (Machine
         (SetOutputOffsets (output_offset params) (quantized_activation_min params)
            (quantized_activation_max params)
            (LoadInputOffset (input_offset params) (cfu m)))
         (output_data m)
         (trace m ++
          [EvLoadInputOffset (input_offset params);
           EvSetOutputOffsets (output_offset params)
             (quantized_activation_min params) (quantized_activation_max params)])).
Proof.
  intros [Hel Hpw Hph Hact Hbias _ _ _ _ _] Htile.
  apply CanAccelerateConv4x4_eligible in Hel
    as (Hpad & Hdepth & _ & [Hdh Hdw] & _ & Hnull).
  destruct bias_data as [bias|]; [|done]. exists bias. split; [done|].
  unfold ConvPerChannel4x4. cbv zeta.
  rewrite Hdw, Hdh, Hpad, Hpw, Hph, Hbias.
  rewrite !bind_DCHECK_true by (reflexivity || by apply Z.leb_le).
  rewrite (bind_lift_Ok _ 1) by reflexivity.
  rewrite bind_DCHECK_true by reflexivity.
  rewrite (bind_lift_Ok _ input_depth) by (by apply MatchingDim_same).
  rewrite bind_DCHECK_true.
  2:{ apply orb_true_iff. destruct Hdepth as [->|Hd]; [by left|right].
      apply Z.eqb_eq. by apply rem4_divide. }
  rewrite (bind_lift_Ok _ output_depth) by (by apply MatchingDim_same).
  unfold bind at 1. cbn [DCHECK_ptr ret].
  rewrite bind_DCHECK_true by apply Z.eqb_refl.
  rewrite (bind_lift_Ok _ input_height), (bind_lift_Ok _ input_width),
    (bind_lift_Ok _ 4) by reflexivity.
  rewrite bind_DCHECK_true, (bind_lift_Ok _ 4), bind_DCHECK_true by reflexivity.
  rewrite (bind_lift_Ok _ output_height), (bind_lift_Ok _ output_width) by reflexivity.
  unfold bind at 1. cbn [command]. unfold bind at 1. cbn [command cfu output_data trace].
  rewrite (bind_lift_Ok _ tile) by done.
  by rewrite <- app_assoc.
Qed.

Lemma compute_pixel_empty (off n : Z) :
  n ≤ 0 → completes (S := S) (compute_pixel input_depth 4 4 off n).
Proof.
  intros Hn. unfold compute_pixel, for_range.
  replace (Z.to_nat (off + n - off)) with 0%nat by lia. apply completes_ret.
Qed.

Lemma drain_pixel_empty (n base : Z) :
  n ≤ 0 → completes (S := S) (drain_pixel n base).
Proof.
  intros Hn. unfold drain_pixel, for_words.
  assert ((n + 3) `div` 4 ≤ 0).
  { apply Z.lt_succ_r, Z.div_lt_upper_bound; lia. }
  replace (Z.to_nat ((n + 3) `div` 4)) with 0%nat by lia.
  apply completes_bind; [apply completes_ret|intros; apply completes_ret].
Qed.

Lemma process_tile_empty (bias : list Z) (tile off : Z) :
  engine_contract params bias_shape bias_data input_height input_width input_depth
    output_height output_width output_depth →
  Z.min (output_depth - off) tile ≤ 0 →
  completes
    (process_tile (stride_width params) (stride_height params)
       output_multiplier output_shift input_shape input_data
       filter_shape filter_data bias output_shape
       input_height input_width input_depth 4 4
       output_height output_width output_depth tile off).
Proof.
  intros [_ _ _ _ _ Hsh Hsw Hoh How Hwords] Hn. unfold process_tile.
  apply completes_bind; [apply completes_command|intros _].
  apply completes_bind; [apply completes_command|intros _].
  apply completes_bind; [|intros; apply completes_ret].
  apply completes_for_range. intros out_y base_y Hy. unfold process_row.
  apply completes_bind.
  { apply completes_DCHECK, Z.leb_le, valid_padding_window; [done|]. by rewrite <- Hoh. }
  intros _. apply completes_for_range. intros out_x base_x Hx. unfold process_pixel.
  apply completes_bind.
  { apply completes_DCHECK, Z.leb_le, valid_padding_window; [done|]. by rewrite <- How. }
  intros _. apply completes_bind; [by apply completes_DCHECK, Z.leb_le|intros _].
  apply completes_bind; [apply completes_command|intros _].
  apply completes_bind; [by apply compute_pixel_empty|intros _].
  apply completes_bind; [by apply drain_pixel_empty|intros; apply completes_ret].
Qed.

Lemma tile_size_positive_iff (tile : Z) :
  0 < MAX_FILTER_WORDS → 0 < input_depth →
  max_output_channels_per_load (filter_words_per_output_channel input_depth 4 4)
    = Ok tile →
  0 ≤ tile ∧
  (0 < tile ↔ input_depth ≤ MAX_FILTER_WORDS `div` 16) ∧
  (MAX_FILTER_WORDS `div` 4 < filter_words_per_output_channel input_depth 4 4 →
   tile = 0).
Proof.
  intros Hcap Hd.
  assert (Hw : filter_words_per_output_channel input_depth 4 4 = 4 * input_depth).
  { unfold filter_words_per_output_channel.
    replace (input_depth * 4 * 4) with (4 * input_depth * 4) by lia.
    by rewrite Z.quot_mul. }
  rewrite Hw, max_output_channels_per_load_spec by lia. intros [= <-].
  assert (0 ≤ MAX_FILTER_WORDS `div` (4 * input_depth)) by (apply Z.div_pos; lia).
  rewrite (Z.quot_div_nonneg MAX_FILTER_WORDS) by lia.
  rewrite Z.quot_div_nonneg by lia.
  rewrite Z.div_div by lia.
  replace (4 * input_depth * 4) with (16 * input_depth) by lia.
  set (q := MAX_FILTER_WORDS `div` (16 * input_depth)).
  assert (Hq : 0 ≤ q) by (apply Z.div_pos; lia).
  assert (Hq1 : 1 ≤ q ↔ input_depth ≤ MAX_FILTER_WORDS `div` 16).
  { unfold q. split; intros Hle.
    - apply Z.div_le_lower_bound; [lia|].
      pose proof (Z.mul_div_le MAX_FILTER_WORDS (16 * input_depth) ltac:(lia)). nia.
    - apply Z.div_le_lower_bound; [lia|].
      pose proof (Z.mul_div_le MAX_FILTER_WORDS 16 ltac:(lia)). nia. }
  split; [lia|]. split; [lia|].
  intros Hdeep. assert (q < 1); [|lia].
  apply Z.div_lt_upper_bound; [lia|].
  pose proof (Z.div_mod MAX_FILTER_WORDS 4 ltac:(lia)).
  pose proof (Z.mod_pos_bound MAX_FILTER_WORDS 4 ltac:(lia)). lia.
Qed.

Lemma bind_const_replicate {A B} (l : list A) (x : B) :
  (_ ← l; [x]) = replicate (length l) x.
Proof. induction l as [|a l IH]; [done|]. by rewrite bind_cons, IH. Qed.

(** With a tile size of zero every iteration of the outer loop is a tile of
    no channels at offset 0, and the call runs out of any fuel. *)
Lemma ConvPerChannel4x4_zero_tile (fuel : nat) (m : machine S) :
  0 < output_depth → 0 ≤ output_height → 0 ≤ output_width →
  engine_contract params bias_shape bias_data input_height input_width input_depth
    output_height output_width output_depth →
  max_output_channels_per_load (filter_words_per_output_channel input_depth 4 4)
    = Ok 0 →
  ∃ m' l,
    ConvPerChannel4x4 fuel params output_multiplier output_shift
      input_shape input_data filter_shape filter_data bias_shape bias_data
      output_shape m = Failed OutOfFuel m' ∧
    trace m' = trace m ++ l ∧
    tiles_of (call_of <$> l) = replicate fuel (0, 0).
Proof.
  intros Hod Hoh How Hcontract Htile.
  destruct (ConvPerChannel4x4_main_loop fuel 0 m Hcontract Htile)
    as (bias & _ & ->).
  edestruct (for_fuel_stuck
               (process_tile (stride_width params) (stride_height params)
                  output_multiplier output_shift input_shape input_data
                  filter_shape filter_data bias output_shape
                  input_height input_width input_depth 4 4
                  output_height output_width output_depth 0))
    as (m' & l & Hrun & Ht & Hc); [exact Hod| | |].
  - apply process_tile_empty; [done|lia].
  - by apply process_tile_calls.
  - exists m'. eexists (_ :: _ :: l). split; [exact Hrun|]. split.
    + rewrite Ht. cbn [trace]. by rewrite <- app_assoc.
    + cbn [fmap list_fmap call_of].
      change (list_fmap event call call_of l) with (call_of <$> l).
      change (tiles_of (?c1 :: ?c2 :: ?l)) with (tiles_of l).
      rewrite Hc, tiles_of_bind.
      rewrite (list_bind_ext _ (λ _, [(0, 0)]) _ (seq 0 fuel)); [| |done].
      * by rewrite bind_const_replicate, length_seq.
      * intros _. rewrite tiles_of_tile_calls. f_equal. f_equal. lia.
Qed.


End ZeroTile.

(** ** The specified accelerator computes the reference *)

Lemma to_int32_add_l (a b : Z) : to_int32 (to_int32 a + b) = to_int32 (a + b).
Proof.
  unfold to_int32, wrap_signed. f_equal.
  replace ((a + 2 ^ (32 - 1)) `mod` 2 ^ 32 - 2 ^ (32 - 1) + b + 2 ^ (32 - 1))
    with ((a + 2 ^ (32 - 1)) `mod` 2 ^ 32 + b) by lia.
  rewrite Zplus_mod_idemp_l. f_equal. lia.
Qed.

Lemma to_int8_range (z : Z) : -128 ≤ to_int8 z ≤ 127.
Proof.
  unfold to_int8, wrap_signed.
  change (2 ^ (8 - 1)) with 128. change (2 ^ 8) with 256.
  pose proof (Z.mod_pos_bound (z + 128) 256 ltac:(lia)). lia.
Qed.

Lemma to_int8_to_uint8 (b : Z) : -128 ≤ b ≤ 127 → to_int8 (to_uint8 b) = b.
Proof.
  intros Hb. unfold to_int8, to_uint8, wrap_signed.
  change (2 ^ (8 - 1)) with 128. change (2 ^ 8) with 256.
  Z.div_mod_to_equations. lia.
Qed.

Lemma lor_shiftl_8 (a w : Z) :
  0 ≤ a < 256 → Z.lor a (Z.shiftl w 8) = a + 256 * w.
Proof.
  intros Ha.
  assert (Hland : Z.land a (Z.shiftl w 8) = 0).
  { apply Z.bits_inj'. intros n Hn. rewrite Z.land_spec, Z.bits_0.
    destruct (Z.lt_ge_cases n 8).
    - by rewrite Z.shiftl_spec_low, andb_false_r.
    - assert (Z.testbit a n = false) as ->; [|done].
      apply Z.testbit_false; [done|].
      rewrite Z.div_small; [done|]. split; [lia|].
      apply Z.lt_le_trans with (2 ^ 8); [lia|].
      apply Z.pow_le_mono_r; lia. }
  rewrite <- Z.lxor_lor, <- Z.add_nocarry_lxor by done.
  rewrite Z.shiftl_mul_pow2 by lia. lia.
Qed.

Lemma pack_word_4 (b0 b1 b2 b3 : Z) :
  pack_word [b0; b1; b2; b3] =
  to_uint8 b0 + 256 * (to_uint8 b1 + 256 * (to_uint8 b2 + 256 * to_uint8 b3)).
Proof.
  unfold pack_word, to_uint8. simpl foldr.
  rewrite !lor_shiftl_8 by (apply Z.mod_pos_bound; lia).
  lia.
Qed.

Lemma word_bytes_of_bytes (u0 u1 u2 u3 : Z) :
  0 ≤ u0 < 256 → 0 ≤ u1 < 256 → 0 ≤ u2 < 256 → 0 ≤ u3 < 256 →
  word_bytes (u0 + 256 * (u1 + 256 * (u2 + 256 * u3))) =
  [to_int8 u0; to_int8 u1; to_int8 u2; to_int8 u3].
Proof.
  intros H0 H1 H2 H3. unfold word_bytes. cbn [fmap list_fmap].
  change 255 with (Z.ones 8).
  rewrite !Z.land_ones, !Z.shiftr_div_pow2 by lia.
  change (2 ^ (8 * 0)) with 1. change (2 ^ (8 * 1)) with 256.
  change (2 ^ (8 * 2)) with 65536. change (2 ^ (8 * 3)) with 16777216.
  change (2 ^ 8) with 256.
  set (w := u0 + 256 * (u1 + 256 * (u2 + 256 * u3))).
  assert ((w `div` 1) `mod` 256 = u0) as -> by (unfold w; Z.div_mod_to_equations; lia).
  assert ((w `div` 256) `mod` 256 = u1) as -> by (unfold w; Z.div_mod_to_equations; lia).
  assert ((w `div` 65536) `mod` 256 = u2) as -> by (unfold w; Z.div_mod_to_equations; lia).
  assert ((w `div` 16777216) `mod` 256 = u3) as -> by (unfold w; Z.div_mod_to_equations; lia).
  done.
Qed.

Lemma word_bytes_pack_word (b0 b1 b2 b3 : Z) :
  -128 ≤ b0 ≤ 127 → -128 ≤ b1 ≤ 127 → -128 ≤ b2 ≤ 127 → -128 ≤ b3 ≤ 127 →
  word_bytes (pack_word [b0; b1; b2; b3]) = [b0; b1; b2; b3].
Proof.
  intros H0 H1 H2 H3. rewrite pack_word_4.
  rewrite word_bytes_of_bytes by (apply Z.mod_pos_bound; lia).
  by rewrite !to_int8_to_uint8.
Qed.

Lemma sumZ_app (l1 l2 : list Z) : sumZ (l1 ++ l2) = sumZ l1 + sumZ l2.
Proof. induction l1 as [|x l1 IH]; simpl; [done|]. unfold sumZ in *. simpl. lia. Qed.

Lemma dot_app (o : Z) (xs1 xs2 fs1 fs2 : list Z) :
  length xs1 = length fs1 →
  dot o (xs1 ++ xs2) (fs1 ++ fs2) = dot o xs1 fs1 + dot o xs2 fs2.
Proof. intros Hlen. unfold dot. by rewrite zip_with_app, sumZ_app. Qed.

Lemma dot_take_step (o : Z) (xs fs : list Z) (a b : nat) :
  (a ≤ length xs)%nat → (a ≤ length fs)%nat →
  dot o (take (a + b) xs) (take (a + b) fs) =
  dot o (take a xs) (take a fs) + dot o (take b (drop a xs)) (take b (drop a fs)).
Proof.
  intros Hx Hf. rewrite <- !take_take_drop. apply dot_app.
  by rewrite !length_take_le.
Qed.

Lemma fmap_seqZ_shift {B} (f : Z → B) (d len : Z) :
  f <$> seqZ d len = (λ i, f (d + i)) <$> seqZ 0 len.
Proof.
  rewrite <- (Z.add_0_r d) at 1. rewrite <- fmap_add_seqZ, <- list_fmap_compose. done.
Qed.

Lemma length_read_bytes (buf : list Z) (p n : Z) :
  length (read_bytes buf p n) = Z.to_nat n.
Proof. unfold read_bytes. by rewrite length_fmap, length_seqZ. Qed.

Lemma take_drop_read_bytes (buf : list Z) (p n : Z) (d k : nat) :
  Z.of_nat d + Z.of_nat k ≤ n →
  take k (drop d (read_bytes buf p n)) = read_bytes buf (p + Z.of_nat d) (Z.of_nat k).
Proof.
  intros Hn. unfold read_bytes.
  replace n with (Z.of_nat d + (Z.of_nat k + (n - Z.of_nat d - Z.of_nat k))) by lia.
  rewrite !seqZ_app, !fmap_app by lia.
  rewrite drop_app_length' by (rewrite length_fmap, length_seqZ; lia).
  rewrite take_app_length' by (rewrite length_fmap, length_seqZ; lia).
  rewrite fmap_seqZ_shift. apply list_fmap_ext. intros _ i _. f_equal. lia.
Qed.

Lemma zip_with_fmap_same {A B C D} (f : A → B → C) (g : D → A) (h : D → B) (l : list D) :
  zip_with f (g <$> l) (h <$> l) = (λ x, f (g x) (h x)) <$> l.
Proof. induction l as [|x l IH]; [done|]. csimpl. by rewrite IH. Qed.

Lemma bind_bind_seqZ_flat {B} (n m : Z) (h : Z → B) :
  0 ≤ m →
  (i ← seqZ 0 n; j ← seqZ 0 m; [h (i * m + j)]) = h <$> seqZ 0 (n * m).
Proof.
  intros Hm. destruct (Z.le_gt_cases n 0) as [Hn|Hn].
  { rewrite (seqZ_nil 0 n) by done.
    rewrite (seqZ_nil 0 (n * m)) by (apply Z.mul_nonpos_nonneg; lia). done. }
  rewrite <- (Z2Nat.id n) by lia. generalize (Z.to_nat n) as k. clear Hn n.
  induction k as [|k IH]; [done|].
  rewrite seqZ_S, bind_app, IH, bind_singleton, bind_singleton_fmap.
  replace (Z.of_nat (Datatypes.S k) * m) with (Z.of_nat k * m + m) by lia.
  rewrite seqZ_app, fmap_app by nia. f_equal.
  rewrite (fmap_seqZ_shift h). apply list_fmap_ext. intros _ j _. done.
Qed.

Lemma wrap_cursor_lt (c len : nat) : (c < len)%nat → wrap_cursor c len = c.
Proof. intros. unfold wrap_cursor. by rewrite decide_True. Qed.

Lemma wrap_cursor_ge (c len : nat) : (len ≤ c)%nat → wrap_cursor c len = 0%nat.
Proof. intros. unfold wrap_cursor. rewrite decide_False; [done|lia]. Qed.

Lemma next_cursor_wrap (c step len : nat) :
  (c + step ≤ len)%nat → (0 < step)%nat →
  next_cursor (wrap_cursor c len) step len = wrap_cursor (c + step) len.
Proof.
  intros Hle Hs. unfold next_cursor, wrap_cursor.
  repeat case_decide; lia.
Qed.

Lemma iter_accumulate_step (i : nat) io oo lo hi F fc I ic P pc acc q :
  (ic + 16 * i ≤ length I)%nat → (fc + 16 * i ≤ length F)%nat →
  (ic < length I)%nat → (fc < length F)%nat →
  to_int32 acc = acc →
  Nat.iter i accumulate_step (Accel io oo lo hi F fc I ic P pc acc q) =
  Accel io oo lo hi F (wrap_cursor (fc + 16 * i) (length F))
    I (wrap_cursor (ic + 16 * i) (length I)) P pc
    (to_int32 (acc + dot io (take (16 * i) (drop ic I)) (take (16 * i) (drop fc F))))
    q.
Proof.
  intros HI HF HicI HfcF Hacc. induction i as [|i IH].
  - simpl. unfold wrap_cursor. rewrite !Nat.add_0_r.
    rewrite !decide_True by done. unfold dot. simpl. by rewrite Z.add_0_r, Hacc.
  - rewrite Nat.iter_succ, IH by lia. unfold accumulate_step.
    cbn [reg_input_offset reg_output_offset reg_activation_min reg_activation_max
         filter_store filter_cursor input_store input_cursor param_store param_cursor
         accumulator output_queue].
    rewrite !next_cursor_wrap by lia.
    replace (fc + 16 * i + 16)%nat with (fc + 16 * Datatypes.S i)%nat by lia.
    replace (ic + 16 * i + 16)%nat with (ic + 16 * Datatypes.S i)%nat by lia.
    f_equal. rewrite to_int32_add_l.
    unfold wrap_cursor at 1 2. rewrite !decide_True by lia.
    replace (16 * Datatypes.S i)%nat with (16 * i + 16)%nat by lia.
    rewrite dot_take_step by (rewrite length_drop; lia).
    rewrite !drop_drop. f_equal. lia.
Qed.

Lemma fmap_bind_list {A B C} (f : B → C) (g : A → list B) (l : list A) :
  f <$> (l ≫= g) = l ≫= (λ x, f <$> g x).
Proof. induction l as [|x l IH]; [done|]. by rewrite !bind_cons, fmap_app, IH. Qed.

Lemma zip_with_bind_rows {A B C D} (g : B → C → D) (f1 : A → list B) (f2 : A → list C)
    (l : list A) :
  (∀ x, length (f1 x) = length (f2 x)) →
  zip_with g (l ≫= f1) (l ≫= f2) = l ≫= (λ x, zip_with g (f1 x) (f2 x)).
Proof.
  intros Hlen. induction l as [|x l IH]; [done|].
  by rewrite !bind_cons, zip_with_app, IH.
Qed.

Section ReferenceAccumulator.
Variable rescale : Z → Z → Z → Z.
Variable params : ConvParams.
Variables input_height input_width input_depth output_depth : Z.
Variables (input_data filter_data : list Z).

Local Abbreviation input_shape := (input_shape4 input_height input_width input_depth).
Local Abbreviation filter_shape := (filter_shape4 input_depth output_depth).

(** The raw accumulator of the reference is the sum of products of the
    input window, as [LoadInput] stores it, with the filter of the output
    channel, as [LoadFilter] stores it. *)
Lemma reference_accumulator_dot (out_y out_x out_channel : Z) :
  0 ≤ input_depth →
  reference_accumulator params input_shape input_data filter_shape filter_data
    out_y out_x out_channel =
  to_int32
    (dot (input_offset params)
       (get input_data <$>
          window_offsets input_width input_depth
            (Offset input_shape 0 (out_y * stride_height params)
               (out_x * stride_width params) 0))
       (read_bytes filter_data (Offset filter_shape out_channel 0 0 0)
          (4 * (4 * input_depth)))).
Proof.
  intros Hd. unfold reference_accumulator, dot. f_equal. f_equal.
  change (input_shape !!! 3%nat) with input_depth.
  unfold window_offsets, read_bytes.
  rewrite fmap_bind_list.
  rewrite <- (bind_bind_seqZ_flat 4 (4 * input_depth)
                (λ t, get filter_data (Offset filter_shape out_channel 0 0 0 + t)))
    by lia.
  rewrite zip_with_bind_rows.
  2:{ intros row. rewrite bind_singleton_fmap, !length_fmap. done. }
  apply list_bind_ext; [|done]. intros filter_y.
  rewrite bind_singleton_fmap, <- list_fmap_compose, zip_with_fmap_same.
  rewrite <- (bind_bind_seqZ_flat 4 input_depth) by done.
  apply list_bind_ext; [|done]. intros filter_x.
  apply list_bind_ext; [|done]. intros in_channel.
  unfold compose, Offset, input_shape4, filter_shape4. simpl.
  f_equal. f_equal; [f_equal|]; f_equal; lia.
Qed.

End ReferenceAccumulator.

(** ** Total correctness on the specified accelerator *)

Section Total.
Context {S : Type}.

Lemma total_ret {A} (P : machine S → Prop) (a : A) :
  total P (ret a) (λ a' m', a' = a ∧ P m').
Proof. intros m Hm. by exists a, m. Qed.

Lemma total_bind {A B} (P : machine S → Prop) (c : M S A) (R : A → machine S → Prop)
    (k : A → M S B) (Q : B → machine S → Prop) :
  total P c R → (∀ a, total (R a) (k a) Q) → total P (bind c k) Q.
Proof.
  intros Hc Hk m Hm. unfold bind.
  destruct (Hc m Hm) as (a & m1 & -> & HR). by apply Hk.
Qed.

Lemma total_weaken {A} (P P' : machine S → Prop) (c : M S A)
    (Q Q' : A → machine S → Prop) :
  total P' c Q' → (∀ m, P m → P' m) → (∀ a m, Q' a m → Q a m) → total P c Q.
Proof.
  intros Hc HP HQ m Hm. destruct (Hc m (HP m Hm)) as (a & m' & -> & HQ').
  exists a, m'. auto.
Qed.

Lemma total_DCHECK (P : machine S → Prop) c b :
  b = true → total P (DCHECK c b) (λ _ m', P m').
Proof. intros -> m Hm. by exists tt, m. Qed.

Lemma total_for_count {A} (body : Z → A → M S A) (accf : nat → A)
    (Inv : nat → machine S → Prop) (n : nat) (i step : Z) :
  (∀ k, (k < n)%nat →
     total (Inv k) (body (i + Z.of_nat k * step) (accf k))
       (λ a m', a = accf (Datatypes.S k) ∧ Inv (Datatypes.S k) m')) →
  total (Inv 0%nat) (for_count n i step body (accf 0%nat))
    (λ a m', a = accf n ∧ Inv n m').
Proof.
  revert i accf Inv. induction n as [|n IH]; intros i accf Inv Hbody.
  { apply total_ret. }
  cbn [for_count]. eapply total_bind.
  - specialize (Hbody 0%nat ltac:(lia)).
    replace (i + Z.of_nat 0 * step) with i in Hbody by lia. exact Hbody.
  - intros a m [Ha Hm]. subst a.
    apply (IH (i + step) (λ k, accf (Datatypes.S k)) (λ k, Inv (Datatypes.S k)));
      [|exact Hm].
    intros k Hk. specialize (Hbody (Datatypes.S k) ltac:(lia)).
    by replace (i + step + Z.of_nat k * step)
      with (i + Z.of_nat (Datatypes.S k) * step) by lia.
Qed.

Lemma total_for_range {A} (body : Z → A → M S A) (accf : Z → A)
    (Inv : Z → machine S → Prop) (lo hi : Z) :
  lo ≤ hi →
  (∀ i, lo ≤ i < hi →
     total (Inv i) (body i (accf i)) (λ a m', a = accf (i + 1) ∧ Inv (i + 1) m')) →
  total (Inv lo) (for_range lo hi body (accf lo)) (λ a m', a = accf hi ∧ Inv hi m').
Proof.
  intros Hle Hbody. unfold for_range.
  pose proof (total_for_count body (λ k, accf (lo + Z.of_nat k))
                (λ k, Inv (lo + Z.of_nat k)) (Z.to_nat (hi - lo)) lo 1) as Hloop.
  cbn beta in Hloop.
  replace (lo + Z.of_nat 0) with lo in Hloop by lia.
  replace (lo + Z.of_nat (Z.to_nat (hi - lo))) with hi in Hloop by lia.
  apply Hloop. intros k Hk.
  replace (lo + Z.of_nat k * 1) with (lo + Z.of_nat k) by lia.
  replace (lo + Z.of_nat (Datatypes.S k)) with (lo + Z.of_nat k + 1) by lia.
  apply Hbody. lia.
Qed.

Lemma total_for_fuel (body : Z → M S unit) (Inv : Z → machine S → Prop)
    (hi step : Z) :
  0 < step →
  (∀ i, i < hi → total (Inv i) (body i) (λ _ m', Inv (i + step) m')) →
  ∀ fuel lo, (Z.to_nat (hi - lo) < fuel)%nat →
    total (Inv lo) (for_fuel fuel lo hi step body)
      (λ _ m', ∃ i, hi ≤ i ∧ Inv i m').
Proof.
  intros Hstep Hbody. induction fuel as [|fuel IH]; intros lo Hfuel; [lia|].
  cbn [for_fuel]. destruct (Z.ltb_spec lo hi) as [Hlt|Hge].
  - eapply total_bind; [by apply Hbody|]. intros []. apply IH. lia.
  - intros m Hm. exists tt, m. split; [done|]. by exists lo.
Qed.

End Total.

Lemma Offset_shape4 (d0 d1 d2 d3 i0 i1 i2 i3 : Z) :
  Offset [d0; d1; d2; d3] i0 i1 i2 i3 = ((i0 * d1 + i1) * d2 + i2) * d3 + i3.
Proof. reflexivity. Qed.

Section SpecChannel.
Variable rescale : Z → Z → Z → Z.
Variable params : ConvParams.
Variables input_height input_width input_depth : Z.
Variables output_height output_width output_depth : Z.
Variables (input_data filter_data bias output_multiplier output_shift : list Z).

Local Abbreviation input_shape := (input_shape4 input_height input_width input_depth).
Local Abbreviation filter_shape := (filter_shape4 input_depth output_depth).
Local Abbreviation state := (accel_state params).
Local Abbreviation filter_of := (tile_filter input_depth output_depth filter_data).
Local Abbreviation registers_of := (tile_registers bias output_multiplier output_shift).
Local Abbreviation window_of := (pixel_window params input_height input_width input_depth input_data).
Local Abbreviation value_of :=
  (reference_output_value rescale params output_multiplier output_shift
     input_shape input_data filter_shape filter_data bias).

Lemma length_pixel_window (out_y out_x : Z) :
  length (window_of out_y out_x) = (16 * Z.to_nat input_depth)%nat.
Proof.
  unfold pixel_window, window_offsets.
  rewrite length_fmap. change (seqZ 0 4) with [0; 1; 2; 3].
  rewrite !bind_cons, !length_app, !length_fmap, !length_seqZ. simpl. lia.
Qed.

Lemma length_tile_filter (off n : Z) :
  0 ≤ n → 0 ≤ input_depth →
  length (filter_of off n) = (16 * (Z.to_nat input_depth * Z.to_nat n))%nat.
Proof.
  intros Hn Hd. unfold tile_filter. rewrite length_read_bytes. nia.
Qed.

(** Lines 143 to 146 on the specified accelerator: the streams advance by
    one output channel and the reference value of the channel joins the
    output queue. *)
Lemma channel_step (out_y out_x off n : Z) (j : nat) (queue : list Z) :
  0 < input_depth → (j < Z.to_nat n)%nat →
  let filters := filter_of off n in
  let a :=
    state filters (wrap_cursor (16 * (Z.to_nat input_depth * j)) (length filters))
      (window_of out_y out_x) 0 (registers_of off n)
      (wrap_cursor j (Z.to_nat n)) queue in
  let a1 := spec_AdvanceFilterInput (Z.quot (4 * 4 * input_depth) 16) a in
  let r := spec_multiply_accumulate a1 in
  spec_PostProcess rescale r.1 r.2 =
  state filters
    (wrap_cursor (16 * (Z.to_nat input_depth * Datatypes.S j)) (length filters))
    (window_of out_y out_x) 0 (registers_of off n)
    (wrap_cursor (Datatypes.S j) (Z.to_nat n))
    (queue ++ [value_of out_y out_x (off + Z.of_nat j)]).
Proof.
  intros Hd Hj filters a a1 r.
  assert (Hlen : length filters = (16 * (Z.to_nat input_depth * Z.to_nat n))%nat).
  { apply length_tile_filter; lia. }
  assert (Hfc : (16 * (Z.to_nat input_depth * j) + 16 * Z.to_nat input_depth
                 ≤ length filters)%nat) by (rewrite Hlen; nia).
  unfold r, a1, a, spec_AdvanceFilterInput, accel_state.
  replace (4 * 4 * input_depth) with (input_depth * 16) by lia.
  rewrite Z.quot_mul by lia.
  rewrite (wrap_cursor_lt (16 * (Z.to_nat input_depth * j))) by lia.
  rewrite (wrap_cursor_lt j) by lia.
  rewrite iter_accumulate_step;
    [|rewrite length_pixel_window; lia|lia|rewrite length_pixel_window; lia|lia|done].
  unfold spec_multiply_accumulate, spec_PostProcess.
  cbn [fst snd reg_input_offset reg_output_offset reg_activation_min reg_activation_max
       filter_store filter_cursor input_store input_cursor param_store param_cursor
       accumulator output_queue].
  assert (Hreg : registers_of off n !! j =
                 Some (get bias (off + Z.of_nat j),
                       get output_multiplier (off + Z.of_nat j),
                       get output_shift (off + Z.of_nat j))).
  { unfold tile_registers. rewrite list_lookup_fmap, lookup_seqZ_lt by lia. done. }
  rewrite Hreg. cbn [default].
  assert (Hregs : length (registers_of off n) = Z.to_nat n).
  { unfold tile_registers. by rewrite length_fmap, length_seqZ. }
  rewrite Hregs.
  assert (next_cursor j 1 (Z.to_nat n) = wrap_cursor (Datatypes.S j) (Z.to_nat n)) as ->.
  { unfold next_cursor, wrap_cursor. repeat case_decide; lia. }
  rewrite (wrap_cursor_ge (0 + _)) by (rewrite length_pixel_window; lia).
  replace (16 * (Z.to_nat input_depth * j) + 16 * Z.to_nat input_depth)%nat
    with (16 * (Z.to_nat input_depth * Datatypes.S j))%nat by lia.
  f_equal. f_equal. f_equal.
  unfold reference_output_value. f_equal.
  rewrite reference_accumulator_dot by lia. f_equal.
  rewrite Z.add_0_l, drop_0, take_ge by (rewrite length_pixel_window; lia).
  f_equal. unfold filters, tile_filter.
  rewrite take_drop_read_bytes by nia.
  unfold read_bytes.
  replace (Z.of_nat (16 * Z.to_nat input_depth)) with (4 * (4 * input_depth)) by lia.
  apply list_fmap_ext. intros _ i _. f_equal.
  unfold filter_shape4. rewrite !Offset_shape4.
  rewrite !Nat2Z.inj_mul, Z2Nat.id by lia. lia.
Qed.

End SpecChannel.

Lemma lookup_bind_seq_blocks {B} (g : nat → list B) (m n i j : nat) :
  (∀ k, length (g k) = m) → (i < n)%nat → (j < m)%nat →
  (k ← seq 0 n; g k) !! (i * m + j)%nat = g i !! j.
Proof.
  intros Hlen. revert g Hlen i. induction n as [|n IH]; intros g Hlen i Hi Hj; [lia|].
  cbn [seq]. rewrite bind_cons, <- fmap_S_seq, list_fmap_bind.
  destruct i as [|i].
  - rewrite lookup_app_l by (rewrite Hlen; lia). done.
  - rewrite lookup_app_r by (rewrite Hlen; lia). rewrite Hlen.
    replace (Datatypes.S i * m + j - m)%nat with (i * m + j)%nat by lia.
    apply (IH (λ k, g (Datatypes.S k))); [done|lia|done].
Qed.

Lemma lookup_bind_seqZ_blocks {B} (f : Z → list B) (m : nat) (n i : Z) (j : nat) :
  (∀ k, length (f k) = m) → 0 ≤ i < n → (j < m)%nat →
  (k ← seqZ 0 n; f k) !! (Z.to_nat i * m + j)%nat = f i !! j.
Proof.
  intros Hlen Hi Hj. rewrite bind_seqZ.
  rewrite (lookup_bind_seq_blocks (λ k, f (0 + Z.of_nat k))) by (done || lia).
  do 2 f_equal. lia.
Qed.

Lemma length_bind_blocks {A B} (f : A → list B) (m : nat) (l : list A) :
  (∀ k, length (f k) = m) → length (l ≫= f) = (length l * m)%nat.
Proof.
  intros Hlen. induction l as [|x l IH]; [done|].
  rewrite bind_cons, length_app, IH, Hlen. simpl. lia.
Qed.

Section ReferenceLayout.
Variable rescale : Z → Z → Z → Z.
Variable params : ConvParams.
Variables input_height input_width input_depth : Z.
Variables output_height output_width output_depth : Z.
Variables (input_data filter_data bias output_multiplier output_shift : list Z).

Local Abbreviation input_shape := (input_shape4 input_height input_width input_depth).
Local Abbreviation filter_shape := (filter_shape4 input_depth output_depth).
Local Abbreviation output_shape := (output_shape4 output_height output_width output_depth).
Local Abbreviation reference :=
  (reference_ConvPerChannel rescale params output_multiplier output_shift
     input_shape input_data filter_shape filter_data bias output_shape).
Local Abbreviation value_of :=
  (reference_output_value rescale params output_multiplier output_shift
     input_shape input_data filter_shape filter_data bias).
Local Abbreviation values_of :=
  (pixel_values rescale params input_height input_width input_depth output_depth
     input_data filter_data bias output_multiplier output_shift).
Local Abbreviation agrees_on :=
  (agrees rescale params input_height input_width input_depth
     output_height output_width output_depth
     input_data filter_data bias output_multiplier output_shift).

Lemma length_reference :
  length reference =
  (Z.to_nat output_height * (Z.to_nat output_width * Z.to_nat output_depth))%nat.
Proof.
  unfold reference_ConvPerChannel.
  change (output_shape !!! 1%nat) with output_height.
  change (output_shape !!! 2%nat) with output_width.
  change (output_shape !!! 3%nat) with output_depth.
  rewrite (length_bind_blocks _ (Z.to_nat output_width * Z.to_nat output_depth)),
    length_seqZ; [done|].
  intros y. rewrite (length_bind_blocks _ (Z.to_nat output_depth)), length_seqZ; [done|].
  intros x. rewrite (length_bind_blocks _ 1), length_seqZ; [lia|done].
Qed.

Lemma lookup_reference (out_y out_x out_channel : Z) :
  0 ≤ out_y < output_height → 0 ≤ out_x < output_width →
  0 ≤ out_channel < output_depth →
  reference !! Z.to_nat ((out_y * output_width + out_x) * output_depth + out_channel)
  = Some (value_of out_y out_x out_channel).
Proof.
  intros Hy Hx Hc. unfold reference_ConvPerChannel.
  change (output_shape !!! 1%nat) with output_height.
  change (output_shape !!! 2%nat) with output_width.
  change (output_shape !!! 3%nat) with output_depth.
  replace (Z.to_nat ((out_y * output_width + out_x) * output_depth + out_channel))
    with (Z.to_nat out_y * (Z.to_nat output_width * Z.to_nat output_depth)
          + (Z.to_nat out_x * Z.to_nat output_depth
             + (Z.to_nat out_channel * 1 + 0)))%nat by nia.
  assert (Hrow : ∀ y x, length (c ← seqZ 0 output_depth; [value_of y x c])
                        = Z.to_nat output_depth).
  { intros y x. rewrite (length_bind_blocks _ 1), length_seqZ; [lia|done]. }
  assert (Hplane : ∀ y, length (x ← seqZ 0 output_width;
                                c ← seqZ 0 output_depth; [value_of y x c])
                        = (Z.to_nat output_width * Z.to_nat output_depth)%nat).
  { intros y. rewrite (length_bind_blocks _ (Z.to_nat output_depth)), length_seqZ; done. }
  rewrite lookup_bind_seqZ_blocks; [|done|done|nia].
  rewrite lookup_bind_seqZ_blocks; [|done|done|lia].
  rewrite lookup_bind_seqZ_blocks; [done|done|done|lia].
Qed.

Lemma reference_slice (out_y out_x off n : Z) :
  0 ≤ out_y < output_height → 0 ≤ out_x < output_width →
  0 ≤ off → off + n ≤ output_depth →
  take (Z.to_nat n)
    (drop (Z.to_nat ((out_y * output_width + out_x) * output_depth + off)) reference)
  = values_of out_y out_x off n.
Proof.
  intros Hy Hx Hoff Hn. apply list_eq. intros i. unfold pixel_values.
  destruct (decide (i < Z.to_nat n)%nat) as [Hi|Hi].
  - rewrite lookup_take_lt, lookup_drop by done.
    assert (0 ≤ out_y * output_width) by (apply Z.mul_nonneg_nonneg; lia).
    assert (0 ≤ (out_y * output_width + out_x) * output_depth)
      by (apply Z.mul_nonneg_nonneg; lia).
    replace (Z.to_nat ((out_y * output_width + out_x) * output_depth + off) + i)%nat
      with (Z.to_nat ((out_y * output_width + out_x) * output_depth
                      + (off + Z.of_nat i))) by lia.
    rewrite lookup_reference by lia.
    by rewrite list_lookup_fmap, lookup_seqZ_lt by lia.
  - rewrite lookup_take_ge by lia.
    by rewrite list_lookup_fmap, lookup_seqZ_ge by lia.
Qed.

Lemma agrees_weaken (done done' : Z → Prop) (out : list Z) :
  agrees_on done out →
  (∀ u, 0 ≤ u < Z.of_nat (length reference) → done' u → done u) →
  agrees_on done' out.
Proof.
  intros [Hlen Hdone] Himp. split; [done|].
  intros u Hu Hd. apply Hdone; [done|]. apply Himp; [lia|done].
Qed.

Lemma agrees_write (done : Z → Prop) (out vals : list Z) (base : nat) :
  agrees_on done out →
  (base + length vals ≤ length reference)%nat →
  vals = take (length vals) (drop base reference) →
  agrees_on (λ u, done u ∨ Z.of_nat base ≤ u < Z.of_nat base + Z.of_nat (length vals))
    (list_inserts base vals out).
Proof.
  intros [Hlen Hdone] Hfit Hvals. split; [by rewrite length_inserts|].
  intros u Hu Hd.
  destruct (decide (base ≤ u < base + length vals)%nat) as [Hin|Hout].
  - rewrite list_lookup_inserts by lia.
    rewrite Hvals at 1. rewrite lookup_take_lt, lookup_drop by lia.
    f_equal. lia.
  - destruct Hd as [Hd|Hd]; [|lia].
    destruct (decide (u < base)%nat).
    + rewrite list_lookup_inserts_lt by done. by apply Hdone.
    + rewrite list_lookup_inserts_ge by lia. by apply Hdone.
Qed.

Lemma agrees_everywhere (out : list Z) :
  agrees_on (λ _, True) out → out = reference.
Proof.
  intros [Hlen Hdone]. apply list_eq. intros u.
  destruct (decide (u < length reference)%nat) as [Hu|Hu]; [by apply Hdone|].
  rewrite !lookup_ge_None_2; [done|lia..].
Qed.

End ReferenceLayout.

Section SpecRun.
Context `{GatewareConstants}.
Variable rescale : Z → Z → Z → Z.
Variable params : ConvParams.
Variables input_height input_width input_depth : Z.
Variables output_height output_width output_depth : Z.
Variables (input_data filter_data bias output_multiplier output_shift : list Z).

Local Instance specified : Accelerator accel := spec_accelerator rescale.

Local Abbreviation input_shape := (input_shape4 input_height input_width input_depth).
Local Abbreviation filter_shape := (filter_shape4 input_depth output_depth).
Local Abbreviation output_shape := (output_shape4 output_height output_width output_depth).
Local Abbreviation state := (accel_state params).
Local Abbreviation filter_of := (tile_filter input_depth output_depth filter_data).
Local Abbreviation registers_of := (tile_registers bias output_multiplier output_shift).
Local Abbreviation window_of :=
  (pixel_window params input_height input_width input_depth input_data).
Local Abbreviation reference :=
  (reference_ConvPerChannel rescale params output_multiplier output_shift
     input_shape input_data filter_shape filter_data bias output_shape).
Local Abbreviation value_of :=
  (reference_output_value rescale params output_multiplier output_shift
     input_shape input_data filter_shape filter_data bias).
Local Abbreviation values_of :=
  (pixel_values rescale params input_height input_width input_depth output_depth
     input_data filter_data bias output_multiplier output_shift).
Local Abbreviation agrees_on :=
  (agrees rescale params input_height input_width input_depth
     output_height output_width output_depth
     input_data filter_data bias output_multiplier output_shift).

Lemma values_of_range (out_y out_x off n : Z) :
  Forall (λ v, -128 ≤ v ≤ 127) (values_of out_y out_x off n).
Proof.
  unfold pixel_values. apply Forall_fmap, Forall_forall. intros c _.
  unfold reference_output_value, requantize. apply to_int8_range.
Qed.

Lemma length_values_of (out_y out_x off n : Z) :
  length (values_of out_y out_x off n) = Z.to_nat n.
Proof. unfold pixel_values. by rewrite length_fmap, length_seqZ. Qed.

(** Lines 140 to 147: the output queue gets the reference values of the
    channels of the tile, and the streams are back at their start. *)
Lemma compute_pixel_total (out_y out_x off n : Z) (out : list Z) :
  0 < input_depth → 0 ≤ n →
  total
    (λ m, cfu m = state (filter_of off n) 0 (window_of out_y out_x) 0
                    (registers_of off n) 0 [] ∧
          output_data m = out)
    (compute_pixel input_depth 4 4 off n)
    (λ _ m', cfu m' = state (filter_of off n) 0 (window_of out_y out_x) 0
                        (registers_of off n) 0 (values_of out_y out_x off n) ∧
             output_data m' = out).
Proof.
  intros Hd Hn. unfold compute_pixel, for_range.
  replace (off + n - off) with n by lia.
  pose proof (total_for_count
    (λ (out_channel : Z) (_ : ()),
       bind (command (EvAdvanceFilterInput (Z.quot (4 * 4 * input_depth) 16))
               (AdvanceFilterInput (Z.quot (4 * 4 * input_depth) 16)))
         (λ _, bind (query EvMultiplyAccumulate multiply_accumulate)
                 (λ acc, command (EvPostProcess acc) (PostProcess acc))))
    (λ _, tt)
    (λ k m, cfu m = state (filter_of off n)
                      (wrap_cursor (16 * (Z.to_nat input_depth * k))
                         (length (filter_of off n)))
                      (window_of out_y out_x) 0 (registers_of off n)
                      (wrap_cursor k (Z.to_nat n))
                      (values_of out_y out_x off (Z.of_nat k)) ∧
            output_data m = out)
    (Z.to_nat n) off 1) as Hloop.
  eapply total_weaken; [apply Hloop|..].
  - intros k Hk m [Hcfu Hout].
    eexists tt, _. split; [reflexivity|]. split; [done|].
    cbn [cfu output_data]. split; [|done]. rewrite Hcfu.
    cbn [AdvanceFilterInput multiply_accumulate PostProcess specified spec_accelerator].
    rewrite (channel_step rescale params input_height input_width input_depth
               output_depth input_data filter_data bias output_multiplier output_shift
               out_y out_x off n k) by done.
    f_equal. unfold pixel_values. by rewrite seqZ_S, fmap_app.
  - intros m [Hcfu Hout]. split; [|done]. rewrite Hcfu.
    unfold wrap_cursor. rewrite Nat.mul_0_r, Nat.mul_0_r.
    by repeat case_decide.
  - intros [] m [_ [Hcfu Hout]]. split; [|done]. rewrite Hcfu.
    rewrite !wrap_cursor_ge, Z2Nat.id; [done|lia|lia|].
    rewrite length_tile_filter by lia. lia.
Qed.

Lemma drop_four (vals : list Z) (k : nat) :
  (4 * k + 4 ≤ length vals)%nat →
  ∃ b0 b1 b2 b3 rest,
    drop (4 * k) vals = b0 :: b1 :: b2 :: b3 :: rest ∧
    rest = drop (4 * Datatypes.S k) vals.
Proof.
  intros Hlen.
  assert (Hl : (4 ≤ length (drop (4 * k) vals))%nat) by (rewrite length_drop; lia).
  destruct (drop (4 * k) vals) as [|b0 [|b1 [|b2 [|b3 rest]]]] eqn:Hdrop;
    simpl in Hl; try lia.
  exists b0, b1, b2, b3, rest. split; [done|].
  replace (4 * Datatypes.S k)%nat with (4 * k + 4)%nat by lia.
  by rewrite <- drop_drop, Hdrop.
Qed.

(** Lines 151 to 154: the queue is emptied into memory at
    [output_data32_base]. *)
Lemma drain_pixel_total (filters inputs : list Z) (registers : list (Z * Z * Z))
    (vals out : list Z) (base n : Z) :
  0 ≤ base → (4 | n) → 0 ≤ n →
  length vals = Z.to_nat n →
  Forall (λ v, -128 ≤ v ≤ 127) vals →
  base + n ≤ Z.of_nat (length out) →
  total
    (λ m, cfu m = state filters 0 inputs 0 registers 0 vals ∧ output_data m = out)
    (drain_pixel n base)
    (λ _ m', cfu m' = state filters 0 inputs 0 registers 0 [] ∧
             output_data m' = list_inserts (Z.to_nat base) vals out).
Proof.
  intros Hbase [q ->] Hn Hlen Hrange Hfit. unfold drain_pixel, for_words.
  replace ((q * 4 + 3) `div` 4) with q by (apply Z.div_unique with 3; lia).
  eapply total_bind; [|intros a m Hm; exists tt, m; split; [done|]; revert Hm].
  - pose proof (total_for_count
      (λ (i output_data32 : Z),
         bind (query EvGetOutputWord GetOutputWord)
           (λ w, bind (store32 output_data32 w) (λ _, ret (output_data32 + 4))))
      (λ k, base + 4 * Z.of_nat k)
      (λ k m, cfu m = state filters 0 inputs 0 registers 0 (drop (4 * k) vals) ∧
              output_data m = list_inserts (Z.to_nat base) (take (4 * k) vals) out)
      (Z.to_nat q) 0 4) as Hloop.
    cbn beta in Hloop.
    replace (base + 4 * Z.of_nat 0) with base in Hloop by lia.
    eapply total_weaken; [apply Hloop|..].
    + intros k Hk m [Hcfu Hout].
      destruct (drop_four vals k) as (b0 & b1 & b2 & b3 & rest & Hdrop & Hrest); [lia|].
      assert (Hbytes : word_bytes (pack_word [b0; b1; b2; b3]) = [b0; b1; b2; b3]).
      { assert (Hsub : Forall (λ v, -128 ≤ v ≤ 127) (drop (4 * k) vals))
          by (by apply Forall_drop).
        rewrite Hdrop in Hsub.
        apply Forall_cons in Hsub as [? Hsub]. apply Forall_cons in Hsub as [? Hsub].
        apply Forall_cons in Hsub as [? Hsub]. apply Forall_cons in Hsub as [? Hsub].
        by apply word_bytes_pack_word. }
      unfold bind, query, store32, ret. cbn [cfu output_data trace fst snd].
      rewrite Hcfu, Hout, length_inserts.
      cbn [GetOutputWord specified spec_accelerator spec_GetOutputWord fst snd
           output_queue accel_state].
      rewrite Hdrop. cbn [take drop].
      assert ((0 <=? base + 4 * Z.of_nat k) &&
              (base + 4 * Z.of_nat k + 4 <=? Z.of_nat (length out)) = true) as ->.
      { apply andb_true_intro. split; [apply Z.leb_le|apply Z.leb_le]; lia. }
      eexists _, _. split; [reflexivity|]. cbn [cfu output_data].
      split; [lia|]. split.
      * unfold accel_state. cbn. by rewrite Hrest.
      * rewrite take_0, Hbytes.
        replace (4 * Datatypes.S k)%nat with (4 * k + 4)%nat by lia.
        rewrite <- take_take_drop, Hdrop. cbn [take].
        rewrite list_inserts_app_l, length_take_le by lia.
        f_equal. lia.
    + intros m [Hcfu Hout]. by rewrite Nat.mul_0_r, drop_0, take_0.
    + intros a' m Hm. exact Hm.
  - intros [_ [Hcfu Hout]]. split.
    + rewrite Hcfu. f_equal. apply drop_ge. lia.
    + rewrite Hout. f_equal. apply take_ge. lia.
Qed.

Lemma written_next (off n p u : Z) :
  0 < output_depth → 0 ≤ u →
  written output_depth off n (p + 1) u →
  written output_depth off n p u ∨
  p * output_depth + off ≤ u < p * output_depth + off + n.
Proof.
  intros Hod Hu. unfold written.
  pose proof (Z.div_mod u output_depth ltac:(lia)) as Hdm.
  intros [Hlow|[Hhigh Hp]]; [by left; left|].
  destruct (decide (u `div` output_depth < p)); [by left; right|].
  destruct (decide (u `mod` output_depth < off)); [by left; left|].
  right. assert (u `div` output_depth = p) as Hq by lia.
  rewrite Hq in Hdm. lia.
Qed.

(** Lines 128 to 157 on the specified accelerator: the channels of the tile
    at the pixel get their reference values, and nothing else changes. *)
Lemma process_pixel_total (off n out_y out_x : Z) :
  0 < input_depth →
  Z.quot (input_depth * 4 * 4) 4 ≤ MAX_INPUT_WORDS →
  0 ≤ out_y < output_height → 0 ≤ out_x < output_width →
  out_x * stride_width params + 4 ≤ input_width →
  (4 | output_depth) → (4 | n) → 0 < n → 0 ≤ off → off + n ≤ output_depth →
  total
    (λ m, (∃ inputs cursor,
             cfu m = state (filter_of off n) 0 inputs cursor (registers_of off n) 0 []) ∧
          agrees_on (written output_depth off n (out_y * output_width + out_x))
            (output_data m))
    (process_pixel (stride_width params) input_shape input_data input_width input_depth
       4 4 output_depth off n (out_y * stride_height params) out_x
       ((out_y * output_width + out_x) * output_depth + off))
    (λ a m', a = (out_y * output_width + out_x + 1) * output_depth + off ∧
             (∃ inputs cursor,
                cfu m' = state (filter_of off n) 0 inputs cursor (registers_of off n) 0 []) ∧
             agrees_on (written output_depth off n (out_y * output_width + out_x + 1))
               (output_data m')).
Proof.
  intros Hd Hwords Hy Hx Hcol [qd Hqd] Hn4 Hn Hoff Hfit m [(inputs & cursor & Hcfu) Hag].
  set (pixel := out_y * output_width + out_x) in *.
  assert (Hpixel : 0 ≤ pixel < output_height * output_width) by (unfold pixel; nia).
  assert (Hlen : length (output_data m) = length reference) by apply Hag.
  pose proof (length_reference rescale params input_height input_width input_depth
                output_height output_width output_depth input_data filter_data bias
                output_multiplier output_shift) as Hreflen.
  assert (Hbase : 0 ≤ pixel * output_depth + off) by nia.
  assert (Hin : pixel * output_depth + off + n ≤ Z.of_nat (length reference)).
  { rewrite Hreflen. nia. }
  unfold process_pixel. cbv zeta.
  rewrite !bind_DCHECK_true by (by apply Z.leb_le).
  unfold bind at 1. cbn [command].
  match goal with
  | |- context [bind (compute_pixel _ _ _ _ _) _ ?m1] =>
      destruct (compute_pixel_total out_y out_x off n (output_data m) Hd ltac:(lia) m1)
        as ([] & m2 & Hrun2 & Hcfu2 & Hout2)
  end.
  { cbn [cfu output_data]. split; [|reflexivity]. rewrite Hcfu. reflexivity. }
  unfold bind at 1. rewrite Hrun2.
  destruct (drain_pixel_total (filter_of off n) (window_of out_y out_x)
              (registers_of off n) (values_of out_y out_x off n) (output_data m)
              (pixel * output_depth + off) n Hbase Hn4 ltac:(lia)
              (length_values_of out_y out_x off n) (values_of_range out_y out_x off n)
              ltac:(lia) m2 (conj Hcfu2 Hout2))
    as ([] & m3 & Hrun3 & Hcfu3 & Hout3).
  unfold bind at 1. rewrite Hrun3. unfold ret.
  eexists _, _. split; [reflexivity|]. split; [|split].
  - rewrite Hqd, Z.quot_mul by lia. ring.
  - by exists (window_of out_y out_x), 0%nat.
  - rewrite Hout3.
    eapply agrees_weaken.
    + apply agrees_write; [exact Hag| |].
      * rewrite length_values_of. lia.
      * rewrite length_values_of. symmetry. apply reference_slice; lia.
    + intros u Hu Hw. cbn beta. rewrite length_values_of.
      apply written_next in Hw as [Hw|Hw]; [by left|right; lia|lia|lia].
Qed.

(** Lines 124 to 158: one row of pixels of the tile. *)
Lemma process_row_total (off n out_y : Z) :
  0 < input_depth →
  Z.quot (input_depth * 4 * 4) 4 ≤ MAX_INPUT_WORDS →
  0 < stride_height params → 0 < stride_width params →
  output_height = (input_height - 4) `div` stride_height params + 1 →
  output_width = (input_width - 4) `div` stride_width params + 1 →
  0 ≤ output_width → 0 ≤ out_y < output_height →
  (4 | output_depth) → (4 | n) → 0 < n → 0 ≤ off → off + n ≤ output_depth →
  total
    (λ m, (∃ inputs cursor,
             cfu m = state (filter_of off n) 0 inputs cursor (registers_of off n) 0 []) ∧
          agrees_on (written output_depth off n (out_y * output_width)) (output_data m))
    (process_row (stride_width params) (stride_height params) input_shape input_data
       input_height input_width input_depth 4 4 output_width output_depth off n
       out_y (out_y * output_width * output_depth + off))
    (λ a m', a = (out_y + 1) * output_width * output_depth + off ∧
             (∃ inputs cursor,
                cfu m' = state (filter_of off n) 0 inputs cursor (registers_of off n) 0 []) ∧
             agrees_on (written output_depth off n ((out_y + 1) * output_width))
               (output_data m')).
Proof.
  intros Hd Hwords Hsh Hsw Hoh How Hw Hy Hod Hn4 Hn Hoff Hfit.
  unfold process_row. cbv zeta.
  eapply total_bind.
  { apply total_DCHECK, Z.leb_le, valid_padding_window; [done|]. by rewrite <- Hoh. }
  intros [].
  pose proof (total_for_range
    (process_pixel (stride_width params) input_shape input_data input_width input_depth
       4 4 output_depth off n (out_y * stride_height params))
    (λ out_x, (out_y * output_width + out_x) * output_depth + off)
    (λ out_x m,
       (∃ inputs cursor,
          cfu m = state (filter_of off n) 0 inputs cursor (registers_of off n) 0 []) ∧
       agrees_on (written output_depth off n (out_y * output_width + out_x))
         (output_data m))
    0 output_width Hw) as Hloop.
  cbn beta in Hloop.
  replace (out_y * output_width + 0) with (out_y * output_width) in Hloop by lia.
  replace (out_y * output_width + output_width) with ((out_y + 1) * output_width)
    in Hloop by lia.
  apply Hloop. intros out_x Hx.
  replace (out_y * output_width + (out_x + 1)) with (out_y * output_width + out_x + 1)
    by lia.
  apply process_pixel_total; try done.
  apply valid_padding_window; [done|]. by rewrite <- How.
Qed.

(** Lines 113 to 158: the tile of [n] channels at [off] gets its reference
    values at every pixel; the channels below it keep theirs. *)
Lemma process_tile_total (tile off : Z) :
  0 < input_depth →
  Z.quot (input_depth * 4 * 4) 4 ≤ MAX_INPUT_WORDS →
  0 < stride_height params → 0 < stride_width params →
  output_height = (input_height - 4) `div` stride_height params + 1 →
  output_width = (input_width - 4) `div` stride_width params + 1 →
  0 ≤ output_height → 0 ≤ output_width →
  (4 | output_depth) → (4 | tile) → 0 < tile → (4 | off) → 0 ≤ off < output_depth →
  total
    (λ m, (∃ filters filter_pos inputs input_pos registers register_pos,
             cfu m = state filters filter_pos inputs input_pos registers register_pos []) ∧
          agrees_on (λ u, u `mod` output_depth < off) (output_data m))
    (process_tile (stride_width params) (stride_height params)
       output_multiplier output_shift input_shape input_data
       filter_shape filter_data bias output_shape
       input_height input_width input_depth 4 4
       output_height output_width output_depth tile off)
    (λ _ m',
       (∃ filters filter_pos inputs input_pos registers register_pos,
          cfu m' = state filters filter_pos inputs input_pos registers register_pos []) ∧
       agrees_on (λ u, u `mod` output_depth < off + tile) (output_data m')).
Proof.
  intros Hd Hwords Hsh Hsw Hoh How Hh Hw Hod Htile4 Htile Hoff4 Hoff.
  unfold process_tile. cbv zeta.
  set (n := Z.min (output_depth - off) tile).
  assert (Hn4 : (4 | n)).
  { unfold n. destruct (Z.min_spec (output_depth - off) tile) as [[_ ->]|[_ ->]];
      [by apply Z.divide_sub_r|done]. }
  assert (Hn : 0 < n ∧ off + n ≤ output_depth) by lia.
  intros m [(filters & fp & inputs & ip & registers & rp & Hcfu) Hag].
  unfold bind at 1. cbn [command]. unfold bind at 1. cbn [command cfu output_data trace].
  pose proof (total_for_range
    (process_row (stride_width params) (stride_height params) input_shape input_data
       input_height input_width input_depth 4 4 output_width output_depth off n)
    (λ out_y, out_y * output_width * output_depth + off)
    (λ out_y m,
       (∃ inputs cursor,
          cfu m = state (filter_of off n) 0 inputs cursor (registers_of off n) 0 []) ∧
       agrees_on (written output_depth off n (out_y * output_width)) (output_data m))
    0 output_height Hh) as Hloop.
  cbn beta in Hloop.
  replace (0 * output_width * output_depth + off)
    with (Offset output_shape 0 0 0 off) in Hloop
    by (unfold output_shape4; rewrite Offset_shape4; lia).
  match goal with
  | |- context [bind (for_range _ _ _ _) _ ?m1] =>
      destruct (Hloop ltac:(intros; apply process_row_total; (done || lia)) m1)
        as (a & m2 & Hrun & _ & Hidle & Hag2)
  end.
  { cbn [cfu output_data]. split.
    - exists inputs, ip. rewrite Hcfu. reflexivity.
    - eapply agrees_weaken; [exact Hag|].
      intros u Hu. unfold written.
      pose proof (Z.div_pos u output_depth ltac:(lia) ltac:(lia)). lia. }
  unfold bind at 1. rewrite Hrun. exists tt, m2. split; [reflexivity|].
  destruct Hidle as (inputs2 & ip2 & Hcfu2). split; [by eexists _, _, _, _, _, _|].
  eapply agrees_weaken; [exact Hag2|].
  intros u Hu Hlt. unfold written.
  rewrite (length_reference rescale params input_height input_width input_depth
             output_height output_width output_depth input_data filter_data bias
             output_multiplier output_shift) in Hu.
  pose proof (Z.mod_pos_bound u output_depth ltac:(lia)).
  destruct (decide (u `mod` output_depth < off)); [by left|right].
  split; [lia|].
  apply Z.div_lt_upper_bound; [lia|]. nia.
Qed.

(** C1, amended.  With the accelerator given the semantics the
    specification states for its protocol, a call that meets the engine's
    contract, on an input of positive depth at most [MAX_FILTER_WORDS / 16]
    and an output whose depth is a multiple of 4, starting with the
    accelerator idle (accumulator at zero, output queue empty) and enough
    fuel for one tile per output channel, completes, and the output tensor
    it leaves is, byte for byte, the output of the reference per-channel
    convolution. *)
Theorem ConvPerChannel4x4_computes_reference
    (fuel : nat) (bias_shape : RuntimeShape) (m : machine accel) :
  engine_contract params bias_shape (Some bias) input_height input_width input_depth
    output_height output_width output_depth →
  0 < input_depth → input_depth ≤ MAX_FILTER_WORDS `div` 16 →
  0 ≤ output_height → 0 ≤ output_width → 0 ≤ output_depth → (4 | output_depth) →
  accumulator (cfu m) = 0 → output_queue (cfu m) = [] →
  Z.of_nat (length (output_data m)) = FlatSize output_shape →
  (Z.to_nat output_depth < fuel)%nat →
  ∃ m',
    ConvPerChannel4x4 fuel params output_multiplier output_shift
      input_shape input_data filter_shape filter_data bias_shape (Some bias)
      output_shape m = Done tt m' ∧
    output_data m' =
      reference_ConvPerChannel rescale params output_multiplier output_shift
        input_shape input_data filter_shape filter_data bias output_shape.
Proof.
  intros Hcontract Hd Hdeep Hh Hw Hod Hod4 Hacc Hqueue Hlen Hfuel.
  assert (Hcap : 0 < MAX_FILTER_WORDS).
  { pose proof (Z.mul_div_le MAX_FILTER_WORDS 16 ltac:(lia)). lia. }
  assert (Hwords : filter_words_per_output_channel input_depth 4 4 = 4 * input_depth).
  { unfold filter_words_per_output_channel.
    replace (input_depth * 4 * 4) with (4 * input_depth * 4) by lia.
    by rewrite Z.quot_mul. }
  pose proof (max_output_channels_per_load_spec
                (filter_words_per_output_channel input_depth 4 4) ltac:(lia)) as Htile.
  set (tile := Z.quot (Z.quot MAX_FILTER_WORDS _) 4 * 4) in Htile.
  destruct (tile_size_positive_iff input_depth tile Hcap Hd Htile) as (_ & Hpos & _).
  apply Hpos in Hdeep. clear Hpos.
  pose proof (max_output_channels_per_load_divide _ _ Htile) as Htile4.
  clearbody tile.
  destruct (ConvPerChannel4x4_main_loop params input_height input_width input_depth
              output_height output_width output_depth input_data filter_data
              output_multiplier output_shift bias_shape (Some bias) fuel tile m
              Hcontract Htile) as (bias' & [= <-] & ->).
  destruct Hcontract as [_ _ _ _ _ Hsh Hsw Hoh How Hin].
  pose proof (length_reference rescale params input_height input_width input_depth
                output_height output_width output_depth input_data filter_data bias
                output_multiplier output_shift) as Hreflen.
  pose proof (total_for_fuel
    (process_tile (stride_width params) (stride_height params)
       output_multiplier output_shift input_shape input_data
       filter_shape filter_data bias output_shape
       input_height input_width input_depth 4 4
       output_height output_width output_depth tile)
    (λ i m,
       0 ≤ i ∧ (4 | i) ∧
       (∃ filters filter_pos inputs input_pos registers register_pos,
          cfu m = state filters filter_pos inputs input_pos registers register_pos []) ∧
       agrees_on (λ u, u `mod` output_depth < i) (output_data m))
    output_depth tile Hdeep) as Hloop.
  cbn beta in Hloop.
  match type of Hloop with ?body → _ => assert (Hbody : body) end.
  { intros i Hi m0 (Hi0 & Hi4 & Hidle & Hag).
    destruct (process_tile_total tile i Hd Hin Hsh Hsw Hoh How Hh Hw Hod4 Htile4 Hdeep
                Hi4 ltac:(lia) m0 (conj Hidle Hag)) as ([] & m' & Hrun & Hidle' & Hag').
    exists tt, m'. split; [done|]. split; [lia|]. split; [by apply Z.divide_add_r|].
    done. }
  specialize (Hloop Hbody fuel 0 ltac:(lia)).
  match goal with
  | |- context [for_fuel _ _ _ _ _ ?m1] =>
      destruct (Hloop m1) as ([] & m' & Hrun & i & Hi & _ & _ & _ & Hag)
  end.
  - cbn [cfu output_data]. split; [done|]. split; [apply Z.divide_0_r|]. split.
    + destruct (cfu m) as [? ? ? ? filters fp inputs ip registers rp acc queue].
      cbn in Hacc, Hqueue. subst acc queue.
      by exists filters, fp, inputs, ip, registers, rp.
    + split.
      * apply Nat2Z.inj. rewrite Hlen, Hreflen. unfold output_shape4, FlatSize.
        cbn [foldr]. rewrite !Nat2Z.inj_mul, !Z2Nat.id by lia. lia.
      * intros u Hu Hneg. rewrite Hreflen in Hu.
        assert (0 < output_depth) by nia.
        pose proof (Z.mod_pos_bound (Z.of_nat u) output_depth ltac:(lia)). lia.
  - exists m'. split; [exact Hrun|].
    apply (agrees_everywhere rescale params input_height input_width input_depth
             output_height output_width output_depth input_data filter_data bias
             output_multiplier output_shift).
    eapply agrees_weaken; [exact Hag|].
    intros u Hu _. rewrite Hreflen in Hu.
    assert (0 < output_depth) by nia.
    pose proof (Z.mod_pos_bound u output_depth ltac:(lia)). cbn beta. lia.
Qed.

End SpecRun.

(* ================================================================= *)
(** * Part III: the properties on concrete calls *)
(* ================================================================= *)

(** The sample call of output depth 8 and the deep call meet the engine's
    contract. *)
Lemma sample_call_contract :
  engine_contract (H := small_gateware) sample_params [8] (Some (seqZ 1 8)) 4 5 1 1 2 8.
Proof. split; by vm_compute. Qed.

Lemma deep_call_contract :
  engine_contract (H := small_gateware) sample_params [4] (Some (seqZ 1 4)) 4 4 4 1 1 4.
Proof. split; by vm_compute. Qed.

Lemma sample_call_completes :
  ConvPerChannel4x4 (H := small_gateware)
    (H0 := spec_accelerator MultiplyByQuantizedMultiplier) 10 sample_params
    (sample_multiplier 8) (sample_shift 8)
    (input_shape4 4 5 1) (sample_input 20)
    (filter_shape4 1 8) (sample_filter (16 * 8))
    [8] (Some (seqZ 1 8))
    (output_shape4 1 2 8)
    (sample_machine (2 * 8)) = Done tt (final (sample_call 8 10)).
Proof. vm_compute. reflexivity. Qed.

(** The engine on the sample call of output depth 8 leaves the reference
    output. *)
Lemma sample_call_computes_reference :
  ∃ m', sample_call 8 10 = Done tt m' ∧ output_data m' = sample_reference 8.
Proof.
  unfold sample_call, sample_reference.
  apply (@ConvPerChannel4x4_computes_reference small_gateware
           MultiplyByQuantizedMultiplier sample_params 4 5 1 1 2 8
           (sample_input 20) (sample_filter (16 * 8)) (seqZ 1 8)
           (sample_multiplier 8) (sample_shift 8) 10%nat [8] (sample_machine (2 * 8))).
  - exact sample_call_contract.
  - lia.
  - by vm_compute.
  - lia.
  - lia.
  - lia.
  - by exists 2.
  - reflexivity.
  - reflexivity.
  - vm_compute. reflexivity.
  - vm_compute. lia.
Defined.

(** C1 does not hold as the specification states it: the call of output
    depth 6 is eligible and completes, and the output it leaves is not the
    reference output; the deep call is eligible and does not complete with
    any fuel. *)
Lemma sample_call_of_depth_6_differs_from_reference :
  (CanAccelerateConv4x4 sample_params (input_shape4 4 5 1) (filter_shape4 1 6)
     (output_shape4 1 2 6) (Some (seqZ 1 6)) = Ok true ∧
   ∃ m',
     sample_call 6 10 = Done tt m' ∧
     output_data m' = [-4; -19; -9; 0; 17; 16; 0; 0; 7; -30; 0; 0] ∧
     sample_reference 6 = [-4; -19; -9; 0; 17; 16; -7; 18; 16; 3; 7; -30] ∧
     output_data m' ≠ sample_reference 6) ∧
  (CanAccelerateConv4x4 sample_params (input_shape4 4 4 4) (filter_shape4 4 4)
     (output_shape4 1 1 4) (Some (seqZ 1 4)) = Ok true ∧
   ∀ fuel, ∃ m', deep_call fuel = Failed OutOfFuel m').
Proof.
  split.
  - split; [by vm_compute|].
    exists (final (sample_call 6 10)).
    split; [by vm_compute|]. split; [by vm_compute|]. split; [by vm_compute|].
    vm_compute. congruence.
  - split; [by vm_compute|]. intros fuel.
    destruct (@ConvPerChannel4x4_zero_tile small_gateware accel
                (spec_accelerator MultiplyByQuantizedMultiplier) sample_params
                4 4 4 1 1 4 (sample_input 64) (sample_filter 256)
                (sample_multiplier 4) (sample_shift 4) [4] (Some (seqZ 1 4))
                fuel (sample_machine 4))
      as (m' & l & Hrun & _);
      [lia|lia|lia|exact deep_call_contract|by vm_compute|].
    by exists m'.
Qed.

(** The tile size of the small gateware for an input of depth 1. *)
Lemma tile_size_of_small_gateware :
  ∃ tile,
    max_output_channels_per_load (H := small_gateware)
      (filter_words_per_output_channel 1 4 4) = Ok tile ∧
    (4 | tile) ∧
    filter_words_per_output_channel 1 4 4 * tile ≤ 16.
Proof.
  destruct (@tile_size_multiple_of_4_and_fits small_gateware 1)
    as (_ & tile & Htile & _ & Hdiv & _ & Hfit); [by vm_compute..|].
  by exists tile.
Defined.

(** The tiles of the sample call of output depth 8. *)
Lemma sample_call_tiles :
  ∃ m',
    sample_call 8 10 = Done tt m' ∧
    (t ← tiles_of (call_of <$> trace m'); tile_channels t) = seqZ 0 8.
Proof.
  exists (final (sample_call 8 10)). split; [by vm_compute|].
  destruct (@tiles_cover_every_output_channel_once small_gateware accel
              (spec_accelerator MultiplyByQuantizedMultiplier) sample_params
              4 5 1 1 2 8 (sample_input 20) (sample_filter (16 * 8))
              (sample_multiplier 8) (sample_shift 8) 10%nat [8] (Some (seqZ 1 8))
              (sample_machine (2 * 8)) (final (sample_call 8 10))
              ltac:(lia) ltac:(lia) sample_call_completes)
    as (tile & l & _ & Ht & _ & _ & Hcover).
  rewrite Ht. exact Hcover.
Defined.

(** C4 does not hold as the specification states it: the deep call is
    eligible, its tile size is zero, and with any fuel the tiles it has
    visited when the fuel runs out are all the empty tile at offset 0, which
    cover no output channel. *)
Lemma deep_call_tiles_cover_no_channel :
  CanAccelerateConv4x4 sample_params (input_shape4 4 4 4) (filter_shape4 4 4)
    (output_shape4 1 1 4) (Some (seqZ 1 4)) = Ok true ∧
  max_output_channels_per_load (H := small_gateware)
    (filter_words_per_output_channel 4 4 4) = Ok 0 ∧
  ∀ fuel, ∃ m',
    deep_call fuel = Failed OutOfFuel m' ∧
    tiles_of (call_of <$> trace m') = replicate fuel (0, 0) ∧
    (t ← tiles_of (call_of <$> trace m'); tile_channels t) = [] ∧
    (t ← tiles_of (call_of <$> trace m'); tile_channels t) ≠ seqZ 0 4.
Proof.
  split; [by vm_compute|]. split; [by vm_compute|]. intros fuel.
  destruct (@ConvPerChannel4x4_zero_tile small_gateware accel
              (spec_accelerator MultiplyByQuantizedMultiplier) sample_params
              4 4 4 1 1 4 (sample_input 64) (sample_filter 256)
              (sample_multiplier 4) (sample_shift 4) [4] (Some (seqZ 1 4))
              fuel (sample_machine 4))
    as (m' & l & Hrun & Ht & Htiles);
    [lia|lia|lia|exact deep_call_contract|by vm_compute|].
  exists m'. split; [exact Hrun|].
  rewrite Ht. change (trace (sample_machine 4) ++ l) with l. rewrite Htiles.
  assert (Hnone : (t ← replicate fuel (0, 0); tile_channels t) = []).
  { clear. induction fuel as [|fuel IH]; [done|].
    cbn [replicate]. by rewrite bind_cons, IH. }
  split; [done|]. split; [done|]. by rewrite Hnone.
Qed.

(** The drain of the sample call of output depth 8. *)
Lemma sample_call_drain :
  ∃ m',
    sample_call 8 10 = Done tt m' ∧
    call_of <$> trace m' =
      engine_calls sample_params 4 5 1 1 2 8 4 (specified_drain 1 2 8) ∧
    stores_of (trace m') = [0; 8; 4; 12].
Proof.
  exists (final (sample_call 8 10)). split; [by vm_compute|].
  destruct (@drain_places_words_at_pixel_and_tile small_gateware accel
              (spec_accelerator MultiplyByQuantizedMultiplier) sample_params
              4 5 1 1 2 8 (sample_input 20) (sample_filter (16 * 8))
              (sample_multiplier 8) (sample_shift 8) 10%nat [8] (Some (seqZ 1 8))
              (sample_machine (2 * 8)) (final (sample_call 8 10))
              ltac:(by exists 2) ltac:(lia) ltac:(lia) sample_call_completes)
    as [(tile & l & Htile & Ht & _ & Hcalls) _].
  split; [|by vm_compute].
  rewrite Ht. change (trace (sample_machine (2 * 8)) ++ l) with l.
  vm_compute in Htile. injection Htile as <-. exact Hcalls.
Defined.

(** C5 does not hold as the specification states it: with output depth 6
    and a tile size of 4 the tiles are the channels 0 to 3 and 4 to 5, the
    second tile drains one word for each pixel where [output_channels / 4]
    is zero, the words of the second pixel go to the byte offsets 4 and 8
    where the pixel is at offset 6, and the output is not the reference
    output. *)
Lemma sample_call_of_depth_6_misplaces_words :
  max_output_channels_per_load (H := small_gateware)
    (filter_words_per_output_channel 1 4 4) = Ok 4 ∧
  ∃ m',
    sample_call 6 10 = Done tt m' ∧
    tiles_of (call_of <$> trace m') = [(0, 4); (4, 2)] ∧
    stores_of (trace m') = [0; 4; 4; 8] ∧
    Offset (output_shape4 1 2 6) 0 0 1 0 = 6 ∧
    Z.quot 2 4 = 0 ∧
    call_of <$> trace m' ≠
      engine_calls sample_params 4 5 1 1 2 6 4 (specified_drain 1 2 6) ∧
    output_data m' ≠ sample_reference 6.
Proof.
  split; [by vm_compute|].
  exists (final (sample_call 6 10)).
  split; [by vm_compute|]. split; [by vm_compute|]. split; [by vm_compute|].
  split; [by vm_compute|]. split; [by vm_compute|].
  split; vm_compute; congruence.
Qed.


(** The calls of the sample call of output depth 8. *)
Lemma sample_call_protocol :
  ∃ m' l,
    sample_call 8 10 = Done tt m' ∧
    trace m' = l ∧
    values_passed_on l = true ∧
    omap (λ c, match c with
               | CAdvanceFilterInput iterations => Some iterations
               | _ => None
               end) (call_of <$> l) = replicate 16 1.
Proof.
  destruct (@channel_protocol_of_every_pixel small_gateware accel
              (spec_accelerator MultiplyByQuantizedMultiplier) sample_params
              4 5 1 1 2 8 (sample_input 20) (sample_filter (16 * 8))
              (sample_multiplier 8) (sample_shift 8) 10%nat [8] (Some (seqZ 1 8))
              (sample_machine (2 * 8)) (final (sample_call 8 10))
              ltac:(lia) ltac:(lia) sample_call_completes)
    as [(tile & l & Htile & Ht & Hvalues & Hcalls) _].
  exists (final (sample_call 8 10)), l.
  split; [by vm_compute|]. split; [exact Ht|]. split; [exact Hvalues|].
  rewrite Hcalls. vm_compute in Htile. injection Htile as <-.
  by vm_compute.
Defined.

(** The table of the test case [two_bytes_data]: the first row has the two
    words and their star, and no result for the comparison with
    [expected_words[-4]]. *)
Lemma two_bytes_table_reads_out_of_bounds :
  Conv2dCall.count_diffs
    (Conv2dCall.kernel_output bias_kernel two_bytes_data (replicate 128 0))
    (Conv2dCall.output_data two_bytes_data)
    (FlatSize (Conv2dCall.output_shape two_bytes_data)) ≠ 0 ∧
  Conv2dCall.TableRow 0 (Some 67305985) (Some 67305472) (Some true) None
    ∈ Conv2dCall.printed
        (Conv2dCall.test_conv2d bias_kernel two_bytes_data (replicate 128 0)) ∧
  Conv2dCall.WordRead Conv2dCall.ExpectedWords (0 - 4)
    ∈ Conv2dCall.word_reads
        (Conv2dCall.test_conv2d bias_kernel two_bytes_data (replicate 128 0)) ∧
  Conv2dCall.word_at (Conv2dCall.output_data two_bytes_data) (0 - 4) = None.
Proof.
  assert (Hdiff : Conv2dCall.count_diffs
            (Conv2dCall.kernel_output bias_kernel two_bytes_data (replicate 128 0))
            (Conv2dCall.output_data two_bytes_data)
            (FlatSize (Conv2dCall.output_shape two_bytes_data)) ≠ 0)
    by (by vm_compute).
  split; [exact Hdiff|].
  destruct (diff_table_reads_expected_words_out_of_bounds bias_kernel two_bytes_data
              (replicate 128 0) Hdiff) as [_ Hrows].
  destruct (Hrows 0 ltac:(lia)) as (Hin & Heq & _ & _ & Hread & _ & _ & Hnone).
  rewrite Heq in Hin.
  split; [exact Hin|]. split; [exact Hread|exact Hnone].
Defined.


(* ================================================================= *)
(** * Part IV: further properties of the two files *)
(* ================================================================= *)

(** ** The assertions before the main loop *)

Lemma shape_of_rank_4 (shape : RuntimeShape) :
  DimensionsCount shape = 4 →
  ∃ d0 d1 d2 d3, shape = [d0; d1; d2; d3].
Proof.
  unfold DimensionsCount.
  destruct shape as [|d0 [|d1 [|d2 [|d3 [|d4 rest]]]]]; cbn [length]; try lia.
  intros _. by exists d0, d1, d2, d3.
Qed.

Lemma MatchingDim_cases (shape1 shape2 : RuntimeShape) (i1 i2 : nat) (d1 d2 : Z) :
  shape1 !! i1 = Some d1 → shape2 !! i2 = Some d2 →
  MatchingDim shape1 i1 shape2 i2 =
  if d1 =? d2 then Ok d1 else Err (DcheckFailed ChkMatchingDim).
Proof.
  intros H1 H2. unfold MatchingDim.
  rewrite (Dims_lookup _ _ _ H1), (Dims_lookup _ _ _ H2). cbn [rbind rcheck].
  destruct (Z.eqb_spec d1 d2) as [->|]; [|done]. cbn [rbind]. by rewrite Z.min_id.
Qed.

Section Preamble.
Context `{GatewareConstants} {S : Type} `{Accelerator S}.

Lemma bind_DCHECK_false {B} c (k : unit → M S B) m :
  bind (DCHECK c false) k m = Failed (DcheckFailed c) m.
Proof. reflexivity. Qed.

Lemma bind_lift_Err {A B} e (k : A → M S B) m :
  bind (lift (Err e)) k m = Failed e m.
Proof. reflexivity. Qed.

Lemma bind_DCHECK_ptr_Some {A B} c (x : A) (k : A → M S B) m :
  bind (DCHECK_ptr c (Some x)) k m = k x m.
Proof. reflexivity. Qed.

(** One assertion, or one dimension, of the lines before the main loop: the
    call fails there, on the machine as it is, or goes on. *)
Ltac preamble_check :=
  match goal with
  | |- context [bind (DCHECK ?c ?b) _ _] =>
      let Hb := fresh "Hb" in
      destruct b eqn:Hb;
      [ rewrite bind_DCHECK_true by reflexivity
      | left; exists c; rewrite bind_DCHECK_false; by split ]
  end.

Ltac preamble_dim :=
  first
    [ erewrite MatchingDim_cases by reflexivity;
      match goal with
      | |- context [bind (lift (if ?b then _ else _)) _ _] =>
          let Hb := fresh "Hb" in
          destruct b eqn:Hb;
          [ apply Z.eqb_eq in Hb; subst; rewrite (bind_lift_Ok _ _ _ _ eq_refl)
          | left; exists ChkMatchingDim; rewrite bind_lift_Err; by split ]
      end
    | erewrite Dims_lookup by reflexivity; rewrite (bind_lift_Ok _ _ _ _ eq_refl) ].

(** Either an assertion before the main loop fails, and the machine is as
    it was, or the tensors have the shapes the engine expects, every
    assertion before the loop holds and the call is the two offsets, the
    tile size and the main loop. *)
Lemma ConvPerChannel4x4_preamble (fuel : nat) (params : ConvParams)
    (output_multiplier output_shift : list Z)
    (input_shape : RuntimeShape) (input_data : list Z)
    (filter_shape : RuntimeShape) (filter_data : list Z)
    (bias_shape : RuntimeShape) (bias_data : option (list Z))
    (output_shape : RuntimeShape) (m : machine S) :
  (∃ c,
     ConvPerChannel4x4 fuel params output_multiplier output_shift
       input_shape input_data filter_shape filter_data bias_shape bias_data
       output_shape m = Failed (DcheckFailed c) m ∧
     loop_check c = false) ∨
  (∃ bias input_height input_width input_depth output_height output_width output_depth,
     input_shape = input_shape4 input_height input_width input_depth ∧
     filter_shape = filter_shape4 input_depth output_depth ∧
     output_shape = output_shape4 output_height output_width output_depth ∧
     bias_data = Some bias ∧
     FlatSize bias_shape = output_depth ∧
     (dilation_width_factor params = 1 ∧ dilation_height_factor params = 1) ∧
     padding_type params = kValid ∧
     (width (padding_values params) = 0 ∧ height (padding_values params) = 0) ∧
     quantized_activation_min params ≤ quantized_activation_max params ∧
     (input_depth = 1 ∨ (4 | input_depth)) ∧
     ConvPerChannel4x4 fuel params output_multiplier output_shift
       input_shape input_data filter_shape filter_data bias_shape bias_data
       output_shape m =
     bind (lift (max_output_channels_per_load
                   (filter_words_per_output_channel input_depth 4 4)))
       (λ tile,
          for_fuel fuel 0 output_depth tile
            (process_tile (stride_width params) (stride_height params)
               output_multiplier output_shift input_shape input_data
               filter_shape filter_data bias output_shape
               input_height input_width input_depth 4 4
               output_height output_width output_depth tile))
       (Machine
          (SetOutputOffsets (output_offset params) (quantized_activation_min params)
             (quantized_activation_max params)
             (LoadInputOffset (input_offset params) (cfu m)))
          (output_data m)
          (trace m ++
           [EvLoadInputOffset (input_offset params);
            EvSetOutputOffsets (output_offset params)
              (quantized_activation_min params) (quantized_activation_max params)]))).
Proof.
  unfold ConvPerChannel4x4. cbv zeta.
  do 9 preamble_check.
  repeat match goal with
         | Hr : (DimensionsCount ?shape =? 4) = true |- _ =>
             apply Z.eqb_eq, shape_of_rank_4 in Hr as (? & ? & ? & ? & ->)
         end.
  preamble_dim. preamble_check. preamble_dim. preamble_check. preamble_dim.
  destruct bias_data as [bias|]; [|left; exists ChkBiasData; by split].
  rewrite bind_DCHECK_ptr_Some.
  preamble_check.
  do 3 preamble_dim. preamble_check. preamble_dim. preamble_check.
  do 2 preamble_dim.
  right.
  repeat match goal with
         | Hb : (_ =? _) = true |- _ => apply Z.eqb_eq in Hb
         | Hb : (_ <=? _) = true |- _ => apply Z.leb_le in Hb
         | Hb : PaddingType_eqb _ _ = true |- _ => apply PaddingType_eqb_eq in Hb
         | Hb : (_ || _) = true |- _ =>
             apply orb_true_iff in Hb; rewrite !Z.eqb_eq, rem4_divide in Hb
         end.
  subst.
  eexists bias, _, _, _, _, _, _.
  repeat (split; [done|]).
  unfold bind at 1. cbn [command]. unfold bind at 1. cbn [command cfu output_data trace].
  by rewrite <- app_assoc.
Qed.

End Preamble.

Lemma Dims_fault (shape : RuntimeShape) (i : nat) (e : fault) :
  Dims shape i = Err e → e = DcheckFailed ChkDimsIndex.
Proof. unfold Dims. destruct (shape !! i); [done|]. by intros [= <-]. Qed.

Lemma MatchingDim_fault (shape1 shape2 : RuntimeShape) (i1 i2 : nat) (e : fault) :
  MatchingDim shape1 i1 shape2 i2 = Err e →
  e = DcheckFailed ChkDimsIndex ∨ e = DcheckFailed ChkMatchingDim.
Proof.
  unfold MatchingDim.
  destruct (Dims shape1 i1) as [d1|e1] eqn:H1; cbn [rbind].
  { destruct (Dims shape2 i2) as [d2|e2] eqn:H2; cbn [rbind].
    - destruct (d1 =? d2); cbn [rcheck rbind]; [done|]. intros [= <-]. by right.
    - intros [= <-]. left. by eapply Dims_fault. }
  intros [= <-]. left. by eapply Dims_fault.
Qed.

Section PreambleProperties.
Context `{GatewareConstants} {S : Type} `{Accelerator S}.
Variable fuel : nat.
Variable params : ConvParams.
Variables (output_multiplier output_shift : list Z).
Variables (input_shape filter_shape bias_shape output_shape : RuntimeShape).
Variables (input_data filter_data : list Z).
Variable bias_data : option (list Z).

Local Abbreviation call :=
  (ConvPerChannel4x4 fuel params output_multiplier output_shift
     input_shape input_data filter_shape filter_data bias_shape bias_data
     output_shape).

(** After the two offsets the call fails on no assertion but the three of
    the loops. *)
Lemma never_main_loop (c : dcheck) (bias : list Z) (words : Z)
    (input_height input_width input_depth : Z)
    (output_height output_width output_depth : Z) :
  loop_check c = false →
  never
    (S := S)
    (bind (lift (max_output_channels_per_load words))
       (λ tile,
          for_fuel fuel 0 output_depth tile
            (process_tile (stride_width params) (stride_height params)
               output_multiplier output_shift input_shape input_data
               filter_shape filter_data bias output_shape
               input_height input_width input_depth 4 4
               output_height output_width output_depth tile)))
    (DcheckFailed c).
Proof.
  intros Hc.
  assert (Hne : ∀ c', loop_check c' = true → DcheckFailed c ≠ DcheckFailed c').
  { intros c' Hc' [= ->]. congruence. }
  apply never_bind_lift.
  { unfold max_output_channels_per_load, cdiv. by destruct (_ =? 0). }
  intros tile _. apply never_for_fuel; [done|]. intros off _.
  unfold process_tile.
  apply never_bind; [apply never_command|intros _].
  apply never_bind; [apply never_command|intros _].
  apply never_bind; [|done].
  apply never_for_range. intros out_y base_y Hy. unfold process_row.
  apply never_bind_DCHECK; [intros _; by apply Hne|intros _].
  apply never_for_range. intros out_x base_x Hx. unfold process_pixel.
  apply never_bind_DCHECK; [intros _; by apply Hne|intros _].
  apply never_bind_DCHECK; [intros _; by apply Hne|intros _].
  apply never_bind; [apply never_command|intros _].
  apply never_bind.
  { unfold compute_pixel. apply never_for_range. intros ? ? _.
    apply never_bind; [apply never_command|intros _].
    apply never_bind; [apply never_query|intros ?]. apply never_command. }
  intros _. apply never_bind; [|done].
  unfold drain_pixel. apply never_bind; [|done].
  apply never_for_count. intros ? ? _.
  apply never_bind; [apply never_query|intros ?].
  apply never_bind; [by apply never_store32|done].
Qed.

(** X5.  A call that completes, or that makes any call of the accelerator
    at all, is on tensors of the shapes the engine expects (batch 1, a 4x4
    filter, matching depths, one bias for each output channel, a bias that
    is not null), with zero padding values and an ordered activation range,
    and the classifier accepts it. *)
Theorem call_past_the_assertions_is_eligible (m : machine S) :
  (∃ m', call m = Done tt m') ∨ trace (final (call m)) ≠ trace m →
  ∃ bias input_height input_width input_depth output_height output_width output_depth,
    input_shape = [1; input_height; input_width; input_depth] ∧
    filter_shape = [output_depth; 4; 4; input_depth] ∧
    output_shape = [1; output_height; output_width; output_depth] ∧
    bias_data = Some bias ∧
    FlatSize bias_shape = output_depth ∧
    width (padding_values params) = 0 ∧ height (padding_values params) = 0 ∧
    quantized_activation_min params ≤ quantized_activation_max params ∧
    CanAccelerateConv4x4 params input_shape filter_shape output_shape bias_data
      = Ok true.
Proof.
  intros Hrun.
  destruct (ConvPerChannel4x4_preamble fuel params output_multiplier output_shift
              input_shape input_data filter_shape filter_data bias_shape bias_data
              output_shape m)
    as [(c & Hfail & _)
       |(bias & ih & iw & d & oh & ow & od & Hin & Hfilter & Hout & Hbias & Hsize
         & Hdil & Hpad & [Hpw Hph] & Hact & Hdepth & _)].
  - rewrite Hfail in Hrun. by destruct Hrun as [[m' ?]|?].
  - exists bias, ih, iw, d, oh, ow, od.
    repeat (split; [done|]).
    rewrite Hin, Hfilter, Hout.
    apply CanAccelerateConv4x4_eligible. rewrite Hbias. by destruct Hdil.
Qed.

(** X6.  An assertion other than the three inside the loops fails before
    the first call of the accelerator: the machine (accelerator, output
    tensor and trace) is as it was before the call. *)
Theorem failed_assertion_before_loop_leaves_machine (c : dcheck) (m m' : machine S) :
  call m = Failed (DcheckFailed c) m' →
  loop_check c = false →
  m' = m.
Proof.
  intros Hfail Hc.
  destruct (ConvPerChannel4x4_preamble fuel params output_multiplier output_shift
              input_shape input_data filter_shape filter_data bias_shape bias_data
              output_shape m)
    as [(c' & Hfail' & _)|(bias & ih & iw & d & oh & ow & od & Hrest)].
  - rewrite Hfail' in Hfail. by injection Hfail as _ <-.
  - do 10 destruct Hrest as [_ Hrest]. rewrite Hrest in Hfail.
    by apply never_main_loop in Hfail.
Qed.

(** X7.  On a call the classifier accepts, none of the engine's assertions
    on the conditions the classifier tests can fail: an assertion that fails
    is on a condition the classifier does not test (padding values,
    activation range, ranks, output depth, bias size) or one of the three
    inside the loops. *)
Theorem eligible_call_fails_only_unchecked_assertions (c : dcheck) (m m' : machine S) :
  CanAccelerateConv4x4 params input_shape filter_shape output_shape bias_data
    = Ok true →
  call m = Failed (DcheckFailed c) m' →
  classifier_check c = false.
Proof.
  intros Hel Hfail.
  destruct (classifier_check c) eqn:Hc; [exfalso|done].
  assert (Hloop : loop_check c = false) by (by destruct c).
  unfold CanAccelerateConv4x4 in Hel.
  destruct (MatchingDim input_shape 3 filter_shape 3) as [d|] eqn:Hd; [|done].
  destruct (Dims filter_shape 1) as [fh|] eqn:Hfh; [|done].
  destruct (Dims filter_shape 2) as [fw|] eqn:Hfw; [|done].
  destruct (MatchingDim input_shape 0 output_shape 0) as [b|] eqn:Hb; [|done].
  cbn [rbind] in Hel. cbv zeta in Hel. injection Hel as Hel.
  rewrite !andb_true_iff in Hel.
  destruct Hel as (((((((Hpad & Hdepth) & Hw4) & Hh4) & Hdw) & Hdh) & Hb1) & Hbias).
  apply bool_decide_eq_true in Hbias.
  destruct bias_data as [bias|]; [clear Hbias|done].
  revert Hfail. unfold ConvPerChannel4x4. cbv zeta. rewrite Hd, Hfh, Hfw, Hb.
  assert (Hne : ∀ c', classifier_check c' = false → DcheckFailed c ≠ DcheckFailed c').
  { intros c' Hc' [= ->]. congruence. }
  repeat first
    [ apply never_bind_DCHECK;
        [intros Hfalse; first [by apply Hne | congruence]|intros _]
    | apply never_bind_lift; [done|intros ? [= <-]] ].
  apply never_bind_lift.
  { intros Herr. apply MatchingDim_fault in Herr as [[= ->]|[= ->]]; done. }
  intros od _.
  apply never_bind; [by intros ? ?|intros bias'].
  repeat first
    [ apply never_bind_DCHECK;
        [intros Hfalse; first [by apply Hne | congruence]|intros _]
    | apply never_bind_lift; [done|intros ? [= <-]]
    | apply never_bind_lift;
        [intros Herr; apply Dims_fault in Herr as [= ->]; done|intros ? _]
    | apply never_bind; [apply never_command|intros _] ].
  by apply never_main_loop.
Qed.

End PreambleProperties.

(** ** The events of every run *)

Section EmitsRules.
Context {S : Type}.
Implicit Types Q : event → Prop.

Lemma emits_ret {A} (a : A) Q : emits (S := S) (ret a) Q (λ a', a' = a).
Proof.
  intros m. exists []. cbn [ret final]. rewrite app_nil_r.
  split; [done|]. split; [constructor|]. by intros a' m' [= <- _].
Qed.

Lemma emits_bind {A B} (c : M S A) (k : A → M S B) Q
    (R : A → Prop) (R' : B → Prop) :
  emits c Q R → (∀ a, R a → emits (k a) Q R') → emits (bind c k) Q R'.
Proof.
  intros Hc Hk m. destruct (Hc m) as (l1 & Ht1 & HQ1 & HR). unfold bind.
  destruct (c m) as [a m1|e m1] eqn:Hcm; cbn [final] in Ht1.
  - destruct (Hk a (HR a m1 eq_refl) m1) as (l2 & Ht2 & HQ2 & HR2).
    exists (l1 ++ l2). rewrite Ht2, Ht1, app_assoc.
    split; [done|]. split; [by apply Forall_app|done].
  - exists l1. split; [done|]. split; [done|]. by intros b m' [=].
Qed.

Lemma emits_weaken {A} (c : M S A) Q (R R' : A → Prop) :
  emits c Q R → (∀ a, R a → R' a) → emits c Q R'.
Proof.
  intros Hc HR m. destruct (Hc m) as (l & Ht & HQ & Ha).
  exists l. split; [done|]. split; [done|]. intros a m' Hrun. eauto.
Qed.

Lemma emits_DCHECK c b Q : emits (S := S) (DCHECK c b) Q (λ _, b = true).
Proof.
  intros m. exists []. destruct b; cbn [DCHECK ret fail final]; rewrite app_nil_r.
  - split; [done|]. split; [constructor|done].
  - split; [done|]. split; [constructor|done].
Qed.

Lemma emits_DCHECK_ptr {A} c (p : option A) Q :
  emits (S := S) (DCHECK_ptr c p) Q (λ x, p = Some x).
Proof.
  intros m. exists []. destruct p; cbn [DCHECK_ptr ret fail final]; rewrite app_nil_r.
  - split; [done|]. split; [constructor|]. by intros a' m' [= <- _].
  - split; [done|]. split; [constructor|done].
Qed.

Lemma emits_lift {A} (x : result A) Q : emits (S := S) (lift x) Q (λ a, x = Ok a).
Proof.
  intros m. exists []. destruct x; cbn [lift final]; rewrite app_nil_r.
  - split; [done|]. split; [constructor|]. by intros a' m' [= <- _].
  - split; [done|]. split; [constructor|done].
Qed.

Lemma emits_command e (f : S → S) Q : Q e → emits (command e f) Q (λ _, True).
Proof.
  intros He m. exists [e]. cbn [command final trace].
  split; [done|]. split; [by repeat constructor|done].
Qed.

Lemma emits_query (e : Z → event) (f : S → Z * S) Q :
  (∀ w, Q (e w)) → emits (query e f) Q (λ _, True).
Proof.
  intros He m. eexists [_]. cbn [query final trace].
  split; [done|]. split; [by repeat constructor|done].
Qed.

Lemma emits_store32 p w Q :
  Q (EvStoreWord p w) → emits (S := S) (store32 p w) Q (λ _, True).
Proof.
  intros He m. unfold store32. destruct (_ && _); cbn [final trace].
  - exists [EvStoreWord p w]. split; [done|]. split; [by repeat constructor|done].
  - exists []. rewrite app_nil_r. split; [done|]. split; [constructor|done].
Qed.

Lemma emits_for_count {A} (body : Z → A → M S A) Q (I : nat → A → Prop)
    (n : nat) (i step : Z) (a : A) :
  (∀ k a, (k < n)%nat → I k a →
     emits (body (i + Z.of_nat k * step) a) Q (I (Datatypes.S k))) →
  I 0%nat a →
  emits (for_count n i step body a) Q (I n).
Proof.
  revert i I a. induction n as [|n IH]; intros i I a Hbody Ha.
  { eapply emits_weaken; [apply emits_ret|]. by intros a' ->. }
  cbn [for_count]. eapply emits_bind.
  - specialize (Hbody 0%nat a ltac:(lia) Ha).
    replace (i + Z.of_nat 0 * step) with i in Hbody by lia. exact Hbody.
  - intros a' Ha'. apply (IH (i + step) (λ k, I (Datatypes.S k))); [|done].
    intros k a'' Hk Ha''. specialize (Hbody (Datatypes.S k) a'' ltac:(lia) Ha'').
    by replace (i + step + Z.of_nat k * step)
      with (i + Z.of_nat (Datatypes.S k) * step) by lia.
Qed.

Lemma emits_for_range {A} (body : Z → A → M S A) Q (I : Z → A → Prop)
    (lo hi : Z) (a : A) :
  lo ≤ hi →
  (∀ j a, lo ≤ j < hi → I j a → emits (body j a) Q (I (j + 1))) →
  I lo a →
  emits (for_range lo hi body a) Q (I hi).
Proof.
  intros Hle Hbody Ha. unfold for_range.
  pose proof (emits_for_count body Q (λ k, I (lo + Z.of_nat k))
                (Z.to_nat (hi - lo)) lo 1 a) as Hloop.
  cbn beta in Hloop.
  replace (lo + Z.of_nat (Z.to_nat (hi - lo))) with hi in Hloop by lia.
  apply Hloop.
  - intros k a' Hk Ha'.
    replace (lo + Z.of_nat k * 1) with (lo + Z.of_nat k) by lia.
    replace (lo + Z.of_nat (Datatypes.S k)) with (lo + Z.of_nat k + 1) by lia.
    apply Hbody; [lia|done].
  - by replace (lo + Z.of_nat 0) with lo by lia.
Qed.

Lemma emits_for_fuel (body : Z → M S unit) Q (J : Z → Prop) (hi step : Z) :
  (∀ i, J i → i < hi → emits (body i) Q (λ _, J (i + step))) →
  ∀ fuel lo, J lo → emits (for_fuel fuel lo hi step body) Q (λ _, True).
Proof.
  intros Hbody. induction fuel as [|fuel IH]; intros lo Hlo.
  - intros m. exists []. cbn [for_fuel fail final]. rewrite app_nil_r.
    split; [done|]. split; [constructor|done].
  - cbn [for_fuel]. destruct (Z.ltb_spec lo hi) as [Hlt|Hge].
    + eapply emits_bind; [by apply Hbody|]. intros [] Hnext. by apply IH.
    + eapply emits_weaken; [apply emits_ret|done].
Qed.

End EmitsRules.

Section EngineEvents.
Context `{GatewareConstants} {S : Type} `{Accelerator S}.
Variable params : ConvParams.
Variables input_height input_width input_depth : Z.
Variables output_height output_width output_depth : Z.
Variables (input_data filter_data output_multiplier output_shift : list Z).
Variable Q : event → Prop.

Local Abbreviation input_shape := (input_shape4 input_height input_width input_depth).
Local Abbreviation filter_shape := (filter_shape4 input_depth output_depth).
Local Abbreviation output_shape := (output_shape4 output_height output_width output_depth).
Local Abbreviation base_at := (pixel_base output_height output_width output_depth).

(** What is known of each event when the engine makes it, whether the call
    completes or not: the tile of a load is at an offset inside the output
    depth that is a multiple of the tile size, the window of an input load
    has passed the three assertions, and a store is one of the words of the
    tile at the pixel's base. *)
Lemma ConvPerChannel4x4_emits (fuel : nat) (bias_shape : RuntimeShape)
    (bias_data : option (list Z)) :
  0 < MAX_FILTER_WORDS → 0 < input_depth →
  0 ≤ output_height → 0 ≤ output_width →
  Q (EvLoadInputOffset (input_offset params)) →
  Q (EvSetOutputOffsets (output_offset params) (quantized_activation_min params)
       (quantized_activation_max params)) →
  (∀ tile off,
     max_output_channels_per_load (filter_words_per_output_channel input_depth 4 4)
       = Ok tile →
     0 ≤ tile → 0 ≤ off < output_depth → (4 | off) → (tile | off) →
     Q (EvLoadFilter input_depth (Z.min (output_depth - off) tile)
          (Offset filter_shape off 0 0 0)) ∧
     Q (EvLoadOutputParams off (Z.min (output_depth - off) tile))) →
  (∀ out_y out_x,
     0 ≤ out_y < output_height → 0 ≤ out_x < output_width →
     out_y * stride_height params + 4 ≤ input_height →
     out_x * stride_width params + 4 ≤ input_width →
     Z.quot (input_depth * 4 * 4) 4 ≤ MAX_INPUT_WORDS →
     Q (EvLoadInput input_width input_depth
          (Offset input_shape 0 (out_y * stride_height params)
             (out_x * stride_width params) 0))) →
  Q (EvAdvanceFilterInput (Z.quot (4 * 4 * input_depth) 16)) →
  (∀ acc, Q (EvMultiplyAccumulate acc) ∧ Q (EvPostProcess acc)) →
  (∀ w, Q (EvGetOutputWord w)) →
  (∀ tile off out_y out_x i w,
     max_output_channels_per_load (filter_words_per_output_channel input_depth 4 4)
       = Ok tile →
     0 ≤ tile → 0 ≤ off < output_depth → (4 | off) → (tile | off) →
     0 ≤ out_y < output_height → 0 ≤ out_x < output_width →
     0 ≤ i < (Z.min (output_depth - off) tile + 3) `div` 4 →
     Q (EvStoreWord (base_at off out_y out_x + 4 * i) w)) →
  emits (ConvPerChannel4x4 fuel params output_multiplier output_shift
           input_shape input_data filter_shape filter_data bias_shape bias_data
           output_shape)
    Q (λ _, True).
Proof.
  intros Hcap Hd Hh Hw Q1 Q2 Qtile Qin Qadv Qacc Qget Qstore.
  unfold ConvPerChannel4x4. cbv zeta.
  repeat first
    [ eapply emits_bind; [apply emits_DCHECK|intros [] _]
    | erewrite MatchingDim_same by reflexivity;
      eapply emits_bind; [apply emits_lift|intros ? [= <-]]
    | erewrite Dims_lookup by reflexivity;
      eapply emits_bind; [apply emits_lift|intros ? [= <-]]
    | eapply emits_bind; [apply emits_DCHECK_ptr|intros bias _]
    | eapply emits_bind; [by apply emits_command|intros [] _] ].
  eapply emits_bind; [apply emits_lift|intros tile Htile].
  pose proof (max_output_channels_per_load_divide _ _ Htile) as Htile4.
  destruct (tile_size_positive_iff input_depth tile Hcap Hd Htile) as (Htile0 & _).
  apply (emits_for_fuel _ Q (λ off, 0 ≤ off ∧ (4 | off) ∧ (tile | off)));
    [|split; [lia|split; apply Z.divide_0_r]].
  intros off (Hoff0 & Hoff4 & Hofft) Hlt.
  unfold process_tile. cbv zeta.
  destruct (Qtile tile off Htile Htile0 ltac:(lia) Hoff4 Hofft) as [QF QP].
  set (n := Z.min (output_depth - off) tile) in *.
  assert (Hn : 0 ≤ n) by lia.
  eapply emits_bind; [by apply emits_command|intros [] _].
  eapply emits_bind; [by apply emits_command|intros [] _].
  eapply emits_bind.
  2:{ intros a _. eapply emits_weaken; [apply emits_ret|]. intros _ _.
      split; [lia|]. split; [by apply Z.divide_add_r|].
      apply Z.divide_add_r; [done|apply Z.divide_refl]. }
  apply (emits_for_range _ Q (λ out_y a, a = base_at off out_y 0)); [done| |].
  2:{ unfold pixel_base. lia. }
  intros out_y a Hy ->. unfold process_row. cbv zeta.
  eapply emits_bind; [apply emits_DCHECK|intros [] Hrows%Z.leb_le].
  eapply emits_weaken;
    [apply (emits_for_range _ Q (λ out_x a, a = base_at off out_y out_x)); [done| |done]
    |intros a ->; unfold pixel_base; lia].
  intros out_x a Hx ->. unfold process_pixel. cbv zeta.
  eapply emits_bind; [apply emits_DCHECK|intros [] Hcols%Z.leb_le].
  eapply emits_bind; [apply emits_DCHECK|intros [] Hwords%Z.leb_le].
  eapply emits_bind; [apply emits_command; by apply Qin|intros [] _].
  eapply emits_bind.
  { unfold compute_pixel.
    apply (emits_for_range _ Q (λ _ _, True)); [lia| |done].
    intros out_channel [] _ _.
    eapply emits_bind; [by apply emits_command|intros [] _].
    eapply emits_bind; [apply emits_query; intros acc; apply Qacc|intros acc _].
    apply emits_command, Qacc. }
  intros [] _.
  eapply emits_bind.
  { unfold drain_pixel, for_words.
    eapply emits_bind; [|intros; apply emits_ret].
    apply (emits_for_count _ Q
             (λ k a, a = base_at off out_y out_x + 4 * Z.of_nat k)); [|lia].
    intros k a Hk ->.
    eapply emits_bind; [by apply emits_query|intros w _].
    eapply emits_bind.
    { apply emits_store32. apply (Qstore tile); try done; unfold n in *; lia. }
    intros [] _. eapply emits_weaken; [apply emits_ret|]. intros a ->. lia. }
  intros [] _. eapply emits_weaken; [apply emits_ret|]. intros a ->.
  unfold pixel_base. lia.
Qed.

End EngineEvents.

(** ** The tile size is the largest that fits *)

Section TileMaximal.
Context `{GatewareConstants}.

Lemma tile_size_value (input_depth tile : Z) :
  0 < MAX_FILTER_WORDS → 0 < input_depth →
  max_output_channels_per_load (filter_words_per_output_channel input_depth 4 4)
    = Ok tile →
  filter_words_per_output_channel input_depth 4 4 = 4 * input_depth ∧
  tile = (MAX_FILTER_WORDS `div` (4 * input_depth)) `div` 4 * 4.
Proof.
  intros Hcap Hd.
  assert (Hw : filter_words_per_output_channel input_depth 4 4 = 4 * input_depth).
  { unfold filter_words_per_output_channel.
    replace (input_depth * 4 * 4) with (4 * input_depth * 4) by lia.
    by rewrite Z.quot_mul. }
  rewrite Hw, max_output_channels_per_load_spec by lia. intros [= <-].
  split; [done|].
  assert (0 ≤ MAX_FILTER_WORDS `div` (4 * input_depth)) by (apply Z.div_pos; lia).
  rewrite (Z.quot_div_nonneg MAX_FILTER_WORDS) by lia.
  by rewrite Z.quot_div_nonneg by lia.
Qed.

Lemma tile_fits (input_depth tile : Z) :
  0 < MAX_FILTER_WORDS → 0 < input_depth →
  max_output_channels_per_load (filter_words_per_output_channel input_depth 4 4)
    = Ok tile →
  filter_words_per_output_channel input_depth 4 4 * tile ≤ MAX_FILTER_WORDS.
Proof.
  intros Hcap Hd Htile.
  destruct (tile_size_value input_depth tile Hcap Hd Htile) as [-> ->].
  set (per_load := MAX_FILTER_WORDS `div` (4 * input_depth)).
  assert (0 ≤ per_load) by (apply Z.div_pos; lia).
  pose proof (Z.mul_div_le MAX_FILTER_WORDS (4 * input_depth) ltac:(lia)).
  pose proof (Z.mul_div_le per_load 4 ltac:(lia)).
  fold per_load in H1. nia.
Qed.

(** X1.  For a positive input depth and filter capacity the tile size is the
    largest multiple of 4 whose filter words fit the filter memory: every
    multiple of 4 that fits is at most the tile size, and four channels more
    than the tile size do not fit. *)
Theorem tile_size_is_largest_that_fits (input_depth tile : Z) :
  0 < MAX_FILTER_WORDS → 0 < input_depth →
  max_output_channels_per_load (filter_words_per_output_channel input_depth 4 4)
    = Ok tile →
  (∀ channels,
     (4 | channels) →
     filter_words_per_output_channel input_depth 4 4 * channels ≤ MAX_FILTER_WORDS →
     channels ≤ tile) ∧
  MAX_FILTER_WORDS < filter_words_per_output_channel input_depth 4 4 * (tile + 4).
Proof.
  intros Hcap Hd Htile.
  destruct (tile_size_value input_depth tile Hcap Hd Htile) as [-> ->].
  set (words := 4 * input_depth).
  set (per_load := MAX_FILTER_WORDS `div` words).
  assert (Hwords : 0 < words) by (unfold words; lia).
  split.
  - intros channels [groups ->] Hfit.
    assert (groups * 4 ≤ per_load).
    { apply Z.div_le_lower_bound; [done|lia]. }
    assert (groups ≤ per_load `div` 4).
    { apply Z.div_le_lower_bound; lia. }
    lia.
  - pose proof (Z.div_mod MAX_FILTER_WORDS words ltac:(lia)) as Hdm.
    pose proof (Z.mod_pos_bound MAX_FILTER_WORDS words Hwords) as Hm.
    pose proof (Z.div_mod per_load 4 ltac:(lia)) as Hdm4.
    pose proof (Z.mod_pos_bound per_load 4 ltac:(lia)) as Hm4.
    fold per_load in Hdm.
    assert (per_load + 1 ≤ per_load `div` 4 * 4 + 4) by lia.
    nia.
Qed.

End TileMaximal.

(** ** Stores and loads of every run *)

Lemma window_offsets_inside_checked
    (input_height input_width input_depth y x : Z) :
  0 < input_depth → 0 ≤ y → y + 4 ≤ input_height → 0 ≤ x → x + 4 ≤ input_width →
  Forall (λ i, 0 ≤ i < FlatSize (input_shape4 input_height input_width input_depth))
    (window_offsets input_width input_depth
       (Offset (input_shape4 input_height input_width input_depth) 0 y x 0)).
Proof.
  intros Hd Hy0 Hy Hx0 Hx.
  unfold window_offsets. apply Forall_forall. intros i Hi.
  apply list_elem_of_bind in Hi as (row & Hi & Hrow%elem_of_seqZ).
  apply list_elem_of_fmap in Hi as (j & -> & Hj%elem_of_seqZ).
  unfold input_shape4. rewrite Offset_shape4. unfold FlatSize. cbn [foldr].
  replace (((0 * input_height + y) * input_width + x) * input_depth + 0 +
           row * input_width * input_depth + j)
    with (((y + row) * input_width + x) * input_depth + j) by lia.
  assert (0 ≤ (y + row) * input_width) by nia.
  assert ((y + row) * input_width + x + 4 ≤ input_height * input_width) by nia.
  split; [nia|].
  replace (input_height * (input_width * (input_depth * 1)))
    with (input_height * input_width * input_depth) by lia.
  assert ((((y + row) * input_width + x) + 4) * input_depth
          ≤ input_height * input_width * input_depth) by nia.
  nia.
Qed.

Section EngineSafety.
Context `{GatewareConstants} {S : Type} `{Accelerator S}.
Variable params : ConvParams.
Variables input_height input_width input_depth : Z.
Variables output_height output_width output_depth : Z.
Variables (input_data filter_data output_multiplier output_shift : list Z).

Local Abbreviation input_shape := (input_shape4 input_height input_width input_depth).
Local Abbreviation filter_shape := (filter_shape4 input_depth output_depth).
Local Abbreviation output_shape := (output_shape4 output_height output_width output_depth).

(** X2.  In every run, completed or not and on any accelerator, every store
    to the output tensor is at a byte offset that is a multiple of 4; when
    the output depth is a multiple of 4 every stored word lies inside the
    output tensor. *)
Theorem stores_are_aligned_and_inside (fuel : nat) (bias_shape : RuntimeShape)
    (bias_data : option (list Z)) (m : machine S) :
  0 < MAX_FILTER_WORDS → 0 < input_depth →
  0 ≤ output_height → 0 ≤ output_width →
  ∃ l,
    trace (final (ConvPerChannel4x4 fuel params output_multiplier output_shift
                    input_shape input_data filter_shape filter_data bias_shape
                    bias_data output_shape m)) = trace m ++ l ∧
    Forall (λ e, match e with
                 | EvStoreWord p _ =>
                     (4 | p) ∧
                     ((4 | output_depth) → 0 ≤ p ∧ p + 4 ≤ FlatSize output_shape)
                 | _ => True
                 end) l.
Proof.
  intros Hcap Hd Hh Hw.
  edestruct (ConvPerChannel4x4_emits params input_height input_width input_depth
               output_height output_width output_depth input_data filter_data
               output_multiplier output_shift
               (λ e, match e with
                     | EvStoreWord p _ =>
                         (4 | p) ∧
                         ((4 | output_depth) →
                          0 ≤ p ∧ p + 4 ≤ FlatSize output_shape)
                     | _ => True
                     end) fuel bias_shape bias_data Hcap Hd Hh Hw)
    as (l & Ht & HQ & _); try done.
  - intros tile off out_y out_x i w Htile Htile0 Hoff [a Ha] _ Hy Hx Hi.
    pose proof (max_output_channels_per_load_divide _ _ Htile) as [t Ht].
    unfold pixel_base, output_shape4. rewrite Offset_shape4. split.
    + exists (a + (out_y * output_width + out_x) * Z.quot output_depth 4 + i). lia.
    + intros [q Hq]. rewrite Hq, Z.quot_mul by lia.
      assert (Hn : (Z.min (output_depth - off) tile + 3) `div` 4
                   = Z.min (q - a) t).
      { symmetry. apply Z.div_unique with 3; lia. }
      rewrite Hn in Hi. unfold FlatSize. cbn [foldr].
      assert (0 ≤ out_y * output_width + out_x) by nia.
      assert (out_y * output_width + out_x + 1 ≤ output_height * output_width) by nia.
      assert (0 ≤ q) by lia.
      split; [nia|].
      assert ((out_y * output_width + out_x + 1) * q
              ≤ output_height * output_width * q) by nia.
      nia.
  - eauto.
Qed.

(** X3.  In every run, completed or not and on any accelerator, every
    filter load is of a tile whose filter words fit the filter memory and
    whose weights lie inside the filter tensor, and every load of output
    parameters is of channels inside the output depth. *)
Theorem tile_loads_are_inside (fuel : nat) (bias_shape : RuntimeShape)
    (bias_data : option (list Z)) (m : machine S) :
  0 < MAX_FILTER_WORDS → 0 < input_depth →
  0 ≤ output_height → 0 ≤ output_width →
  ∃ l,
    trace (final (ConvPerChannel4x4 fuel params output_multiplier output_shift
                    input_shape input_data filter_shape filter_data bias_shape
                    bias_data output_shape m)) = trace m ++ l ∧
    Forall (λ e, match e with
                 | EvLoadFilter depth channels filter_ptr =>
                     depth = input_depth ∧ 0 ≤ channels ∧
                     filter_words_per_output_channel depth 4 4 * channels
                       ≤ MAX_FILTER_WORDS ∧
                     0 ≤ filter_ptr ∧
                     filter_ptr + channels * (4 * 4 * depth) ≤ FlatSize filter_shape
                 | EvLoadOutputParams offset channels =>
                     0 ≤ offset ∧ 0 ≤ channels ∧ offset + channels ≤ output_depth
                 | _ => True
                 end) l.
Proof.
  intros Hcap Hd Hh Hw.
  edestruct (ConvPerChannel4x4_emits params input_height input_width input_depth
               output_height output_width output_depth input_data filter_data
               output_multiplier output_shift
               (λ e, match e with
                     | EvLoadFilter depth channels filter_ptr =>
                         depth = input_depth ∧ 0 ≤ channels ∧
                         filter_words_per_output_channel depth 4 4 * channels
                           ≤ MAX_FILTER_WORDS ∧
                         0 ≤ filter_ptr ∧
                         filter_ptr + channels * (4 * 4 * depth)
                           ≤ FlatSize filter_shape
                     | EvLoadOutputParams offset channels =>
                         0 ≤ offset ∧ 0 ≤ channels ∧ offset + channels ≤ output_depth
                     | _ => True
                     end) fuel bias_shape bias_data Hcap Hd Hh Hw)
    as (l & Ht & HQ & _); try done.
  - intros tile off Htile Htile0 Hoff _ _.
    pose proof (tile_fits input_depth tile Hcap Hd Htile) as Hfit.
    destruct (tile_size_value input_depth tile Hcap Hd Htile) as [Hwords _].
    rewrite Hwords in *.
    unfold filter_shape4. rewrite Offset_shape4. unfold FlatSize. cbn [foldr].
    set (n := Z.min (output_depth - off) tile).
    assert (0 ≤ n ≤ tile ∧ off + n ≤ output_depth) as (Hn & Hn') by (unfold n; lia).
    split; [|lia].
    split; [done|]. split; [lia|]. split; [nia|]. split; [nia|]. nia.
  - eauto.
Qed.

(** X4.  In every run, completed or not and on any accelerator, with strides
    that are not negative, every input load is of a window that has passed
    the three assertions: it lies inside the input tensor, whatever output
    extents the caller gave, and it fits the input memory. *)
Theorem input_loads_are_guarded (fuel : nat) (bias_shape : RuntimeShape)
    (bias_data : option (list Z)) (m : machine S) :
  0 < MAX_FILTER_WORDS → 0 < input_depth →
  0 ≤ output_height → 0 ≤ output_width →
  0 ≤ stride_height params → 0 ≤ stride_width params →
  ∃ l,
    trace (final (ConvPerChannel4x4 fuel params output_multiplier output_shift
                    input_shape input_data filter_shape filter_data bias_shape
                    bias_data output_shape m)) = trace m ++ l ∧
    Forall (λ e, match e with
                 | EvLoadInput width depth input_ptr =>
                     width = input_width ∧ depth = input_depth ∧
                     Z.quot (depth * 4 * 4) 4 ≤ MAX_INPUT_WORDS ∧
                     Forall (λ i, 0 ≤ i < FlatSize input_shape)
                       (window_offsets width depth input_ptr)
                 | _ => True
                 end) l.
Proof.
  intros Hcap Hd Hh Hw Hsh Hsw.
  edestruct (ConvPerChannel4x4_emits params input_height input_width input_depth
               output_height output_width output_depth input_data filter_data
               output_multiplier output_shift
               (λ e, match e with
                     | EvLoadInput width depth input_ptr =>
                         width = input_width ∧ depth = input_depth ∧
                         Z.quot (depth * 4 * 4) 4 ≤ MAX_INPUT_WORDS ∧
                         Forall (λ i, 0 ≤ i < FlatSize input_shape)
                           (window_offsets width depth input_ptr)
                     | _ => True
                     end) fuel bias_shape bias_data Hcap Hd Hh Hw)
    as (l & Ht & HQ & _); try done.
  - intros out_y out_x Hy Hx Hrows Hcols Hwords.
    repeat (split; [done|]).
    apply window_offsets_inside_checked; [done|nia|done|nia|done].
  - eauto.
Qed.

End EngineSafety.

(** ** An input of depth zero *)

Section ZeroDepth.
Context `{GatewareConstants} {S : Type} `{Accelerator S}.
Variable params : ConvParams.
Variables input_height input_width input_depth : Z.
Variables output_height output_width output_depth : Z.
Variables (input_data filter_data output_multiplier output_shift : list Z).
Variable bias_shape : RuntimeShape.
Variable bias_data : option (list Z).

Local Abbreviation input_shape := (input_shape4 input_height input_width input_depth).
Local Abbreviation filter_shape := (filter_shape4 input_depth output_depth).
Local Abbreviation output_shape := (output_shape4 output_height output_width output_depth).

(** Under the contract the call is the two offsets, the tile size and the
    main loop, whether the tile size can be computed or not. *)
Lemma ConvPerChannel4x4_tile_size_and_loop (fuel : nat) (m : machine S) :
  engine_contract params bias_shape bias_data input_height input_width input_depth
    output_height output_width output_depth →
  ∃ bias,
    bias_data = Some bias ∧
    ConvPerChannel4x4 fuel params output_multiplier output_shift
      input_shape input_data filter_shape filter_data bias_shape bias_data
      output_shape m =
    bind (lift (max_output_channels_per_load
                  (filter_words_per_output_channel input_depth 4 4)))
      (λ tile,
         for_fuel fuel 0 output_depth tile
           (process_tile (stride_width params) (stride_height params)
              output_multiplier output_shift input_shape input_data
              filter_shape filter_data bias output_shape
              input_height input_width input_depth 4 4
              output_height output_width output_depth tile))
      (Machine
         (SetOutputOffsets (output_offset params) (quantized_activation_min params)
            (quantized_activation_max params)
            (LoadInputOffset (input_offset params) (cfu m)))
         (output_data m)
         (trace m ++
          [EvLoadInputOffset (input_offset params);
           EvSetOutputOffsets (output_offset params)
             (quantized_activation_min params) (quantized_activation_max params)])).
Proof.
  intros [Hel Hpw Hph Hact Hbias _ _ _ _ _].
  apply CanAccelerateConv4x4_eligible in Hel
    as (Hpad & Hdepth & _ & [Hdh Hdw] & _ & Hnull).
  destruct bias_data as [bias|]; [|done]. exists bias. split; [done|].
  unfold ConvPerChannel4x4. cbv zeta.
  rewrite Hdw, Hdh, Hpad, Hpw, Hph, Hbias.
  rewrite !bind_DCHECK_true by (reflexivity || by apply Z.leb_le).
  rewrite (bind_lift_Ok _ 1) by reflexivity.
  rewrite bind_DCHECK_true by reflexivity.
  rewrite (bind_lift_Ok _ input_depth) by (by apply MatchingDim_same).
  rewrite bind_DCHECK_true.
  2:{ apply orb_true_iff. destruct Hdepth as [->|Hd]; [by left|right].
      apply Z.eqb_eq. by apply rem4_divide. }
  rewrite (bind_lift_Ok _ output_depth) by (by apply MatchingDim_same).
  rewrite bind_DCHECK_ptr_Some.
  rewrite bind_DCHECK_true by apply Z.eqb_refl.
  rewrite (bind_lift_Ok _ input_height), (bind_lift_Ok _ input_width),
    (bind_lift_Ok _ 4) by reflexivity.
  rewrite bind_DCHECK_true, (bind_lift_Ok _ 4), bind_DCHECK_true by reflexivity.
  rewrite (bind_lift_Ok _ output_height), (bind_lift_Ok _ output_width) by reflexivity.
  unfold bind at 1. cbn [command]. unfold bind at 1. cbn [command cfu output_data trace].
  by rewrite <- app_assoc.
Qed.

End ZeroDepth.

Section ZeroDepthCall.
Context `{GatewareConstants} {S : Type} `{Accelerator S}.
Variable params : ConvParams.
Variables input_height input_width : Z.
Variables output_height output_width output_depth : Z.
Variables (input_data filter_data output_multiplier output_shift : list Z).
Variable bias_shape : RuntimeShape.
Variable bias_data : option (list Z).

(** X8.  An input of depth 0 passes the classifier and every assertion of
    the engine (0 is a multiple of 4); the engine then divides
    [MAX_FILTER_WORDS] by the zero filter words of one output channel.  The
    two offsets have been loaded, the output tensor is untouched. *)
Theorem depth_zero_divides_by_zero (fuel : nat) (m : machine S) :
  engine_contract params bias_shape bias_data input_height input_width 0
    output_height output_width output_depth →
  CanAccelerateConv4x4 params (input_shape4 input_height input_width 0)
    (filter_shape4 0 output_depth)
    (output_shape4 output_height output_width output_depth) bias_data = Ok true ∧
  ∃ m',
    ConvPerChannel4x4 fuel params output_multiplier output_shift
      (input_shape4 input_height input_width 0) input_data
      (filter_shape4 0 output_depth) filter_data bias_shape bias_data
      (output_shape4 output_height output_width output_depth) m
    = Failed DivisionByZero m' ∧
    trace m' = trace m ++
      [EvLoadInputOffset (input_offset params);
       EvSetOutputOffsets (output_offset params)
         (quantized_activation_min params) (quantized_activation_max params)] ∧
    output_data m' = output_data m.
Proof.
  intros Hcontract. split; [apply Hcontract|].
  destruct (ConvPerChannel4x4_tile_size_and_loop params input_height input_width 0
              output_height output_width output_depth input_data filter_data
              output_multiplier output_shift bias_shape bias_data fuel m Hcontract)
    as (bias & _ & ->).
  eexists. split; [reflexivity|]. by split.
Qed.

End ZeroDepthCall.

(** ** Completion on any accelerator *)

Section AnyAccelerator.
Context `{GatewareConstants} {S : Type} `{Accelerator S}.
Variable params : ConvParams.
Variables input_height input_width input_depth : Z.
Variables output_height output_width output_depth : Z.
Variables (input_data filter_data bias output_multiplier output_shift : list Z).
Variable size : nat.

Local Abbreviation input_shape := (input_shape4 input_height input_width input_depth).
Local Abbreviation filter_shape := (filter_shape4 input_depth output_depth).
Local Abbreviation output_shape := (output_shape4 output_height output_width output_depth).
Local Abbreviation sized := (λ m : machine S, length (output_data m) = size).

Lemma total_command_sized (e : event) (f : S → S) :
  total sized (command e f) (λ _, sized).
Proof. intros m Hm. by exists tt, (Machine (f (cfu m)) (output_data m) (trace m ++ [e])). Qed.

Lemma total_query_sized (e : Z → event) (f : S → Z * S) :
  total sized (query e f) (λ _, sized).
Proof. intros m Hm. unfold query. by eexists _, _. Qed.

Lemma total_store32_sized (p w : Z) :
  0 ≤ p → p + 4 ≤ Z.of_nat size →
  total sized (store32 p w) (λ _, sized).
Proof.
  intros Hp Hfit m Hm. unfold store32. rewrite Hm.
  assert ((0 <=? p) && (p + 4 <=? Z.of_nat size) = true) as ->.
  { apply andb_true_intro. split; by apply Z.leb_le. }
  eexists tt, _. split; [reflexivity|]. cbn [output_data].
  by rewrite length_inserts.
Qed.

Lemma drain_pixel_completes (n base : Z) :
  0 ≤ base → (4 | n) → 0 ≤ n → base + n ≤ Z.of_nat size →
  total sized (drain_pixel n base) (λ _, sized).
Proof.
  intros Hbase [q ->] Hn Hfit. unfold drain_pixel, for_words.
  replace ((q * 4 + 3) `div` 4) with q by (apply Z.div_unique with 3; lia).
  eapply total_bind.
  - pose proof (total_for_count
        (λ (i output_data32 : Z),
           bind (query EvGetOutputWord GetOutputWord)
             (λ w, bind (store32 output_data32 w) (λ _, ret (output_data32 + 4))))
        (λ k, base + 4 * Z.of_nat k) (λ _, sized) (Z.to_nat q) 0 4) as Hloop.
    cbn beta in Hloop.
    replace (base + 4 * Z.of_nat 0) with base in Hloop by lia.
    apply Hloop. intros k Hk.
    eapply total_bind; [apply total_query_sized|intros w].
    eapply total_bind; [apply total_store32_sized; lia|intros []].
    eapply total_weaken; [apply (total_ret sized)|done|].
    intros a m [-> Hm]. split; [lia|done].
  - intros a. eapply total_weaken; [apply total_ret|intros m Hm; exact Hm|].
    by intros [] m [_ [_ Hm]].
Qed.

Lemma compute_pixel_completes (off n : Z) :
  total sized (compute_pixel input_depth 4 4 off n) (λ _, sized).
Proof.
  unfold compute_pixel, for_range.
  eapply total_weaken;
    [apply (total_for_count _ (λ _, tt) (λ _, sized))|done|by intros a m [_ Hm]].
  intros k Hk.
  eapply total_bind; [apply total_command_sized|intros []].
  eapply total_bind; [apply total_query_sized|intros acc].
  eapply total_weaken; [apply total_command_sized|done|by intros []].
Qed.

Lemma process_pixel_completes (off n out_y out_x : Z) :
  Z.quot (input_depth * 4 * 4) 4 ≤ MAX_INPUT_WORDS →
  0 ≤ out_y < output_height → 0 ≤ out_x < output_width →
  out_x * stride_width params + 4 ≤ input_width →
  (4 | output_depth) → (4 | n) → 0 ≤ n → 0 ≤ off → off + n ≤ output_depth →
  output_height * output_width * output_depth ≤ Z.of_nat size →
  total sized
    (process_pixel (stride_width params) input_shape input_data input_width input_depth
       4 4 output_depth off n (out_y * stride_height params) out_x
       ((out_y * output_width + out_x) * output_depth + off))
    (λ a m', a = (out_y * output_width + out_x + 1) * output_depth + off ∧ sized m').
Proof.
  intros Hwords Hy Hx Hcol [qd Hqd] Hn4 Hn Hoff Hfit Hsize.
  set (pixel := out_y * output_width + out_x).
  assert (Hpixel : 0 ≤ pixel ∧ pixel + 1 ≤ output_height * output_width)
    by (unfold pixel; nia).
  assert (Hend : (pixel + 1) * output_depth ≤ Z.of_nat size) by nia.
  clearbody pixel.
  unfold process_pixel. cbv zeta.
  eapply total_bind; [by apply total_DCHECK, Z.leb_le|intros []].
  eapply total_bind; [by apply total_DCHECK, Z.leb_le|intros []].
  eapply total_bind; [apply total_command_sized|intros []].
  eapply total_bind; [apply compute_pixel_completes|intros []].
  eapply total_bind; [apply drain_pixel_completes; (done || nia)|intros []].
  eapply total_weaken; [apply (total_ret sized)|done|].
  intros a m [-> Hm]. split; [|done].
  rewrite Hqd, Z.quot_mul by lia. ring.
Qed.

Lemma process_row_completes (off n out_y : Z) :
  Z.quot (input_depth * 4 * 4) 4 ≤ MAX_INPUT_WORDS →
  0 < stride_height params → 0 < stride_width params →
  output_height = (input_height - 4) `div` stride_height params + 1 →
  output_width = (input_width - 4) `div` stride_width params + 1 →
  0 ≤ output_width → 0 ≤ out_y < output_height →
  (4 | output_depth) → (4 | n) → 0 ≤ n → 0 ≤ off → off + n ≤ output_depth →
  output_height * output_width * output_depth ≤ Z.of_nat size →
  total sized
    (process_row (stride_width params) (stride_height params) input_shape input_data
       input_height input_width input_depth 4 4 output_width output_depth off n
       out_y (out_y * output_width * output_depth + off))
    (λ a m', a = (out_y + 1) * output_width * output_depth + off ∧ sized m').
Proof.
  intros Hwords Hsh Hsw Hoh How Hw Hy Hod Hn4 Hn Hoff Hfit Hsize.
  unfold process_row. cbv zeta.
  eapply total_bind.
  { apply total_DCHECK, Z.leb_le, valid_padding_window; [done|]. by rewrite <- Hoh. }
  intros [].
  pose proof (total_for_range
    (process_pixel (stride_width params) input_shape input_data input_width input_depth
       4 4 output_depth off n (out_y * stride_height params))
    (λ out_x, (out_y * output_width + out_x) * output_depth + off)
    (λ _, sized) 0 output_width Hw) as Hloop.
  cbn beta in Hloop.
  replace (out_y * output_width + 0) with (out_y * output_width) in Hloop by lia.
  replace (out_y * output_width + output_width) with ((out_y + 1) * output_width)
    in Hloop by lia.
  apply Hloop. intros out_x Hx.
  replace (out_y * output_width + (out_x + 1)) with (out_y * output_width + out_x + 1)
    by lia.
  apply process_pixel_completes; try done.
  apply valid_padding_window; [done|]. by rewrite <- How.
Qed.

Lemma process_tile_completes (tile off : Z) :
  Z.quot (input_depth * 4 * 4) 4 ≤ MAX_INPUT_WORDS →
  0 < stride_height params → 0 < stride_width params →
  output_height = (input_height - 4) `div` stride_height params + 1 →
  output_width = (input_width - 4) `div` stride_width params + 1 →
  0 ≤ output_height → 0 ≤ output_width →
  (4 | output_depth) → (4 | tile) → 0 < tile → (4 | off) → 0 ≤ off < output_depth →
  output_height * output_width * output_depth ≤ Z.of_nat size →
  total sized
    (process_tile (stride_width params) (stride_height params)
       output_multiplier output_shift input_shape input_data
       filter_shape filter_data bias output_shape
       input_height input_width input_depth 4 4
       output_height output_width output_depth tile off)
    (λ _, sized).
Proof.
  intros Hwords Hsh Hsw Hoh How Hh Hw Hod Htile4 Htile Hoff4 Hoff Hsize.
  unfold process_tile. cbv zeta.
  set (n := Z.min (output_depth - off) tile).
  assert (Hn4 : (4 | n)).
  { unfold n. destruct (Z.min_spec (output_depth - off) tile) as [[_ ->]|[_ ->]];
      [by apply Z.divide_sub_r|done]. }
  assert (Hn : 0 ≤ n ∧ off + n ≤ output_depth) by lia.
  eapply total_bind; [apply total_command_sized|intros []].
  eapply total_bind; [apply total_command_sized|intros []].
  eapply total_bind.
  - pose proof (total_for_range
      (process_row (stride_width params) (stride_height params) input_shape input_data
         input_height input_width input_depth 4 4 output_width output_depth off n)
      (λ out_y, out_y * output_width * output_depth + off)
      (λ _, sized) 0 output_height Hh) as Hloop.
    cbn beta in Hloop.
    replace (0 * output_width * output_depth + off)
      with (Offset output_shape 0 0 0 off) in Hloop
      by (unfold output_shape4; rewrite Offset_shape4; lia).
    apply Hloop. intros out_y Hy. apply process_row_completes; (done || lia).
  - intros a. eapply total_weaken; [apply total_ret|intros m Hm; exact Hm|].
    by intros [] m [_ [_ Hm]].
Qed.

End AnyAccelerator.

Section AnyAcceleratorCall.
Context `{GatewareConstants} {S : Type} `{Accelerator S}.
Variable params : ConvParams.
Variables input_height input_width input_depth : Z.
Variables output_height output_width output_depth : Z.
Variables (input_data filter_data output_multiplier output_shift : list Z).

(** X9.  On any accelerator, whatever values it returns: a call that meets
    the engine's contract, on an input of positive depth at most
    [MAX_FILTER_WORDS / 16] and an output whose depth is a multiple of 4,
    with an output buffer of at least the size of the output tensor and
    fuel for one tile per output channel, completes: no assertion fails, no
    store is outside the buffer, and the buffer keeps its length. *)
Theorem contract_call_completes_on_any_accelerator
    (fuel : nat) (bias_shape : RuntimeShape) (bias_data : option (list Z))
    (m : machine S) :
  engine_contract params bias_shape bias_data input_height input_width input_depth
    output_height output_width output_depth →
  0 < input_depth → input_depth ≤ MAX_FILTER_WORDS `div` 16 →
  0 ≤ output_height → 0 ≤ output_width → 0 ≤ output_depth → (4 | output_depth) →
  FlatSize (output_shape4 output_height output_width output_depth)
    ≤ Z.of_nat (length (output_data m)) →
  (Z.to_nat output_depth < fuel)%nat →
  ∃ m',
    ConvPerChannel4x4 fuel params output_multiplier output_shift
      (input_shape4 input_height input_width input_depth) input_data
      (filter_shape4 input_depth output_depth) filter_data bias_shape bias_data
      (output_shape4 output_height output_width output_depth) m = Done tt m' ∧
    length (output_data m') = length (output_data m).
Proof.
  intros Hcontract Hd Hdeep Hh Hw Hod Hod4 Hlen Hfuel.
  assert (Hcap : 0 < MAX_FILTER_WORDS).
  { pose proof (Z.mul_div_le MAX_FILTER_WORDS 16 ltac:(lia)). lia. }
  assert (Hwords : filter_words_per_output_channel input_depth 4 4 = 4 * input_depth).
  { unfold filter_words_per_output_channel.
    replace (input_depth * 4 * 4) with (4 * input_depth * 4) by lia.
    by rewrite Z.quot_mul. }
  pose proof (max_output_channels_per_load_spec
                (filter_words_per_output_channel input_depth 4 4) ltac:(lia)) as Htile.
  set (tile := Z.quot (Z.quot MAX_FILTER_WORDS _) 4 * 4) in Htile.
  destruct (tile_size_positive_iff input_depth tile Hcap Hd Htile) as (_ & Hpos & _).
  apply Hpos in Hdeep. clear Hpos.
  pose proof (max_output_channels_per_load_divide _ _ Htile) as Htile4.
  clearbody tile.
  destruct (ConvPerChannel4x4_main_loop params input_height input_width input_depth
              output_height output_width output_depth input_data filter_data
              output_multiplier output_shift bias_shape bias_data fuel tile m
              Hcontract Htile) as (bias & _ & ->).
  destruct Hcontract as [_ _ _ _ _ Hsh Hsw Hoh How Hin].
  unfold output_shape4, FlatSize in Hlen. cbn [foldr] in Hlen.
  pose proof (total_for_fuel
    (process_tile (stride_width params) (stride_height params)
       output_multiplier output_shift
       (input_shape4 input_height input_width input_depth) input_data
       (filter_shape4 input_depth output_depth) filter_data bias
       (output_shape4 output_height output_width output_depth)
       input_height input_width input_depth 4 4
       output_height output_width output_depth tile)
    (λ i m', 0 ≤ i ∧ (4 | i) ∧ length (output_data m') = length (output_data m))
    output_depth tile Hdeep) as Hloop.
  cbn beta in Hloop.
  match type of Hloop with ?body → _ => assert (Hbody : body) end.
  { intros i Hi m0 (Hi0 & Hi4 & Hm0).
    destruct (process_tile_completes params input_height input_width input_depth
                output_height output_width output_depth input_data filter_data bias
                output_multiplier output_shift (length (output_data m)) tile i
                Hin Hsh Hsw Hoh How Hh Hw Hod4 Htile4 Hdeep Hi4 ltac:(lia)
                ltac:(lia) m0 Hm0) as ([] & m' & Hrun & Hm').
    exists tt, m'. split; [done|]. split; [lia|]. split; [by apply Z.divide_add_r|done]. }
  specialize (Hloop Hbody fuel 0 ltac:(lia)).
  match goal with
  | |- context [for_fuel _ _ _ _ _ ?m1] =>
      destruct (Hloop m1) as ([] & m' & Hrun & i & _ & _ & _ & Hm')
  end.
  { cbn [output_data]. split; [done|]. split; [apply Z.divide_0_r|done]. }
  by exists m'.
Qed.

End AnyAcceleratorCall.

(** ** Every word of the output is stored once *)

Lemma bind_assoc_list {A B C} (l : list A) (f : A → list B) (g : B → list C) :
  (l ≫= f) ≫= g = l ≫= (λ a, f a ≫= g).
Proof.
  induction l as [|a l IH]; [done|]. by rewrite !bind_cons, bind_app, IH.
Qed.

Lemma bind_app_perm {A B} (l : list A) (f g : A → list B) :
  l ≫= (λ a, f a ++ g a) ≡ₚ (l ≫= f) ++ (l ≫= g).
Proof.
  induction l as [|a l IH]; [done|]. rewrite !bind_cons, IH.
  rewrite <- !app_assoc. apply Permutation_app_head.
  rewrite !app_assoc. apply Permutation_app_tail, Permutation_app_comm.
Qed.

Lemma bind_swap_perm {A B C} (l1 : list A) (l2 : list B) (f : A → B → list C) :
  (a ← l1; b ← l2; f a b) ≡ₚ (b ← l2; a ← l1; f a b).
Proof.
  induction l1 as [|a l1 IH].
  { cbn. by rewrite bind_nil_all. }
  rewrite bind_cons, IH.
  assert ((b ← l2; a' ← a :: l1; f a' b)
          = (b ← l2; f a b ++ (a' ← l1; f a' b))) as ->.
  { apply list_bind_ext; [|done]. intros b. by rewrite bind_cons. }
  by rewrite bind_app_perm.
Qed.

Lemma bind_bind_seqZ_flat_list {B} (n m : Z) (g : Z → list B) :
  0 ≤ m →
  (i ← seqZ 0 n; j ← seqZ 0 m; g (i * m + j)) = (p ← seqZ 0 (n * m); g p).
Proof.
  intros Hm.
  rewrite <- (list_fmap_id (seqZ 0 (n * m))), <- (bind_bind_seqZ_flat n m id Hm).
  rewrite bind_assoc_list. apply list_bind_ext; [|done]. intros i.
  rewrite bind_assoc_list. apply list_bind_ext; [|done]. intros j.
  by rewrite bind_singleton.
Qed.

Lemma stores_of_calls (l : list event) : stores_of l = store_calls (call_of <$> l).
Proof.
  unfold stores_of, store_calls.
  induction l as [|e l IH]; [done|].
  destruct e; simpl; first [exact IH | f_equal; exact IH].
Qed.

Lemma store_calls_bind {A} (l : list A) (f : A → list call) :
  store_calls (l ≫= f) = l ≫= (λ x, store_calls (f x)).
Proof.
  induction l as [|x l IH]; [done|].
  rewrite !bind_cons. unfold store_calls in *. by rewrite omap_app, IH.
Qed.

Lemma store_calls_app (l1 l2 : list call) :
  store_calls (l1 ++ l2) = store_calls l1 ++ store_calls l2.
Proof. apply omap_app. Qed.

Lemma bind_perm_ext {A B} (l : list A) (f g : A → list B) :
  (∀ a, f a ≡ₚ g a) → l ≫= f ≡ₚ l ≫= g.
Proof.
  intros Hfg. induction l as [|a l IH]; [done|].
  rewrite !bind_cons. by apply Permutation_app.
Qed.

Lemma tile_offsets_words (words tile_words : Z) :
  tile_offsets (words * 4) (tile_words * 4)
  = (λ o, o * 4) <$> tile_offsets words tile_words.
Proof.
  unfold tile_offsets, tile_count.
  destruct (Z.ltb_spec 0 tile_words) as [Ht|Ht].
  - destruct (Z.ltb_spec 0 (tile_words * 4)); [|lia].
    assert ((words * 4 + tile_words * 4 - 1) `div` (tile_words * 4)
            = (words + tile_words - 1) `div` tile_words) as ->.
    { pose proof (Z.div_mod (words + tile_words - 1) tile_words ltac:(lia)) as Hdm.
      pose proof (Z.mod_pos_bound (words + tile_words - 1) tile_words Ht) as Hm.
      symmetry.
      apply Z.div_unique with (4 * ((words + tile_words - 1) `mod` tile_words) + 3);
        lia. }
    rewrite <- list_fmap_compose. apply list_fmap_ext. intros _ k _. cbn. lia.
  - destruct (Z.ltb_spec 0 (tile_words * 4)); [lia|]. done.
Qed.

Section StoreCoverage.
Context `{GatewareConstants} {S : Type} `{Accelerator S}.
Variable params : ConvParams.
Variables input_height input_width input_depth : Z.
Variables output_height output_width output_depth : Z.
Variables (input_data filter_data output_multiplier output_shift : list Z).

Local Abbreviation input_shape := (input_shape4 input_height input_width input_depth).
Local Abbreviation filter_shape := (filter_shape4 input_depth output_depth).
Local Abbreviation output_shape := (output_shape4 output_height output_width output_depth).
Local Abbreviation base_at := (pixel_base output_height output_width output_depth).

Lemma store_calls_engine_calls (tile : Z) :
  store_calls (engine_calls params input_height input_width input_depth
                 output_height output_width output_depth tile
                 (source_drain output_height output_width output_depth)) =
  (off ← tile_offsets output_depth tile;
   out_y ← seqZ 0 output_height;
   out_x ← seqZ 0 output_width;
   i ← seqZ 0 ((Z.min (output_depth - off) tile + 3) `div` 4);
   [base_at off out_y out_x + 4 * i]).
Proof.
  unfold engine_calls.
  change (store_calls (?c1 :: ?c2 :: ?l)) with (store_calls l).
  rewrite store_calls_bind. apply list_bind_ext; [|done]. intros off.
  unfold tile_calls, tile_width. cbv zeta.
  change (store_calls (?c1 :: ?c2 :: ?l)) with (store_calls l).
  rewrite store_calls_bind. apply list_bind_ext; [|done]. intros out_y.
  rewrite store_calls_bind. apply list_bind_ext; [|done]. intros out_x.
  unfold pixel_calls.
  change (store_calls (?c1 :: ?l)) with (store_calls l).
  rewrite store_calls_app.
  assert (store_calls (compute_calls input_depth (Z.min (output_depth - off) tile))
          = []) as ->.
  { unfold compute_calls. rewrite store_calls_bind. by apply bind_nil_all. }
  unfold source_drain, drain_calls. rewrite app_nil_l, store_calls_bind.
  by apply list_bind_ext.
Qed.

(** X10.  When the output depth is a multiple of 4, a call that completes,
    on any accelerator, has stored exactly one word at every word of the
    output tensor: the byte offsets of its stores are, up to their order,
    the multiples of 4 below the size of the tensor, none of them twice. *)
Theorem stores_cover_each_word_once (fuel : nat) (bias_shape : RuntimeShape)
    (bias : option (list Z)) (m m' : machine S) :
  (4 | output_depth) → 0 ≤ output_depth →
  0 ≤ output_height → 0 ≤ output_width →
  ConvPerChannel4x4 fuel params output_multiplier output_shift
    input_shape input_data filter_shape filter_data bias_shape bias
    output_shape m = Done tt m' →
  ∃ l,
    trace m' = trace m ++ l ∧
    stores_of l ≡ₚ
      (λ j, 4 * j) <$> seqZ 0 (output_height * output_width * (output_depth `div` 4)) ∧
    NoDup (stores_of l).
Proof.
  intros [q Hq] Hod Hh Hw Hrun.
  apply ConvPerChannel4x4_calls in Hrun as (tile & l & Htile & Ht & _ & Hc & Hpos);
    [|done..].
  exists l. split; [done|].
  destruct (max_output_channels_per_load_divide _ _ Htile) as [t Htt].
  assert (Hperm : stores_of l ≡ₚ
            (λ j, 4 * j) <$>
              seqZ 0 (output_height * output_width * (output_depth `div` 4))).
  { rewrite stores_of_calls, Hc, store_calls_engine_calls.
    rewrite Hq, Htt, Z.div_mul, tile_offsets_words, list_fmap_bind by lia.
    set (F := λ o out_y out_x : Z,
           (λ c, 4 * ((out_y * output_width + out_x) * q + c)) <$>
             seqZ o (Z.min (q - o) t)).
    rewrite (list_bind_ext _ (λ o, out_y ← seqZ 0 output_height;
                                out_x ← seqZ 0 output_width; F o out_y out_x)
               _ (tile_offsets q t)); [| |done].
    2:{ intros o. unfold compose.
        apply list_bind_ext; [|done]. intros out_y.
        apply list_bind_ext; [|done]. intros out_x.
        replace ((Z.min (q * 4 - o * 4) (t * 4) + 3) `div` 4)
          with (Z.min (q - o) t) by (apply Z.div_unique with 3; lia).
        unfold F. rewrite bind_singleton_fmap, (fmap_seqZ_shift _ o).
        apply list_fmap_ext. intros _ i _.
        unfold pixel_base, output_shape4. rewrite Offset_shape4, Z.quot_mul by lia.
        lia. }
    rewrite (bind_swap_perm (tile_offsets q t) (seqZ 0 output_height)
               (λ o out_y, out_x ← seqZ 0 output_width; F o out_y out_x)).
    rewrite (bind_perm_ext (seqZ 0 output_height) _
               (λ out_y, out_x ← seqZ 0 output_width;
                         o ← tile_offsets q t; F o out_y out_x))
      by (intros out_y; apply bind_swap_perm).
    apply eq_subrelation; [apply _|].
    rewrite <- (bind_bind_seqZ_flat (output_height * output_width) q (λ j, 4 * j))
      by lia.
    rewrite <- (bind_bind_seqZ_flat_list output_height output_width
                  (λ p, c ← seqZ 0 q; [4 * (p * q + c)])) by lia.
    apply list_bind_ext; [|done]. intros out_y.
    apply list_bind_ext; [|done]. intros out_x.
    unfold F. rewrite <- fmap_bind_list, (tiles_partition q t) by lia.
    by rewrite bind_singleton_fmap. }
  split; [done|]. rewrite Hperm.
  apply NoDup_fmap_2; [|apply NoDup_seqZ]. intros a b. lia.
Qed.

End StoreCoverage.

(** ** One call after another on the specified accelerator *)

Section SpecRunIdle.
Context `{GatewareConstants}.
Variable rescale : Z → Z → Z → Z.
Variable params : ConvParams.
Variables input_height input_width input_depth : Z.
Variables output_height output_width output_depth : Z.
Variables (input_data filter_data bias output_multiplier output_shift : list Z).

Local Abbreviation input_shape := (input_shape4 input_height input_width input_depth).
Local Abbreviation filter_shape := (filter_shape4 input_depth output_depth).
Local Abbreviation output_shape := (output_shape4 output_height output_width output_depth).

(** The call of the amended C1 leaves the reference output and the
    accelerator idle again, with the offsets of the call in its registers. *)
Lemma ConvPerChannel4x4_reference_and_idle
    (fuel : nat) (bias_shape : RuntimeShape) (m : machine accel) :
  engine_contract params bias_shape (Some bias) input_height input_width input_depth
    output_height output_width output_depth →
  0 < input_depth → input_depth ≤ MAX_FILTER_WORDS `div` 16 →
  0 ≤ output_height → 0 ≤ output_width → 0 ≤ output_depth → (4 | output_depth) →
  accumulator (cfu m) = 0 → output_queue (cfu m) = [] →
  Z.of_nat (length (output_data m)) = FlatSize output_shape →
  (Z.to_nat output_depth < fuel)%nat →
  ∃ m',
    ConvPerChannel4x4 (H0 := spec_accelerator rescale) fuel params
      output_multiplier output_shift
      input_shape input_data filter_shape filter_data bias_shape (Some bias)
      output_shape m = Done tt m' ∧
    output_data m' =
      reference_ConvPerChannel rescale params output_multiplier output_shift
        input_shape input_data filter_shape filter_data bias output_shape ∧
    accumulator (cfu m') = 0 ∧ output_queue (cfu m') = [] ∧
    reg_input_offset (cfu m') = input_offset params ∧
    reg_output_offset (cfu m') = output_offset params ∧
    reg_activation_min (cfu m') = quantized_activation_min params ∧
    reg_activation_max (cfu m') = quantized_activation_max params.
Proof.
  intros Hcontract Hd Hdeep Hh Hw Hod Hod4 Hacc Hqueue Hlen Hfuel.
  assert (Hcap : 0 < MAX_FILTER_WORDS).
  { pose proof (Z.mul_div_le MAX_FILTER_WORDS 16 ltac:(lia)). lia. }
  assert (Hwords : filter_words_per_output_channel input_depth 4 4 = 4 * input_depth).
  { unfold filter_words_per_output_channel.
    replace (input_depth * 4 * 4) with (4 * input_depth * 4) by lia.
    by rewrite Z.quot_mul. }
  pose proof (max_output_channels_per_load_spec
                (filter_words_per_output_channel input_depth 4 4) ltac:(lia)) as Htile.
  set (tile := Z.quot (Z.quot MAX_FILTER_WORDS _) 4 * 4) in Htile.
  destruct (tile_size_positive_iff input_depth tile Hcap Hd Htile) as (_ & Hpos & _).
  apply Hpos in Hdeep. clear Hpos.
  pose proof (max_output_channels_per_load_divide _ _ Htile) as Htile4.
  clearbody tile.
  destruct (ConvPerChannel4x4_main_loop (H0 := spec_accelerator rescale)
              params input_height input_width input_depth
              output_height output_width output_depth input_data filter_data
              output_multiplier output_shift bias_shape (Some bias) fuel tile m
              Hcontract Htile) as (bias' & [= <-] & ->).
  destruct Hcontract as [_ _ _ _ _ Hsh Hsw Hoh How Hin].
  pose proof (length_reference rescale params input_height input_width input_depth
                output_height output_width output_depth input_data filter_data bias
                output_multiplier output_shift) as Hreflen.
  pose proof (total_for_fuel
    (process_tile (H0 := spec_accelerator rescale)
       (stride_width params) (stride_height params)
       output_multiplier output_shift input_shape input_data
       filter_shape filter_data bias output_shape
       input_height input_width input_depth 4 4
       output_height output_width output_depth tile)
    (λ i m,
       0 ≤ i ∧ (4 | i) ∧
       (∃ filters filter_pos inputs input_pos registers register_pos,
          cfu m = accel_state params filters filter_pos inputs input_pos
                    registers register_pos []) ∧
       agrees rescale params input_height input_width input_depth
         output_height output_width output_depth
         input_data filter_data bias output_multiplier output_shift
         (λ u, u `mod` output_depth < i) (output_data m))
    output_depth tile Hdeep) as Hloop.
  cbn beta in Hloop.
  match type of Hloop with ?body → _ => assert (Hbody : body) end.
  { intros i Hi m0 (Hi0 & Hi4 & Hidle & Hag).
    destruct (process_tile_total rescale params input_height input_width input_depth
                output_height output_width output_depth input_data filter_data bias
                output_multiplier output_shift tile i
                Hd Hin Hsh Hsw Hoh How Hh Hw Hod4 Htile4 Hdeep
                Hi4 ltac:(lia) m0 (conj Hidle Hag)) as ([] & m' & Hrun & Hidle' & Hag').
    exists tt, m'. split; [done|]. split; [lia|]. split; [by apply Z.divide_add_r|].
    done. }
  specialize (Hloop Hbody fuel 0 ltac:(lia)).
  match goal with
  | |- context [for_fuel _ _ _ _ _ ?m1] =>
      destruct (Hloop m1) as ([] & m' & Hrun & i & Hi & _ & _ & Hidle & Hag)
  end.
  - cbn [cfu output_data]. split; [done|]. split; [apply Z.divide_0_r|]. split.
    + destruct (cfu m) as [? ? ? ? filters fp inputs ip registers rp acc queue].
      cbn in Hacc, Hqueue. subst acc queue.
      by exists filters, fp, inputs, ip, registers, rp.
    + split.
      * apply Nat2Z.inj. rewrite Hlen, Hreflen. unfold output_shape4, FlatSize.
        cbn [foldr]. rewrite !Nat2Z.inj_mul, !Z2Nat.id by lia. lia.
      * intros u Hu Hneg. rewrite Hreflen in Hu.
        assert (0 < output_depth) by nia.
        pose proof (Z.mod_pos_bound (Z.of_nat u) output_depth ltac:(lia)). lia.
  - exists m'. split; [exact Hrun|]. split.
    + apply (agrees_everywhere rescale params input_height input_width input_depth
               output_height output_width output_depth input_data filter_data bias
               output_multiplier output_shift).
      eapply agrees_weaken; [exact Hag|].
      intros u Hu _. rewrite Hreflen in Hu.
      assert (0 < output_depth) by nia.
      pose proof (Z.mod_pos_bound u output_depth ltac:(lia)). cbn beta. lia.
    + destruct Hidle as (filters & fp & inputs & ip & registers & rp & ->). done.
Qed.

End SpecRunIdle.

Section ConsecutiveCalls.
Context `{GatewareConstants}.
Variable rescale : Z → Z → Z → Z.
Variables params1 params2 : ConvParams.
Variables input_height1 input_width1 input_depth1 : Z.
Variables output_height1 output_width1 output_depth1 : Z.
Variables input_height2 input_width2 input_depth2 : Z.
Variables output_height2 output_width2 output_depth2 : Z.
Variables (input_data1 filter_data1 bias1 output_multiplier1 output_shift1 : list Z).
Variables (input_data2 filter_data2 bias2 output_multiplier2 output_shift2 : list Z).
Variables bias_shape1 bias_shape2 : RuntimeShape.

(** X11.  On the specified accelerator a call leaves the accelerator ready
    for the next one: after a first call on an idle accelerator, a second
    call on other tensors, parameters and shapes, into an output buffer of
    its own, leaves its reference output, whatever the first call left in
    the accelerator's memories and registers. *)
Theorem consecutive_calls_compute_their_references
    (fuel1 fuel2 : nat) (m : machine accel) (output2 : list Z) :
  engine_contract params1 bias_shape1 (Some bias1)
    input_height1 input_width1 input_depth1
    output_height1 output_width1 output_depth1 →
  engine_contract params2 bias_shape2 (Some bias2)
    input_height2 input_width2 input_depth2
    output_height2 output_width2 output_depth2 →
  (0 < input_depth1 ∧ input_depth1 ≤ MAX_FILTER_WORDS `div` 16) →
  (0 < input_depth2 ∧ input_depth2 ≤ MAX_FILTER_WORDS `div` 16) →
  (0 ≤ output_height1 ∧ 0 ≤ output_width1 ∧ 0 ≤ output_depth1 ∧ (4 | output_depth1)) →
  (0 ≤ output_height2 ∧ 0 ≤ output_width2 ∧ 0 ≤ output_depth2 ∧ (4 | output_depth2)) →
  accumulator (cfu m) = 0 → output_queue (cfu m) = [] →
  Z.of_nat (length (output_data m))
    = FlatSize (output_shape4 output_height1 output_width1 output_depth1) →
  Z.of_nat (length output2)
    = FlatSize (output_shape4 output_height2 output_width2 output_depth2) →
  (Z.to_nat output_depth1 < fuel1)%nat → (Z.to_nat output_depth2 < fuel2)%nat →
  ∃ m1 m2,
    ConvPerChannel4x4 (H0 := spec_accelerator rescale) fuel1 params1
      output_multiplier1 output_shift1
      (input_shape4 input_height1 input_width1 input_depth1) input_data1
      (filter_shape4 input_depth1 output_depth1) filter_data1
      bias_shape1 (Some bias1)
      (output_shape4 output_height1 output_width1 output_depth1) m = Done tt m1 ∧
    ConvPerChannel4x4 (H0 := spec_accelerator rescale) fuel2 params2
      output_multiplier2 output_shift2
      (input_shape4 input_height2 input_width2 input_depth2) input_data2
      (filter_shape4 input_depth2 output_depth2) filter_data2
      bias_shape2 (Some bias2)
      (output_shape4 output_height2 output_width2 output_depth2)
      (Machine (cfu m1) output2 (trace m1)) = Done tt m2 ∧
    output_data m1 =
      reference_ConvPerChannel rescale params1 output_multiplier1 output_shift1
        (input_shape4 input_height1 input_width1 input_depth1) input_data1
        (filter_shape4 input_depth1 output_depth1) filter_data1 bias1
        (output_shape4 output_height1 output_width1 output_depth1) ∧
    output_data m2 =
      reference_ConvPerChannel rescale params2 output_multiplier2 output_shift2
        (input_shape4 input_height2 input_width2 input_depth2) input_data2
        (filter_shape4 input_depth2 output_depth2) filter_data2 bias2
        (output_shape4 output_height2 output_width2 output_depth2).
Proof.
  intros Hc1 Hc2 [Hd1 Hdeep1] [Hd2 Hdeep2] (Hh1 & Hw1 & Hod1 & Hdiv1)
    (Hh2 & Hw2 & Hod2 & Hdiv2) Hacc Hqueue Hlen1 Hlen2 Hfuel1 Hfuel2.
  destruct (ConvPerChannel4x4_reference_and_idle rescale params1
              input_height1 input_width1 input_depth1
              output_height1 output_width1 output_depth1
              input_data1 filter_data1 bias1 output_multiplier1 output_shift1
              fuel1 bias_shape1 m Hc1 Hd1 Hdeep1 Hh1 Hw1 Hod1 Hdiv1 Hacc Hqueue
              Hlen1 Hfuel1)
    as (m1 & Hrun1 & Hout1 & Hacc1 & Hqueue1 & _).
  destruct (ConvPerChannel4x4_reference_and_idle rescale params2
              input_height2 input_width2 input_depth2
              output_height2 output_width2 output_depth2
              input_data2 filter_data2 bias2 output_multiplier2 output_shift2
              fuel2 bias_shape2 (Machine (cfu m1) output2 (trace m1))
              Hc2 Hd2 Hdeep2 Hh2 Hw2 Hod2 Hdiv2 Hacc1 Hqueue1 Hlen2 Hfuel2)
    as (m2 & Hrun2 & Hout2 & _).
  by exists m1, m2.
Qed.

End ConsecutiveCalls.

(** ** More on the harness *)

Lemma int8_eq_mod_256 (v e : Z) :
  -128 ≤ v ≤ 127 → v = to_int8 e ↔ v `mod` 256 = e `mod` 256.
Proof.
  intros Hv. unfold to_int8, wrap_signed.
  change (2 ^ (8 - 1)) with 128. change (2 ^ 8) with 256.
  pose proof (Z.mod_pos_bound (e + 128) 256 ltac:(lia)) as Hm.
  split.
  - intros ->.
    replace ((e + 128) `mod` 256 - 128)
      with (e + (- ((e + 128) `div` 256)) * 256)
      by (pose proof (Z.div_mod (e + 128) 256 ltac:(lia)); lia).
    by rewrite Z.mod_add by lia.
  - intros Heq.
    assert (He : (e + 128) `mod` 256 = (v + 128) `mod` 256).
    { rewrite <- (Zplus_mod_idemp_l e), <- Heq, Zplus_mod_idemp_l. done. }
    rewrite He, Z.mod_small by lia. lia.
Qed.

Section HarnessMore.
Import Conv2dCall.

Lemma word_at_past_end (buf : list Z) (i : Z) :
  Z.of_nat (length buf) < 4 * i + 4 → word_at buf i = None.
Proof.
  intros Hlen. unfold word_at.
  destruct (read buf (4 * i)) as [b0|]; [|done].
  destruct (read buf (4 * i + 1)) as [b1|]; [|done].
  destruct (read buf (4 * i + 2)) as [b2|]; [|done].
  assert (read buf (4 * i + 3) = None) as ->; [|done].
  unfold read. destruct (Z.leb_spec 0 (4 * i + 3)); [|done].
  apply lookup_ge_None_2. lia.
Qed.

(** X12.  When the output differs from the expected one the table loop runs
    [i] from 0 to 31 whatever the size of the tensors: every iteration [i]
    whose word ends past the end of the expected output reads
    [expected_words[i]] outside that array, and the row printed has an
    expected word and a comparison with it that no word of the array
    decides. *)
Theorem diff_table_reads_past_the_expected_output
    (ConvPerChannel : kernel) (data : Conv2DData) (arena_output0 : list Z) :
  let arena_output := kernel_output ConvPerChannel data arena_output0 in
  let expected := output_data data in
  let report := test_conv2d ConvPerChannel data arena_output0 in
  count_diffs arena_output expected (FlatSize (output_shape data)) ≠ 0 →
  ∀ i, 0 ≤ i < 32 → Z.of_nat (length expected) < 4 * i + 4 →
    (table_row arena_output expected i).1 ∈ printed report ∧
    (table_row arena_output expected i).1 =
      TableRow i (word_at arena_output i) None None
        (words_equal (word_at expected (i - 4)) (word_at arena_output i)) ∧
    read_word arena_output expected ExpectedWords i
      = (None, [WordRead ExpectedWords i]) ∧
    WordRead ExpectedWords i ∈ (table_row arena_output expected i).2 ∧
    WordRead ExpectedWords i ∈ word_reads report ∧
    ¬ word_in_bounds expected i ∧
    word_at expected i = None.
Proof.
  intros arena_output expected report Hdiff.
  unfold report. rewrite test_conv2d_differs by done. cbn [printed word_reads].
  intros i Hi Hlen.
  assert (Hnone : word_at expected i = None) by (by apply word_at_past_end).
  assert (Hrow : WordRead ExpectedWords i ∈ (table_row arena_output expected i).2).
  { cbn. rewrite !elem_of_cons. auto. }
  split; [|split; [|split; [|split; [done|split; [|split]]]]].
  - rewrite !elem_of_cons, elem_of_app, list_elem_of_fmap.
    right. right. left. exists i. split; [done|]. apply elem_of_seqZ. lia.
  - unfold table_row, bind_reading, read_word. cbn [fst snd ret_reading].
    by rewrite Hnone.
  - unfold read_word. by rewrite Hnone.
  - apply list_elem_of_bind. exists i. split; [done|]. apply elem_of_seqZ. lia.
  - unfold word_in_bounds. lia.
  - done.
Qed.

(** X13.  The count the harness reports is between 0 and the number of
    output elements; when it is zero the harness prints two lines and reads
    no word at all. *)
Theorem diff_count_bounds_and_silent_success
    (ConvPerChannel : kernel) (data : Conv2DData) (arena_output0 : list Z) :
  let arena_output := kernel_output ConvPerChannel data arena_output0 in
  let flat_size := FlatSize (output_shape data) in
  let diff_count := count_diffs arena_output (output_data data) flat_size in
  let report := test_conv2d ConvPerChannel data arena_output0 in
  0 ≤ diff_count ≤ Z.max 0 flat_size ∧
  (diff_count = 0 →
   printed report = [Testing (name data); PrintOk] ∧ word_reads report = []) ∧
  (diff_count ≠ 0 →
   length (printed report) = 35%nat ∧ length (word_reads report) = 192%nat ∧
   last (printed report) = Some (PrintFail diff_count)).
Proof.
  intros arena_output flat_size diff_count report. split; [|split].
  - unfold diff_count. rewrite count_diffs_count.
    pose proof (length_filter
                  (λ i, load arena_output i ≠ to_int8 (load (output_data data) i))
                  (seqZ 0 flat_size)) as Hle.
    rewrite length_seqZ in Hle. lia.
  - intros Hz. unfold report. by rewrite test_conv2d_identical.
  - intros Hnz. unfold report. rewrite test_conv2d_differs by done.
    cbn [printed word_reads]. split; [|split].
    + cbn [length]. by rewrite length_app, length_fmap, length_seqZ.
    + by rewrite (length_bind_blocks _ 6), length_seqZ.
    + rewrite !last_cons, last_snoc. done.
Qed.

(** X14.  The harness casts the expected value to [int8_t] before it
    compares: for an output of signed bytes it prints OK exactly when every
    output byte is congruent to the expected value modulo 256 (an expected
    255 matches an output of -1). *)
Theorem test_conv2d_compares_modulo_256
    (ConvPerChannel : kernel) (data : Conv2DData) (arena_output0 : list Z) :
  let arena_output := kernel_output ConvPerChannel data arena_output0 in
  let flat_size := FlatSize (output_shape data) in
  let report := test_conv2d ConvPerChannel data arena_output0 in
  (∀ i, 0 ≤ i < flat_size → -128 ≤ load arena_output i ≤ 127) →
  PrintOk ∈ printed report ↔
  ∀ i, 0 ≤ i < flat_size →
       load arena_output i `mod` 256 = load (output_data data) i `mod` 256.
Proof.
  intros arena_output flat_size report Hrange.
  assert (Hzero : count_diffs arena_output (output_data data) flat_size = 0 ↔
                  ∀ i, 0 ≤ i < flat_size →
                       load arena_output i `mod` 256
                       = load (output_data data) i `mod` 256).
  { rewrite count_diffs_zero. split; intros Hall i Hi.
    - apply int8_eq_mod_256; auto.
    - apply int8_eq_mod_256; auto. }
  rewrite <- Hzero.
  destruct (decide (count_diffs arena_output (output_data data) flat_size = 0))
    as [Hz|Hnz].
  - unfold report. rewrite test_conv2d_identical by done.
    split; [done|]. intros _. cbn [printed]. rewrite !elem_of_cons. auto.
  - unfold report. rewrite test_conv2d_differs by done. cbn [printed].
    split; [|done].
    rewrite !elem_of_cons, elem_of_app, list_elem_of_fmap, list_elem_of_singleton.
    intros [|[|[(? & ? & ?)|]]]; done.
Qed.

End HarnessMore.

(* ================================================================= *)
(** * Part V: the further properties on concrete calls *)
(* ================================================================= *)

(** The tile size of the small gateware for an input of depth 1 is the
    largest that fits. *)
Lemma small_gateware_tile_is_largest :
  (∀ channels,
     (4 | channels) →
     filter_words_per_output_channel 1 4 4 * channels ≤ 16 → channels ≤ 4) ∧
  16 < filter_words_per_output_channel 1 4 4 * (4 + 4).
Proof.
  apply (@tile_size_is_largest_that_fits small_gateware 1 4); by vm_compute.
Defined.

(** The stores of the sample call of output depth 6 are aligned. *)
Lemma sample_call_of_depth_6_stores_aligned :
  Forall (λ e, match e with
               | EvStoreWord p _ =>
                   (4 | p) ∧ ((4 | 6) → 0 ≤ p ∧ p + 4 ≤ FlatSize (output_shape4 1 2 6))
               | _ => True
               end) (trace (final (sample_call 6 10))).
Proof.
  unfold sample_call.
  destruct (@stores_are_aligned_and_inside small_gateware accel
              (spec_accelerator MultiplyByQuantizedMultiplier) sample_params
              4 5 1 1 2 6 (sample_input 20) (sample_filter (16 * 6))
              (sample_multiplier 6) (sample_shift 6) 10%nat [6] (Some (seqZ 1 6))
              (sample_machine (2 * 6)))
    as (l & Ht & HQ); [by vm_compute|lia|lia|lia|].
  rewrite Ht. exact HQ.
Defined.

(** The loads of the sample call of output depth 6. *)
Lemma sample_call_of_depth_6_loads_inside :
  Forall (λ e, match e with
               | EvLoadFilter depth channels filter_ptr =>
                   depth = 1 ∧ 0 ≤ channels ∧
                   filter_words_per_output_channel depth 4 4 * channels ≤ 16 ∧
                   0 ≤ filter_ptr ∧
                   filter_ptr + channels * (4 * 4 * depth)
                     ≤ FlatSize (filter_shape4 1 6)
               | EvLoadOutputParams offset channels =>
                   0 ≤ offset ∧ 0 ≤ channels ∧ offset + channels ≤ 6
               | _ => True
               end) (trace (final (sample_call 6 10))).
Proof.
  unfold sample_call.
  destruct (@tile_loads_are_inside small_gateware accel
              (spec_accelerator MultiplyByQuantizedMultiplier) sample_params
              4 5 1 1 2 6 (sample_input 20) (sample_filter (16 * 6))
              (sample_multiplier 6) (sample_shift 6) 10%nat [6] (Some (seqZ 1 6))
              (sample_machine (2 * 6)))
    as (l & Ht & HQ); [by vm_compute|lia|lia|lia|].
  rewrite Ht. exact HQ.
Defined.

Lemma sample_call_of_depth_6_input_loads_guarded :
  Forall (λ e, match e with
               | EvLoadInput width depth input_ptr =>
                   width = 5 ∧ depth = 1 ∧
                   Z.quot (depth * 4 * 4) 4 ≤ 16 ∧
                   Forall (λ i, 0 ≤ i < FlatSize (input_shape4 4 5 1))
                     (window_offsets width depth input_ptr)
               | _ => True
               end) (trace (final (sample_call 6 10))).
Proof.
  unfold sample_call.
  destruct (@input_loads_are_guarded small_gateware accel
              (spec_accelerator MultiplyByQuantizedMultiplier) sample_params
              4 5 1 1 2 6 (sample_input 20) (sample_filter (16 * 6))
              (sample_multiplier 6) (sample_shift 6) 10%nat [6] (Some (seqZ 1 6))
              (sample_machine (2 * 6)))
    as (l & Ht & HQ); [by vm_compute|lia|lia|lia|by vm_compute|by vm_compute|].
  rewrite Ht. exact HQ.
Defined.

(** The sample call completes, so its tensors are eligible. *)
Lemma sample_call_is_eligible :
  CanAccelerateConv4x4 sample_params (input_shape4 4 5 1) (filter_shape4 1 8)
    (output_shape4 1 2 8) (Some (seqZ 1 8)) = Ok true.
Proof.
  destruct (@call_past_the_assertions_is_eligible small_gateware accel
              (spec_accelerator MultiplyByQuantizedMultiplier) 10%nat sample_params
              (sample_multiplier 8) (sample_shift 8)
              (input_shape4 4 5 1) (filter_shape4 1 8) [8] (output_shape4 1 2 8)
              (sample_input 20) (sample_filter (16 * 8)) (Some (seqZ 1 8))
              (sample_machine (2 * 8)))
    as (? & ? & ? & ? & ? & ? & ? & _ & _ & _ & _ & _ & _ & _ & _ & Hel).
  - left. eexists. exact sample_call_completes.
  - exact Hel.
Defined.

(** The sample call with a dilation of 2 fails before it touches the
    machine. *)
Lemma dilated_call_leaves_machine :
  sample_call_with dilated_params 10
  = Failed (DcheckFailed ChkDilationWidth) (sample_machine (2 * 8)) ∧
  final (sample_call_with dilated_params 10) = sample_machine (2 * 8).
Proof.
  assert (Hfail : sample_call_with dilated_params 10
                  = Failed (DcheckFailed ChkDilationWidth)
                      (final (sample_call_with dilated_params 10)))
    by (by vm_compute).
  assert (Hsame : final (sample_call_with dilated_params 10) = sample_machine (2 * 8)).
  { unfold sample_call_with in Hfail.
    exact (failed_assertion_before_loop_leaves_machine 10%nat dilated_params
             (sample_multiplier 8) (sample_shift 8)
             (input_shape4 4 5 1) (filter_shape4 1 8) [8] (output_shape4 1 2 8)
             (sample_input 20) (sample_filter (16 * 8)) (Some (seqZ 1 8))
             ChkDilationWidth (sample_machine (2 * 8)) _ Hfail eq_refl). }
  split; [|exact Hsame]. rewrite Hsame in Hfail. exact Hfail.
Defined.

(** The sample call with a padding value of 1 is eligible and fails on an
    assertion the classifier does not make. *)
Lemma padded_call_fails_unchecked_assertion :
  CanAccelerateConv4x4 padded_params (input_shape4 4 5 1) (filter_shape4 1 8)
    (output_shape4 1 2 8) (Some (seqZ 1 8)) = Ok true ∧
  sample_call_with padded_params 10
  = Failed (DcheckFailed ChkPaddingWidth) (sample_machine (2 * 8)) ∧
  classifier_check ChkPaddingWidth = false.
Proof.
  assert (Hel : CanAccelerateConv4x4 padded_params (input_shape4 4 5 1)
                  (filter_shape4 1 8) (output_shape4 1 2 8) (Some (seqZ 1 8))
                = Ok true) by (by vm_compute).
  assert (Hfail : sample_call_with padded_params 10
                  = Failed (DcheckFailed ChkPaddingWidth) (sample_machine (2 * 8)))
    by (by vm_compute).
  split; [exact Hel|]. split; [exact Hfail|].
  unfold sample_call_with in Hfail.
  exact (eligible_call_fails_only_unchecked_assertions 10%nat padded_params
           (sample_multiplier 8) (sample_shift 8)
           (input_shape4 4 5 1) (filter_shape4 1 8) [8] (output_shape4 1 2 8)
           (sample_input 20) (sample_filter (16 * 8)) (Some (seqZ 1 8))
           ChkPaddingWidth (sample_machine (2 * 8)) _ Hel Hfail).
Defined.

(** The sample shapes with an input of depth 0. *)
Lemma empty_depth_contract :
  engine_contract (H := small_gateware) sample_params [8] (Some (seqZ 1 8)) 4 5 0 1 2 8.
Proof. split; by vm_compute. Qed.

Lemma empty_depth_call_divides_by_zero :
  ∃ m', empty_depth_call 10 = Failed DivisionByZero m' ∧
        output_data m' = replicate 16 0.
Proof.
  unfold empty_depth_call.
  destruct (@depth_zero_divides_by_zero small_gateware accel
              (spec_accelerator MultiplyByQuantizedMultiplier) sample_params
              4 5 1 2 8 [] [] (sample_multiplier 8) (sample_shift 8)
              [8] (Some (seqZ 1 8)) 10%nat (sample_machine (2 * 8))
              empty_depth_contract)
    as (_ & m' & Hrun & _ & Hout).
  exists m'. split; [exact Hrun|]. rewrite Hout. by vm_compute.
Defined.

(** The sample call on the silent accelerator. *)
Lemma silent_call_completes :
  ∃ m', silent_call 10 = Done tt m' ∧ length (output_data m') = 16%nat.
Proof.
  unfold silent_call.
  destruct (@contract_call_completes_on_any_accelerator small_gateware unit
              silent_accelerator sample_params 4 5 1 1 2 8
              (sample_input 20) (sample_filter (16 * 8))
              (sample_multiplier 8) (sample_shift 8) 10%nat [8] (Some (seqZ 1 8))
              (Machine tt (replicate 16 7) []))
    as (m' & Hrun & Hlen);
    [exact sample_call_contract|lia|by vm_compute|lia|lia|lia|by exists 2
    |by vm_compute|vm_compute; lia|].
  exists m'. split; [exact Hrun|]. rewrite Hlen. by vm_compute.
Defined.

(** The stores of the sample call of output depth 8. *)
Lemma sample_call_stores_each_word_once :
  stores_of (trace (final (sample_call 8 10))) ≡ₚ [0; 4; 8; 12] ∧
  NoDup (stores_of (trace (final (sample_call 8 10)))).
Proof.
  destruct (@stores_cover_each_word_once small_gateware accel
              (spec_accelerator MultiplyByQuantizedMultiplier) sample_params
              4 5 1 1 2 8 (sample_input 20) (sample_filter (16 * 8))
              (sample_multiplier 8) (sample_shift 8) 10%nat [8] (Some (seqZ 1 8))
              (sample_machine (2 * 8)) (final (sample_call 8 10))
              ltac:(by exists 2) ltac:(lia) ltac:(lia) ltac:(lia)
              sample_call_completes)
    as (l & Ht & Hperm & Hnodup).
  rewrite Ht. split; [exact Hperm|exact Hnodup].
Defined.

(** The sample call twice. *)
Lemma sample_call_twice :
  ∃ m1 m2,
    sample_call 8 10 = Done tt m1 ∧
    ConvPerChannel4x4 (H := small_gateware)
      (H0 := spec_accelerator MultiplyByQuantizedMultiplier) 10 sample_params
      (sample_multiplier 8) (sample_shift 8)
      (input_shape4 4 5 1) (sample_input 20)
      (filter_shape4 1 8) (sample_filter (16 * 8))
      [8] (Some (seqZ 1 8))
      (output_shape4 1 2 8)
      (Machine (cfu m1) (replicate 16 0) (trace m1)) = Done tt m2 ∧
    output_data m1 = sample_reference 8 ∧
    output_data m2 = sample_reference 8.
Proof.
  unfold sample_call, sample_reference.
  apply (@consecutive_calls_compute_their_references small_gateware
           MultiplyByQuantizedMultiplier sample_params sample_params
           4 5 1 1 2 8 4 5 1 1 2 8
           (sample_input 20) (sample_filter (16 * 8)) (seqZ 1 8)
           (sample_multiplier 8) (sample_shift 8)
           (sample_input 20) (sample_filter (16 * 8)) (seqZ 1 8)
           (sample_multiplier 8) (sample_shift 8) [8] [8] 10%nat 10%nat
           (sample_machine (2 * 8)) (replicate 16 0)).
  - exact sample_call_contract.
  - exact sample_call_contract.
  - split; [lia|by vm_compute].
  - split; [lia|by vm_compute].
  - repeat split; try lia. by exists 2.
  - repeat split; try lia. by exists 2.
  - reflexivity.
  - reflexivity.
  - vm_compute. reflexivity.
  - vm_compute. reflexivity.
  - vm_compute. lia.
  - vm_compute. lia.
Defined.

(** The table of the test case [two_bytes_data], whose expected output has
    four bytes. *)
Lemma two_bytes_table_reads_past_the_end :
  Conv2dCall.TableRow 1 (Some 0) None None None
    ∈ Conv2dCall.printed
        (Conv2dCall.test_conv2d bias_kernel two_bytes_data (replicate 128 0)) ∧
  Conv2dCall.WordRead Conv2dCall.ExpectedWords 1
    ∈ Conv2dCall.word_reads
        (Conv2dCall.test_conv2d bias_kernel two_bytes_data (replicate 128 0)) ∧
  Conv2dCall.word_at (Conv2dCall.output_data two_bytes_data) 1 = None.
Proof.
  destruct (diff_table_reads_past_the_expected_output bias_kernel two_bytes_data
              (replicate 128 0) ltac:(by vm_compute) 1 ltac:(lia)
              ltac:(by vm_compute))
    as (Hin & Heq & _ & _ & Hread & _ & Hnone).
  rewrite Heq in Hin.
  split; [exact Hin|]. split; [exact Hread|exact Hnone].
Defined.

Lemma two_bytes_data_verdict :
  Conv2dCall.PrintOk
    ∈ Conv2dCall.printed
        (Conv2dCall.test_conv2d bias_kernel two_bytes_data (replicate 128 0)) ↔
  ∀ i, 0 ≤ i < 4 →
       Conv2dCall.load
         (Conv2dCall.kernel_output bias_kernel two_bytes_data (replicate 128 0)) i
         `mod` 256
       = Conv2dCall.load (Conv2dCall.output_data two_bytes_data) i `mod` 256.
Proof.
  apply (test_conv2d_compares_modulo_256 bias_kernel two_bytes_data
           (replicate 128 0)).
  intros i Hi.
  assert (Hi' : 0 ≤ i < 4) by exact Hi.
  assert (Hcases : i = 0 ∨ i = 1 ∨ i = 2 ∨ i = 3) by lia.
  destruct Hcases as [Hi0|[Hi0|[Hi0|Hi0]]]; subst i; by vm_compute.
Defined.
